(** * helm-schema-gen: schema inference, comment extraction, enrichment, linting

    A shallow embedding of the Go packages [pkg/schema-generator] and
    [pkg/json-schema-generator] and the properties their specification
    states about them.

    Conventions of the embedding.
    - A Go [string] is a byte string: Rocq's [string] of [ascii] bytes.
      [strings.TrimSpace] removes white space as Unicode defines it, read
      off the UTF-8 encoding.  [strings.ToLower] is embedded on ASCII
      strings, and on the one-byte string the linter gives it; the theorems
      that rest on the lowering of a path assume that the path is ASCII.
    - A Go [any] holding a decoded YAML value is the inductive [Value]; the
      reflect kind of the value is the constructor.
    - A Go [map] that the code ranges over is an association list whose
      order is the order in which that [range] visits the entries (Go leaves
      it unspecified, so theorems quantify over the list).  Maps that are
      only written and looked up are stdpp maps and sets.
    - A function returning [(T, error)] returns [outcome T]: [Ok v] for
      [return v, nil], [Err e] for [return nil, e], and [Panic] for a run-time
      panic (a failed type assertion, a slice bound out of range). *)

From Stdlib Require Import ZArith List Bool Ascii String DecimalString Lia.
From stdpp Require Import gmap strings.

Set Warnings "-register-all,-clear-no-such-hyp".

Open Scope string_scope.
Open Scope list_scope.
Open Scope Z_scope.

(** ** Package [strings] and [bufio] *)

Module Strings.

(** [c < utf8.RuneSelf]: the byte is a rune of its own. *)
Definition isASCIIByte (c : ascii) : bool := (nat_of_ascii c <? 128)%nat.

Fixpoint isASCII (s : string) : bool :=
  match s with
  | EmptyString => true
  | String c rest => isASCIIByte c && isASCII rest
  end.

(** [unicode.IsSpace] on the runes of one byte: tab, line feed, vertical
    tab, form feed, carriage return and space. *)
Definition isSpace (c : ascii) : bool :=
  let n := nat_of_ascii c in
  ((9 <=? n) && (n <=? 13))%nat || (n =? 32)%nat.

(** [unicode.IsSpace] on the runes of two bytes, by their UTF-8 encoding:
    U+0085 (C2 85) and U+00A0 (C2 A0). *)
Definition isSpace2 (b0 b1 : ascii) : bool :=
  let n0 := nat_of_ascii b0 in
  let n1 := nat_of_ascii b1 in
  ((n0 =? 194) && ((n1 =? 133) || (n1 =? 160)))%nat.

(** [unicode.IsSpace] on the runes of three bytes: U+1680 (E1 9A 80),
    U+2000 to U+200A (E2 80 80 to E2 80 8A), U+2028, U+2029 and U+202F
    (E2 80 A8, A9, AF), U+205F (E2 81 9F) and U+3000 (E3 80 80).  No rune of
    four bytes is white space. *)
Definition isSpace3 (b0 b1 b2 : ascii) : bool :=
  let n0 := nat_of_ascii b0 in
  let n1 := nat_of_ascii b1 in
  let n2 := nat_of_ascii b2 in
  ((n0 =? 225) && (n1 =? 154) && (n2 =? 128)
   || (n0 =? 226) && (n1 =? 128)
      && ((128 <=? n2) && (n2 <=? 138)
          || (n2 =? 168) || (n2 =? 169) || (n2 =? 175))
   || (n0 =? 226) && (n1 =? 129) && (n2 =? 159)
   || (n0 =? 227) && (n1 =? 128) && (n2 =? 128))%nat.

(** [s] is the UTF-8 encoding of one rune that [unicode.IsSpace] accepts. *)
Definition isSpaceRune (s : string) : bool :=
  match s with
  | String b0 EmptyString => isSpace b0
  | String b0 (String b1 EmptyString) => isSpace2 b0 b1
  | String b0 (String b1 (String b2 EmptyString)) => isSpace3 b0 b1 b2
  | _ => false
  end.

(** [strings.TrimLeftFunc(s, unicode.IsSpace)]: the runes are decoded from
    the front; a byte that starts no valid encoding decodes to U+FFFD, which
    is no white space, and ends the trimming. *)
Fixpoint TrimLeftSpace (s : string) : string :=
  match s with
  | EmptyString => EmptyString
  | String b0 rest0 =>
      if isSpace b0 then TrimLeftSpace rest0
      else
        match rest0 with
        | String b1 rest1 =>
            if isSpace2 b0 b1 then TrimLeftSpace rest1
            else
              match rest1 with
              | String b2 rest2 =>
                  if isSpace3 b0 b1 b2 then TrimLeftSpace rest2 else s
              | EmptyString => s
              end
        | EmptyString => s
        end
  end.

(** [strings.TrimRightFunc(s, unicode.IsSpace)]: the runes are decoded from
    the end.  What is left of [rest], with [c] before it, is removed when it
    is the encoding of one white-space rune. *)
Fixpoint TrimRightSpace (s : string) : string :=
  match s with
  | EmptyString => EmptyString
  | String c rest =>
      let kept := String c (TrimRightSpace rest) in
      if isSpaceRune kept then EmptyString else kept
  end.

(** [strings.TrimSpace]: leading and trailing white space, as Unicode
    defines it, is removed. *)
Definition TrimSpace (s : string) : string :=
  TrimRightSpace (TrimLeftSpace s).

Fixpoint TrimLeftFunc (f : ascii -> bool) (s : string) : string :=
  match s with
  | EmptyString => EmptyString
  | String c rest => if f c then TrimLeftFunc f rest else s
  end.

(** [strings.TrimLeft(s, " ")]: the cutset is the single space. *)
Definition TrimLeftSpaces (s : string) : string :=
  TrimLeftFunc (fun c => Ascii.eqb c " "%char) s.

Fixpoint HasPrefix (s prefix : string) : bool :=
  match prefix, s with
  | EmptyString, _ => true
  | String p prefix', String c s' => Ascii.eqb c p && HasPrefix s' prefix'
  | String _ _, EmptyString => false
  end.

Fixpoint Contains (s substr : string) : bool :=
  HasPrefix s substr ||
  match s with
  | EmptyString => false
  | String _ s' => Contains s' substr
  end.

Fixpoint skip (n : nat) (s : string) : string :=
  match n, s with
  | O, _ => s
  | S n', String _ s' => skip n' s'
  | S _, EmptyString => EmptyString
  end.

Definition HasSuffix (s suffix : string) : bool :=
  (String.length suffix <=? String.length s)%nat &&
  String.eqb (skip (String.length s - String.length suffix) s) suffix.

Definition TrimPrefix (s prefix : string) : string :=
  if HasPrefix s prefix then skip (String.length prefix) s else s.

Definition lowerByte (c : ascii) : ascii :=
  let n := nat_of_ascii c in
  if ((65 <=? n) && (n <=? 90))%nat then ascii_of_nat (n + 32) else c.

(** [strings.ToLower] on a string of ASCII bytes, where it lowers the
    letters [A] to [Z] byte by byte.  On other strings Go maps every rune
    through the case tables of package [unicode], which are no part of this
    development: the statements that rest on [ToLower] are about ASCII
    strings. *)
Fixpoint ToLower (s : string) : string :=
  match s with
  | EmptyString => EmptyString
  | String c rest => String (lowerByte c) (ToLower rest)
  end.

(** The encoding of U+FFFD, [utf8.RuneError]. *)
Definition RuneError : string :=
  String (ascii_of_nat 239)
    (String (ascii_of_nat 191) (String (ascii_of_nat 189) EmptyString)).

(** [strings.ToLower] on the string of the one byte [c]: a byte from 0x80
    on is no UTF-8 on its own, and [strings.Map] writes U+FFFD in its
    place. *)
Definition ToLowerByte (c : ascii) : string :=
  if isASCIIByte c then String (lowerByte c) EmptyString else RuneError.

(** [strings.SplitN(s, sep, 2)] for a one-byte separator: the text before
    the first separator, and the text after it when there is one. *)
Fixpoint SplitN2 (s : string) (sep : ascii) : string * option string :=
  match s with
  | EmptyString => (EmptyString, None)
  | String c rest =>
      if Ascii.eqb c sep then (EmptyString, Some rest)
      else let '(hd, tl) := SplitN2 rest sep in (String c hd, tl)
  end.

Fixpoint Join (elems : list string) (sep : string) : string :=
  match elems with
  | [] => EmptyString
  | [e] => e
  | e :: rest => e +:+ sep +:+ Join rest sep
  end.

(** [strings.Count(s, sep)] for a one-byte separator. *)
Fixpoint CountByte (s : string) (sep : ascii) : Z :=
  match s with
  | EmptyString => 0
  | String c rest => (if Ascii.eqb c sep then 1 else 0) + CountByte rest sep
  end.

(** [s[:1]], a string of one byte, given by that byte: [None] is the
    run-time panic on the empty string. *)
Definition slice_to_1 (s : string) : option ascii :=
  match s with
  | EmptyString => None
  | String c _ => Some c
  end.

(** [s[i] == c], used only behind a length test that makes [i] valid. *)
Definition byteAt (s : string) (i : nat) (c : ascii) : bool :=
  match String.get i s with
  | Some d => Ascii.eqb d c
  | None => false
  end.

Definition LF : ascii := ascii_of_nat 10.
Definition CR : ascii := ascii_of_nat 13.

(** Splitting at every line feed: the result is never empty and its last
    element is the text after the last line feed. *)
Fixpoint splitLF (s : string) : list string :=
  match s with
  | EmptyString => [EmptyString]
  | String c rest =>
      if Ascii.eqb c LF then EmptyString :: splitLF rest
      else match splitLF rest with
           | l :: ls => String c l :: ls
           | [] => [String c EmptyString]
           end
  end.

(** [bufio.ScanLines] yields no token for empty data at end of input. *)
Fixpoint dropEmptyLast (ls : list string) : list string :=
  match ls with
  | [] => []
  | [l] => match l with EmptyString => [] | _ => [l] end
  | l :: rest => l :: dropEmptyLast rest
  end.

(** [dropCR]: one trailing carriage return is removed from a token. *)
Fixpoint dropCR (line : string) : string :=
  match line with
  | EmptyString => EmptyString
  | String c EmptyString =>
      if Ascii.eqb c CR then EmptyString else line
  | String c rest => String c (dropCR rest)
  end.

Definition MaxScanTokenSize : Z := 64 * 1024.

(** A [bufio.Scanner] with the default buffer stops, with [ErrTooLong],
    at the first line that does not fit [MaxScanTokenSize] bytes; the
    callers below never look at [scanner.Err()], so the loop just ends. *)
Fixpoint scanTokens (ls : list string) : list string :=
  match ls with
  | [] => []
  | l :: rest =>
      if Z.of_nat (String.length l) <? MaxScanTokenSize
      then dropCR l :: scanTokens rest
      else []
  end.

(** The successive values of [scanner.Text()] over [data]. *)
Definition ScanLines (data : string) : list string :=
  scanTokens (dropEmptyLast (splitLF data)).

End Strings.

(** ** The data model ([json_schema.go]) *)

(** [type SchemaType string] with its seven declared constants. *)
Inductive SchemaType :=
  TypeArray | TypeBoolean | TypeInteger | TypeNull | TypeNumber | TypeObject
| TypeString.

Definition typeName (t : SchemaType) : string :=
  match t with
  | TypeArray => "array"
  | TypeBoolean => "boolean"
  | TypeInteger => "integer"
  | TypeNull => "null"
  | TypeNumber => "number"
  | TypeObject => "object"
  | TypeString => "string"
  end.

Definition SchemaType_eqb (a b : SchemaType) : bool :=
  match a, b with
  | TypeArray, TypeArray | TypeBoolean, TypeBoolean
  | TypeInteger, TypeInteger | TypeNull, TypeNull | TypeNumber, TypeNumber
  | TypeObject, TypeObject | TypeString, TypeString => true
  | _, _ => false
  end.

(** The field [Type any] of a schema.  The generator stores a [SchemaType]
    or a [[]SchemaType]; a schema decoded from JSON holds a [[]any], whose
    elements are strings ([Some]) or something else ([None]). *)
Inductive TypeField :=
| TypeUnset                                (* nil *)
| TypeOne (t : SchemaType)                 (* SchemaType *)
| TypeUnion (ts : list SchemaType)         (* []SchemaType *)
| TypeAnys (xs : list (option string)).    (* []any *)

(** A [float64], as its IEEE-754 bit pattern. *)
Definition float64 := Z.

(** A decoded value, by reflect kind.  [VInt] stands for the kinds Int to
    Int64, [VUint] for Uint to Uint64, [VFloat] for Float32 and Float64.
    yaml.v2 decodes a mapping to [map[any]any] ([VRawMap]);
    [convertYAMLToStringMap] turns it into [map[string]any] ([VMap]). *)
Inductive Value :=
| VNil
| VBool (b : bool)
| VInt (n : Z)
| VUint (n : Z)
| VFloat (f : float64)
| VString (s : string)
| VSlice (xs : list Value)
| VMap (m : list (string * Value))
| VRawMap (m : list (Value * Value)).

Definition isNil (v : Value) : bool :=
  match v with VNil => true | _ => false end.

(** [type Schema struct], with the fields the embedded code reads or
    writes.  [Default any] is a [Value], unset when [VNil]; a nil map, nil
    pointer or nil slice whose nil-ness is tested is [None]. *)
Inductive Schema := mkSchema {
  Schema_ : string;
  Title : string;
  Description : string;
  Type_ : TypeField;
  Format : string;
  Properties : option (list (string * Schema));
  Required : list string;
  Items : option Schema;
  MinItems : option Z;
  MaxItems : option Z;
  Enum : list Value;
  Default : Value;
  Examples : option (list Value);
  HelmPath : string
}.

(** [&Schema{}] *)
Definition zeroSchema : Schema :=
  {| Schema_ := ""; Title := ""; Description := ""; Type_ := TypeUnset;
     Format := ""; Properties := None; Required := []; Items := None;
     MinItems := None; MaxItems := None; Enum := []; Default := VNil;
     Examples := None; HelmPath := "" |}.

Definition withType (s : Schema) (t : TypeField) : Schema :=
  {| Schema_ := Schema_ s; Title := Title s; Description := Description s;
     Type_ := t; Format := Format s; Properties := Properties s;
     Required := Required s; Items := Items s; MinItems := MinItems s;
     MaxItems := MaxItems s; Enum := Enum s; Default := Default s;
     Examples := Examples s; HelmPath := HelmPath s |}.

Definition withDescription (s : Schema) (d : string) : Schema :=
  {| Schema_ := Schema_ s; Title := Title s; Description := d;
     Type_ := Type_ s; Format := Format s; Properties := Properties s;
     Required := Required s; Items := Items s; MinItems := MinItems s;
     MaxItems := MaxItems s; Enum := Enum s; Default := Default s;
     Examples := Examples s; HelmPath := HelmPath s |}.

Definition withChildren (s : Schema)
    (props : option (list (string * Schema))) (items : option Schema) : Schema :=
  {| Schema_ := Schema_ s; Title := Title s; Description := Description s;
     Type_ := Type_ s; Format := Format s; Properties := props;
     Required := Required s; Items := items; MinItems := MinItems s;
     MaxItems := MaxItems s; Enum := Enum s; Default := Default s;
     Examples := Examples s; HelmPath := HelmPath s |}.

Record GeneratorOptions := {
  SchemaVersion : string;
  OptTitle : string;
  OptDescription : string;
  RequireByDefault : bool;
  IncludeExamples : bool;
  ExtractDescriptions : bool;
  Debug : bool
}.

Record Generator := { Options : GeneratorOptions }.

(** Errors, by the [fmt.Errorf] that builds them. *)
Inductive error :=
| ErrUnmarshal (msg : string)        (* what yaml.Unmarshal reported *)
| ErrNonStringKey (k : Value)        (* "non-string key in YAML: %v", k *)
| ErrRootNotMap (v : Value)          (* "root YAML value must be a map, got %T" *)
| ErrWrap (context : string) (e : error).   (* context + ": %w" *)

Inductive outcome (A : Type) :=
| Ok (a : A)
| Err (e : error)
| Panic.
Arguments Ok {A} a.
Arguments Err {A} e.
Arguments Panic {A}.

(** [m[k] = v] on a map kept as an association list. *)
Fixpoint mapSet {A : Type} (m : list (string * A)) (k : string) (v : A)
  : list (string * A) :=
  match m with
  | [] => [(k, v)]
  | (k', v') :: rest =>
      if String.eqb k' k then (k, v) :: rest else (k', v') :: mapSet rest k v
  end.

(** [m[k]] *)
Fixpoint mapGet {A : Type} (m : list (string * A)) (k : string) : option A :=
  match m with
  | [] => None
  | (k', v) :: rest => if String.eqb k' k then Some v else mapGet rest k
  end.

(** The iteration order of a Go map built by the code itself: some
    enumeration of its keys, fixed by the run time. *)
Record MapIteration := {
  rangeKeys : gset string -> list string;
  rangeKeys_perm : forall s, rangeKeys s ≡ₚ elements s
}.

Definition sortedIteration : MapIteration :=
  {| rangeKeys := elements; rangeKeys_perm := fun s => reflexivity _ |}.

(** ** The pattern table ([pattern_mapping.go]) *)

Inductive matchType := contains | suffix | exact | exact_or_suffix.

Record patternMapping := {
  patterns : list string;
  matchType_ : matchType;
  types : list SchemaType
}.

Definition patternMappings : list patternMapping :=
  [ {| patterns :=
         ["annotations"; "labels"; "nodeselector"; "securitycontext";
          "affinity"; "strategy"; "networkpolicy"; "objectselector";
          "poddisruptionbudget"; "hostaliases"; "matchlabels";
          "nodeaffinity"; "podaffinity"; "podantiaffinity"; "selector";
          "topology"; "rules"; "expressions"; "rollingupdate"];
       matchType_ := contains;
       types := [TypeObject; TypeString] |};
    {| patterns :=
         ["autoscaling"; "forceupgrade"; "createnamespace"; "autosync";
          "persistence"; "tls"; "auth"; "hostnetwork"; "hostpid"; "hostipc";
          "singlenamespace"; "debug"; "rbac"; "monitoring"; "istio";
          "serviceaccount"; "automounttoken"; "priorityclass"; "metrics";
          "tracing"];
       matchType_ := contains;
       types := [TypeBoolean; TypeString] |};
    {| patterns := ["enabled"];
       matchType_ := exact_or_suffix;
       types := [TypeBoolean; TypeString] |};
    {| patterns :=
         ["tolerations"; "topologyspreadconstraints"; "volumes";
          "initcontainers"; "extracontainers"; "volumemounts";
          "imagepullsecrets"; "hostalias"; "sidecars"; "extravolumes";
          "extrainitcontainers"; "envfrom"; "args"; "command"; "ports";
          "env"; "environment"; "secrets"; "configmaps"; "pods";
          "endpoints"; "tls.hosts"; "ingress.hosts"; "hostAliases";
          "deploymentannotations"; "podsecuritycontext"; "permissions"];
       matchType_ := contains;
       types := [TypeNull; TypeArray; TypeString] |};
    {| patterns :=
         ["secretname"; "storageclass"; "servicenodeport";
          "priorityclassname"; "certname"; "keyname"; "cabundle";
          "ingressclassname"; "authsecret"; "namespace"; "finalizer";
          "servicename"; "clusterrole"; "role"; "healthcheckpath";
          "mountpath"; "filename"; "secretkey"; "timezone";
          "bootstrapservers"; "topic"];
       matchType_ := contains;
       types := [TypeNull; TypeString] |};
    {| patterns :=
         ["maxunavailable"; "nodeport"; "replicacount"; "replicas"; "port";
          "targetport"; "containerport"; "serviceport"; "metricsport";
          "healthport"; "readinessport"; "maxreplicas"; "minreplicas";
          "terminationgraceperiodseconds"; "backofflimit";
          "failurethreshold"; "successthreshold"; "initialdelayseconds";
          "timeoutseconds"; "periodseconds"; "minavailable"; "retention";
          "timeout"; "limit"; "weight"];
       matchType_ := contains;
       types := [TypeNull; TypeInteger] |};
    {| patterns :=
         ["config"; "extraenv"; "extraenvironmentvars"; "extravolumeconfig";
          "configuration"; "settings"; "options"; "parameters";
          "properties"; "authentication"; "authorization"; "security";
          "networking"; "customvalues"; "extraconfigs"];
       matchType_ := contains;
       types := [TypeString; TypeObject] |};
    {| patterns :=
         ["resources.limits.memory"; "resources.requests.memory"; "memory";
          "resources.limits.cpu"; "resources.requests.cpu"; "cpu";
          "resources.limits"; "resources.requests"; "threshold";
          "percentage"; "ratio"; "factor"; "scalar"; "weight"; "scale";
          "bytes"; "size"; "quota"; "maxsurge"; "minavailable"; "retention"];
       matchType_ := contains;
       types := [TypeString; TypeInteger; TypeNumber] |};
    {| patterns :=
         ["preference"; "mode"; "state"; "status"; "level"; "type";
          "policy"; "protocol"];
       matchType_ := contains;
       types := [TypeString; TypeInteger; TypeBoolean] |};
    {| patterns :=
         ["json"; "raw"; "patch"; "template"; "customdata"; "extradata";
          "override"; "manifest"];
       matchType_ := contains;
       types := [TypeString; TypeObject; TypeArray] |};
    {| patterns :=
         ["containerport"; "servicetype"; "ingresstype"; "secrettype";
          "podannotations"; "accessmodes"; "pathtype"; "readinessprobe";
          "livenessprobe"; "startupprobe"; "volumesource"; "volumetype";
          "service.containerport"];
       matchType_ := contains;
       types := [TypeString; TypeObject; TypeArray] |} ].

Definition isMatch (mt : matchType) (pathLower pattern : string) : bool :=
  match mt with
  | contains => Strings.Contains pathLower pattern
  | suffix => Strings.HasSuffix pathLower pattern
  | exact => String.eqb pathLower pattern
  | exact_or_suffix =>
      String.eqb pathLower pattern
      || Strings.HasSuffix pathLower ("." +:+ pattern)
  end.

(** The two nested [for] loops of [shouldSupportMultipleTypes]: the first
    pattern that matches, in table order, returns its mapping's types. *)
Fixpoint lookupMappings (ms : list patternMapping) (pathLower : string)
  : option (list SchemaType) :=
  match ms with
  | [] => None
  | mapping :: rest =>
      if existsb (isMatch (matchType_ mapping) pathLower) (patterns mapping)
      then Some (types mapping)
      else lookupMappings rest pathLower
  end.

(** [Some types] is [(true, types)], [None] is [(false, nil)]. *)
Definition shouldSupportMultipleTypes (path : string)
  : option (list SchemaType) :=
  lookupMappings patternMappings (Strings.ToLower path).

(** ** Type detection ([type_detection.go], [schema_generator.go]) *)

Definition isDate (s : string) : bool :=
  (String.length s =? 10)%nat
  && Strings.byteAt s 4 "-" && Strings.byteAt s 7 "-".

Definition isDateTime (s : string) : bool :=
  (19 <=? String.length s)%nat
  && Strings.byteAt s 4 "-" && Strings.byteAt s 7 "-"
  && Strings.byteAt s 10 "T".

Definition isEmail (s : string) : bool :=
  Strings.Contains s "@" && Strings.Contains s ".".

Definition isURI (s : string) : bool :=
  Strings.HasPrefix s "http://" || Strings.HasPrefix s "https://".

(** The scanner loop of [isLikelyYAMLOrJSON]. *)
Fixpoint hasKeyValueLine (lines : list string) : bool :=
  match lines with
  | [] => false
  | text :: rest =>
      let line := Strings.TrimSpace text in
      if String.eqb line "" || Strings.HasPrefix line "#"
      then hasKeyValueLine rest
      else if Strings.Contains line ":" then true
      else hasKeyValueLine rest
  end.

Definition isLikelyYAMLOrJSON (s : string) : bool :=
  let s := Strings.TrimSpace s in
  if (Strings.HasPrefix s "{" && Strings.HasSuffix s "}")
     || (Strings.HasPrefix s "[" && Strings.HasSuffix s "]")
  then true
  else hasKeyValueLine (Strings.ScanLines s).

(** The key [hasMixedTypes] records for an element: ["null"], ["integer"],
    ["float"], or the name of the reflect kind. *)
Definition foundTypesKey (item : Value) : string :=
  match item with
  | VNil => "null"
  | VInt _ | VUint _ => "integer"
  | VFloat _ => "float"
  | VBool _ => "bool"
  | VString _ => "string"
  | VSlice _ => "slice"
  | VMap _ | VRawMap _ => "map"
  end.

(** The loop of [hasMixedTypes]; a nil element [continue]s past the early
    return. *)
Fixpoint hasMixedTypes_loop (foundTypes : gset string) (items : list Value)
  : bool :=
  match items with
  | [] => bool_decide (1 < size foundTypes)%nat
  | item :: rest =>
      let foundTypes := {[foundTypesKey item]} ∪ foundTypes in
      if isNil item then hasMixedTypes_loop foundTypes rest
      else if bool_decide (1 < size foundTypes)%nat then true
      else hasMixedTypes_loop foundTypes rest
  end.

Definition hasMixedTypes (items : list Value) : bool :=
  if (length items <=? 1)%nat then false
  else hasMixedTypes_loop ∅ items.

(** The key [InferArrayItemsWithMultipleTypes] records for an element. *)
Definition typeMapKey (item : Value) : string :=
  match item with
  | VNil => "null"
  | VBool _ => "boolean"
  | VInt _ | VUint _ | VFloat _ => "number"
  | VString _ => "string"
  | VMap _ | VRawMap _ => "object"
  | VSlice _ => "array"
  end.

Definition typeMapOf (items : list Value) : gset string :=
  fold_left (fun typeMap item => {[typeMapKey item]} ∪ typeMap) items ∅.

(** The [switch typeName] that turns a key into a tag; other keys add
    nothing. *)
Definition typeOfName (typeName : string) : option SchemaType :=
  if String.eqb typeName "null" then Some TypeNull
  else if String.eqb typeName "boolean" then Some TypeBoolean
  else if String.eqb typeName "integer" then Some TypeInteger
  else if String.eqb typeName "number" then Some TypeNumber
  else if String.eqb typeName "string" then Some TypeString
  else if String.eqb typeName "object" then Some TypeObject
  else if String.eqb typeName "array" then Some TypeArray
  else None.

Fixpoint typeArrayOf (names : list string) : list SchemaType :=
  match names with
  | [] => []
  | typeName :: rest =>
      match typeOfName typeName with
      | Some t => t :: typeArrayOf rest
      | None => typeArrayOf rest
      end
  end.

(** The first loop of the [reflect.Map] case: the first key with one of the
    suffixes sets the type and [break]s. *)
Definition keySuggestsUnion (k : string) : bool :=
  let kl := Strings.ToLower k in
  (Strings.HasSuffix kl "annotations" || Strings.HasSuffix kl "labels"
   || Strings.HasSuffix kl "nodeselector" || Strings.HasSuffix kl "affinity"
   || Strings.HasSuffix kl "selector")
  || (Strings.HasSuffix kl "tolerations" || Strings.HasSuffix kl "volumes"
      || Strings.HasSuffix kl "mounts").

Fixpoint typeFromKeys {A : Type} (mapValue : list (string * A)) (ty : TypeField)
  : TypeField :=
  match mapValue with
  | [] => ty
  | (k, _) :: rest =>
      if keySuggestsUnion k then TypeUnion [TypeObject; TypeString]
      else typeFromKeys rest ty
  end.

(** [if hasMultipleTypes, types := shouldSupportMultipleTypes(path);
     hasMultipleTypes { schema.Type = types }] *)
Definition overrideType (path : string) (ty : TypeField) : TypeField :=
  match shouldSupportMultipleTypes path with
  | Some types => TypeUnion types
  | None => ty
  end.

Section Inference.

Variable iter : MapIteration.
Variable g : Generator.

(** [InferArrayItemsWithMultipleTypes], with the call back into
    [inferSchema] taken as an argument: the two Go methods are mutually
    recursive. *)
Definition InferArrayItems_with
    (infer : Value -> string -> outcome Schema)
    (items : list Value) (path : string) : outcome Schema :=
  if hasMixedTypes items then
    let typeMap := typeMapOf items in
    let typeArray := typeArrayOf (rangeKeys iter typeMap) in
    Ok {| Schema_ := ""; Title := ""; Description := "";
          Type_ := TypeUnion typeArray; Format := ""; Properties := None;
          Required := []; Items := None; MinItems := None;
          MaxItems := None; Enum := []; Default := VNil; Examples := None;
          HelmPath := path |}
  else
    match items with
    | firstItem :: _ => infer firstItem (path +:+ "[0]")
    | [] => Ok (withType
                  {| Schema_ := ""; Title := ""; Description := "";
                     Type_ := TypeUnset; Format := ""; Properties := None;
                     Required := []; Items := None; MinItems := None;
                     MaxItems := None; Enum := []; Default := VNil;
                     Examples := None; HelmPath := path |}
                  (TypeOne TypeArray))
    end.

Definition leaf (path : string) (ty : TypeField) (format : string)
    (default : Value) (examples : option (list Value)) : Schema :=
  {| Schema_ := ""; Title := ""; Description := ""; Type_ := ty;
     Format := format; Properties := None; Required := []; Items := None;
     MinItems := None; MaxItems := None; Enum := []; Default := default;
     Examples := examples; HelmPath := path |}.

Definition stringFormat (strValue : string) : string :=
  if isDate strValue then "date"
  else if isDateTime strValue then "date-time"
  else if isEmail strValue then "email"
  else if isURI strValue then "uri"
  else "".

Fixpoint inferSchema (value : Value) (path : string) {struct value}
  : outcome Schema :=
  let includeExamples := IncludeExamples (Options g) in
  match value with
  | VNil =>
      Ok (leaf path (overrideType path (TypeOne TypeNull)) "" VNil None)
  | VBool _ =>
      Ok (leaf path (overrideType path (TypeOne TypeBoolean)) ""
            (if includeExamples then value else VNil) None)
  | VInt _ =>
      Ok (leaf path (overrideType path (TypeOne TypeInteger)) "" VNil
            (if includeExamples then Some [value] else None))
  | VFloat _ =>
      Ok (leaf path (overrideType path (TypeOne TypeNumber)) "" VNil
            (if includeExamples then Some [value] else None))
  | VString strValue =>
      let '(ty, format) :=
        match shouldSupportMultipleTypes path with
        | Some types => (TypeUnion types, "")
        | None =>
            if isLikelyYAMLOrJSON strValue
            then (TypeUnion [TypeString; TypeObject], "")
            else (TypeOne TypeString, stringFormat strValue)
        end in
      let ty :=
        if (String.eqb path "enabled" || Strings.HasSuffix path ".enabled")
           && String.eqb strValue "-"
        then TypeUnion [TypeString; TypeBoolean] else ty in
      Ok (leaf path ty format VNil
            (if includeExamples then Some [VString strValue] else None))
  | VSlice sliceValue =>
      match sliceValue with
      | [] =>
          Ok (leaf path (overrideType path (TypeOne TypeArray)) "" VNil None)
      | firstItem :: _ =>
          let items :=
            if hasMixedTypes sliceValue then
              match InferArrayItems_with inferSchema sliceValue path with
              | Ok mixedSchema => Ok (withType zeroSchema (Type_ mixedSchema))
              | Err e =>
                  Err (ErrWrap "failed to infer schema for mixed type array" e)
              | Panic => Panic
              end
            else
              match inferSchema firstItem (path +:+ "[0]") with
              | Ok itemSchema => Ok itemSchema
              | Err e =>
                  Err (ErrWrap "failed to infer schema for array item" e)
              | Panic => Panic
              end in
          match items with
          | Ok itemSchema =>
              Ok (withChildren
                    (leaf path (overrideType path (TypeOne TypeArray)) ""
                       VNil None)
                    None (Some itemSchema))
          | Err e => Err e
          | Panic => Panic
          end
      end
  | VMap mapValue =>
      let ty := typeFromKeys mapValue (TypeOne TypeObject) in
      let loop :=
        (fix loop (entries : list (string * Value))
             (properties : list (string * Schema)) (required : list string)
           : outcome (list (string * Schema) * list string) :=
           match entries with
           | [] => Ok (properties, required)
           | (k, v) :: rest =>
               match inferSchema v (path +:+ "." +:+ k) with
               | Ok propSchema =>
                   loop rest (mapSet properties k propSchema)
                     (if RequireByDefault (Options g) && negb (isNil v)
                      then required ++ [k] else required)
               | Err e =>
                   Err (ErrWrap
                          ("failed to infer schema for property '" +:+ k
                           +:+ "'") e)
               | Panic => Panic
               end
           end) in
      match loop mapValue [] [] with
      | Ok (properties, required) =>
          Ok {| Schema_ := ""; Title := ""; Description := "";
                Type_ := overrideType path ty; Format := "";
                Properties := Some properties; Required := required;
                Items := None; MinItems := None; MaxItems := None;
                Enum := []; Default := VNil; Examples := None;
                HelmPath := path |}
      | Err e => Err e
      | Panic => Panic
      end
  | VRawMap _ => Panic        (* value.(map[string]any) fails *)
  | VUint _ => Ok (leaf path TypeUnset "" VNil None)   (* default: *)
  end.

Definition InferArrayItemsWithMultipleTypes
    (items : list Value) (path : string) : outcome Schema :=
  InferArrayItems_with inferSchema items path.

Fixpoint GenerateFromMap_loop (data : list (string * Value))
    (properties : list (string * Schema)) (required : list string)
  : outcome (list (string * Schema) * list string) :=
  match data with
  | [] => Ok (properties, required)
  | (key, value) :: rest =>
      match inferSchema value key with
      | Ok propSchema =>
          GenerateFromMap_loop rest (mapSet properties key propSchema)
            (if RequireByDefault (Options g) && negb (isNil value)
             then required ++ [key] else required)
      | Err e =>
          Err (ErrWrap
                 ("failed to infer schema for property '" +:+ key +:+ "'") e)
      | Panic => Panic
      end
  end.

Definition GenerateFromMap (data : list (string * Value)) : outcome Schema :=
  match GenerateFromMap_loop data [] [] with
  | Ok (properties, required) =>
      Ok {| Schema_ := SchemaVersion (Options g);
            Title := OptTitle (Options g);
            Description := OptDescription (Options g);
            Type_ := TypeOne TypeObject; Format := "";
            Properties := Some properties; Required := required;
            Items := None; MinItems := None; MaxItems := None; Enum := [];
            Default := VNil; Examples := None; HelmPath := "" |}
  | Err e => Err e
  | Panic => Panic
  end.

End Inference.

(** [convertYAMLToStringMap]; a slice is converted in place and returned. *)
Fixpoint convertYAMLToStringMap (i : Value) : outcome Value :=
  match i with
  | VRawMap x =>
      (fix loop (entries : list (Value * Value)) (m : list (string * Value))
         : outcome Value :=
         match entries with
         | [] => Ok (VMap m)
         | (k, v) :: rest =>
             match k with
             | VString str =>
                 match convertYAMLToStringMap v with
                 | Ok converted => loop rest (mapSet m str converted)
                 | Err e => Err e
                 | Panic => Panic
                 end
             | _ => Err (ErrNonStringKey k)
             end
         end) x []
  | VSlice x =>
      let loop :=
        (fix loop (xs : list Value) : outcome (list Value) :=
           match xs with
           | [] => Ok []
           | v :: rest =>
               match convertYAMLToStringMap v with
               | Ok converted =>
                   match loop rest with
                   | Ok rest' => Ok (converted :: rest')
                   | Err e => Err e
                   | Panic => Panic
                   end
               | Err e => Err e
               | Panic => Panic
               end
           end) in
      match loop x with
      | Ok x' => Ok (VSlice x')
      | Err e => Err e
      | Panic => Panic
      end
  | _ => Ok i
  end.

(** ** Heterogeneous sequences *)

Module MixedTypes.

(** The classes [hasMixedTypes] tells apart. *)
Inductive ItemClass :=
  CNull | CBool | CInteger | CFloat | CString | CSlice | CMap.

Definition classOf (item : Value) : ItemClass :=
  match item with
  | VNil => CNull
  | VBool _ => CBool
  | VInt _ | VUint _ => CInteger
  | VFloat _ => CFloat
  | VString _ => CString
  | VSlice _ => CSlice
  | VMap _ | VRawMap _ => CMap
  end.

Definition className (c : ItemClass) : string :=
  match c with
  | CNull => "null"
  | CBool => "bool"
  | CInteger => "integer"
  | CFloat => "float"
  | CString => "string"
  | CSlice => "slice"
  | CMap => "map"
  end.

(** The classes as the specification words them: integers and floats are
    one class, number. *)
Inductive SpecClass :=
  SNull | SBoolean | SNumber | SString | SObject | SArray.

Definition specClassOf (item : Value) : SpecClass :=
  match item with
  | VNil => SNull
  | VBool _ => SBoolean
  | VInt _ | VUint _ | VFloat _ => SNumber
  | VString _ => SString
  | VMap _ | VRawMap _ => SObject
  | VSlice _ => SArray
  end.

Definition SpecClass_eqb (a b : SpecClass) : bool :=
  match a, b with
  | SNull, SNull | SBoolean, SBoolean | SNumber, SNumber
  | SString, SString | SObject, SObject | SArray, SArray => true
  | _, _ => false
  end.

(** Heterogeneity as the specification words it: more than one of the six
    classes appears among the elements. *)
Definition specHeterogeneous (items : list Value) : bool :=
  existsb (fun x =>
    existsb (fun y => negb (SpecClass_eqb (specClassOf x) (specClassOf y)))
      items) items.

End MixedTypes.

(** ** Comment extraction ([extract_comments.go]) *)

Record CommentExtractor := {
  comments : gmap string string;
  ExtractorDebug : bool
}.

Definition NewCommentExtractor : CommentExtractor :=
  {| comments := ∅; ExtractorDebug := false |}.

(** The local variables of [ExtractFromYAML] and the extractor's map, as
    they stand between two lines. *)
Record scanState := {
  indentToPath : gmap Z (list string);
  pendingComments : string;
  topLevelComment : string;
  lineIndents : list Z;
  foundFirstKey : bool;
  found : gmap string string     (* e.comments *)
}.

Definition newline : string := String Strings.LF "".

(** [if acc == "" { acc = comment } else { acc += "\n" + comment }] *)
Definition accumulate (acc comment : string) : string :=
  if String.eqb acc "" then comment else acc +:+ newline +:+ comment.

(** [for i := len(lineIndents) - 1; i >= 0; i-- { if lineIndents[i] < indent
     { parentLevel = lineIndents[i]; break } }], over the reversed slice. *)
Fixpoint findParentLevel (reversed : list Z) (indent : Z) : Z :=
  match reversed with
  | [] => -1
  | lvl :: rest => if lvl <? indent then lvl else findParentLevel rest indent
  end.

(** [for i, lvl := range lineIndents { if lvl == indent { ... lineIndents =
     lineIndents[:i+1]; break } }]: the truncated slice when the level is
    found. *)
Fixpoint truncateAt (lineIndents : list Z) (indent : Z) : option (list Z) :=
  match lineIndents with
  | [] => None
  | lvl :: rest =>
      if lvl =? indent then Some [lvl]
      else match truncateAt rest indent with
           | Some kept => Some (lvl :: kept)
           | None => None
           end
  end.

Definition commentText (line : string) : string :=
  let comment :=
    Strings.TrimSpace (Strings.TrimPrefix (Strings.TrimSpace line) "#") in
  let comment := Strings.TrimPrefix comment "-- " in
  Strings.TrimPrefix comment "--".

Definition lineIndent (line : string) : Z :=
  Z.of_nat (String.length line)
  - Z.of_nat (String.length (Strings.TrimLeftSpaces line)).

Definition lineKey (line : string) : string :=
  Strings.TrimSpace (fst (Strings.SplitN2 (Strings.TrimSpace line) ":")).

Definition isCommentLine (line : string) : bool :=
  Strings.HasPrefix (Strings.TrimSpace line) "#".

Definition isBlankLine (line : string) : bool :=
  String.eqb (Strings.TrimSpace line) "".

Definition isKeyLine (line : string) : bool :=
  negb (isBlankLine line) && negb (isCommentLine line)
  && Strings.Contains line ":".

(** The path the key of [line] gets in state [st]. *)
Definition keyPath (st : scanState) (line : string) : list string :=
  let indent := lineIndent line in
  let parentLevel := findParentLevel (rev (lineIndents st)) indent in
  let base :=
    if 0 <=? parentLevel
    then default [] (indentToPath st !! parentLevel) else [] in
  base ++ [lineKey line].

(** One iteration of the [for scanner.Scan()] loop. *)
Definition scanLine (st : scanState) (line : string) : scanState :=
  if isBlankLine line then st
  else if isCommentLine line then
    let comment := commentText line in
    {| indentToPath := indentToPath st;
       pendingComments := accumulate (pendingComments st) comment;
       topLevelComment :=
         if foundFirstKey st then topLevelComment st
         else accumulate (topLevelComment st) comment;
       lineIndents := lineIndents st;
       foundFirstKey := foundFirstKey st;
       found := found st |}
  else if Strings.Contains line ":" then
    let indent := lineIndent line in
    let currentPath := keyPath st line in
    let lineIndents' :=
      match truncateAt (lineIndents st) indent with
      | Some kept => kept
      | None => lineIndents st ++ [indent]
      end in
    let pathStr := Strings.Join currentPath "." in
    let pending := pendingComments st in
    {| indentToPath := <[indent := currentPath]> (indentToPath st);
       pendingComments := "";
       topLevelComment := topLevelComment st;
       lineIndents := lineIndents';
       foundFirstKey := true;
       found :=
         if negb (String.eqb pending "")
         then <[pathStr := pending]> (found st) else found st |}
  else st.

Definition initialScan (e : CommentExtractor) : scanState :=
  {| indentToPath := ∅; pendingComments := ""; topLevelComment := "";
     lineIndents := []; foundFirstKey := false; found := comments e |}.

(** What follows the loop: the top-level comment is stored under [""]. *)
Definition finishScan (e : CommentExtractor) (st : scanState)
  : CommentExtractor :=
  {| comments :=
       if negb (String.eqb (topLevelComment st) "")
       then <[EmptyString := topLevelComment st]> (found st) else found st;
     ExtractorDebug := ExtractorDebug e |}.

Definition ExtractFromYAML (e : CommentExtractor) (yamlData : string)
  : CommentExtractor :=
  finishScan e (fold_left scanLine (Strings.ScanLines yamlData) (initialScan e)).

(** [e.comments[path]], the empty string when absent. *)
Definition GetComment (e : CommentExtractor) (path : string) : string :=
  default "" (comments e !! path).

Fixpoint ApplyCommentsToSchema (e : CommentExtractor) (schema : Schema)
  : Schema :=
  match schema with
  | mkSchema sv title description ty format properties required items
      minItems maxItems enum default examples helmPath =>
      let description' :=
        match comments e !! helmPath with
        | Some comment =>
            if String.eqb description "" then comment else description
        | None => description
        end in
      let properties' :=
        match properties with
        | Some props =>
            Some (map (fun kv => (fst kv, ApplyCommentsToSchema e (snd kv)))
                    props)
        | None => None
        end in
      let items' :=
        match items with
        | Some itemSchema => Some (ApplyCommentsToSchema e itemSchema)
        | None => None
        end in
      mkSchema sv title description' ty format properties' required items'
        minItems maxItems enum default examples helmPath
  end.

(** ** [GenerateFromYAML] ([schema_generator.go]) *)

Section Generate.

Variable iter : MapIteration.
(** [yaml.Unmarshal(yamlData, &data)], the external decoder. *)
Variable Unmarshal : string -> outcome Value.
Variable g : Generator.

Definition describe (yamlData : string) (schema : Schema) : Schema :=
  if ExtractDescriptions (Options g) then
    let commentExtractor :=
      {| comments := comments NewCommentExtractor;
         ExtractorDebug := Debug (Options g) |} in
    let commentExtractor := ExtractFromYAML commentExtractor yamlData in
    let topComment := GetComment commentExtractor "" in
    let schema :=
      if negb (String.eqb topComment "")
         && String.eqb (Description schema) ""
      then withDescription schema topComment else schema in
    ApplyCommentsToSchema commentExtractor schema
  else schema.

Definition GenerateFromYAML (yamlData : string) : outcome Schema :=
  match Unmarshal yamlData with
  | Err e => Err (ErrWrap "failed to unmarshal YAML" e)
  | Panic => Panic
  | Ok data =>
      match convertYAMLToStringMap data with
      | Err e => Err (ErrWrap "failed to convert YAML" e)
      | Panic => Panic
      | Ok mappedData =>
          match mappedData with
          | VMap dataMap =>
              match GenerateFromMap iter g dataMap with
              | Err e => Err (ErrWrap "failed to generate schema" e)
              | Panic => Panic
              | Ok schema => Ok (describe yamlData schema)
              end
          | _ => Err (ErrRootNotMap mappedData)
          end
      end
  end.

End Generate.

(** ** The best-practices linter ([helm_best_practices.go]) *)

Inductive ValidationLevel := Error | Warning | Info.

Record ValidationIssue := {
  Path : string;
  Message : string;
  Level : ValidationLevel
}.

Definition MaxNestingDepth : Z := 5.

(** [%d] *)
Definition formatInt (n : Z) : string := NilZero.string_of_int (Z.to_int n).

Definition isTypeInArray (typeToFind : SchemaType) (types : TypeField) : bool :=
  match types with
  | TypeUnion typesVal => existsb (fun t => SchemaType_eqb t typeToFind) typesVal
  | TypeAnys typesVal =>
      existsb (fun t =>
                 match t with
                 | Some str => String.eqb str (typeName typeToFind)
                 | None => false
                 end) typesVal
  | _ => false
  end.

(** [schema.Type == t]: an interface equals a [SchemaType] constant when it
    holds that very [SchemaType]. *)
Definition typeIs (ty : TypeField) (t : SchemaType) : bool :=
  match ty with
  | TypeOne t' => SchemaType_eqb t' t
  | _ => false
  end.

Definition isNilType (ty : TypeField) : bool :=
  match ty with TypeUnset => true | _ => false end.

(** [schema.Type == TypeArray ||
     (schema.Type != nil && isTypeInArray(TypeArray, schema.Type))] *)
Definition hasArrayType (schema : Schema) : bool :=
  typeIs (Type_ schema) TypeArray
  || (negb (isNilType (Type_ schema))
      && isTypeInArray TypeArray (Type_ schema)).

(** The body of the loop of [checkNamingConventions] for one property name;
    [propName[:1]] panics on the empty name. *)
Definition checkName (path propName : string) (issues : list ValidationIssue)
  : outcome (list ValidationIssue) :=
  match Strings.slice_to_1 propName with
  | None => Panic
  | Some first =>
      let issues :=
        if negb (String.eqb (Strings.ToLowerByte first)
                   (String first EmptyString))
        then issues ++
             [{| Path := path +:+ "." +:+ propName;
                 Message := "Property names should follow camelCase convention";
                 Level := Warning |}]
        else issues in
      let issues :=
        if Strings.Contains propName "-" || Strings.Contains propName "_"
        then issues ++
             [{| Path := path +:+ "." +:+ propName;
                 Message :=
                   "Property names should not contain hyphens or underscores";
                 Level := Error |}]
        else issues in
      Ok issues
  end.

Fixpoint checkNames (path : string) (names : list string)
    (issues : list ValidationIssue) : outcome (list ValidationIssue) :=
  match names with
  | [] => Ok issues
  | propName :: rest =>
      match checkName path propName issues with
      | Ok issues => checkNames path rest issues
      | Err e => Err e
      | Panic => Panic
      end
  end.

Definition checkNamingConventions (schema : Schema) (path : string)
    (issues : list ValidationIssue) : outcome (list ValidationIssue) :=
  match Properties schema with
  | None => Ok issues
  | Some props =>
      if String.eqb path "" then Ok issues
      else checkNames path (map fst props) issues
  end.

Definition checkNestingDepth (depth : Z) (path : string)
    (issues : list ValidationIssue) : list ValidationIssue :=
  if MaxNestingDepth <? depth
  then issues ++
       [{| Path := path;
           Message :=
             "Excessive nesting depth (" +:+ formatInt depth
             +:+ " levels). Consider flattening the structure or using dot notation for paths.";
           Level := Warning |}]
  else issues.

Definition checkArrayStructures (schema : Schema) (path : string)
    (issues : list ValidationIssue) : list ValidationIssue :=
  if hasArrayType schema then
    let issues :=
      match Items schema with
      | None =>
          issues ++
          [{| Path := path;
              Message := "Array should define an items schema for validation";
              Level := Warning |}]
      | Some _ => issues
      end in
    if negb (String.eqb path "")
       && (Strings.Contains path "secret" || Strings.Contains path "config"
           || Strings.Contains path "certificate")
    then
      match MinItems schema, MaxItems schema with
      | None, None =>
          issues ++
          [{| Path := path;
              Message :=
                "Consider adding minItems/maxItems constraints for this array";
              Level := Info |}]
      | _, _ => issues
      end
    else issues
  else issues.

Definition checkDocumentation (schema : Schema) (path : string)
    (issues : list ValidationIssue) : list ValidationIssue :=
  if String.eqb path "" then issues
  else
    let issues :=
      if String.eqb (Description schema) "" then
        issues ++
        [{| Path := path;
            Message := "Property should have a description";
            Level :=
              if Strings.CountByte path "." <=? 1 then Warning else Info |}]
      else issues in
    let isLeaf :=
      match Properties schema with
      | None | Some [] => true
      | Some (_ :: _) => false
      end in
    if isLeaf
       && match Examples schema with None => true | Some _ => false end
       && isNil (Default schema)
       && negb (typeIs (Type_ schema) TypeObject)
       && negb (typeIs (Type_ schema) TypeArray)
    then issues ++
         [{| Path := path;
             Message := "Consider adding examples or default value";
             Level := Info |}]
    else issues.

Fixpoint validateSchema (schema : Schema) (path : string) (depth : Z)
    (issues : list ValidationIssue) {struct schema}
  : outcome (list ValidationIssue) :=
  match checkNamingConventions schema path issues with
  | Ok issues =>
      let issues := checkNestingDepth depth path issues in
      let issues := checkArrayStructures schema path issues in
      let issues := checkDocumentation schema path issues in
      let afterProperties :=
        match Properties schema with
        | Some props =>
            (fix loop (props : list (string * Schema))
                 (issues : list ValidationIssue)
               : outcome (list ValidationIssue) :=
               match props with
               | [] => Ok issues
               | (propName, propSchema) :: rest =>
                   let propPath :=
                     if String.eqb path "" then propName
                     else path +:+ "." +:+ propName in
                   match validateSchema propSchema propPath (depth + 1) issues with
                   | Ok issues => loop rest issues
                   | Err e => Err e
                   | Panic => Panic
                   end
               end) props issues
        | None => Ok issues
        end in
      match afterProperties with
      | Ok issues =>
          if hasArrayType schema then
            match Items schema with
            | Some itemSchema =>
                validateSchema itemSchema (path +:+ "[]") (depth + 1) issues
            | None => Ok issues
            end
          else Ok issues
      | Err e => Err e
      | Panic => Panic
      end
  | Err e => Err e
  | Panic => Panic
  end.

Definition ValidateHelmBestPractices (schema : Schema)
  : outcome (list ValidationIssue) :=
  validateSchema schema "" 0 [].

(** ** The enricher ([json-schema-generator/generate.go]) *)

(** Package [json-schema-generator] declares its own [Schema] in a file that
    is not among the sources at hand; the enricher is embedded over the
    [Schema] of package [schema-generator] above, which has every field it
    reads or writes. *)

Definition hasKey {A : Type} (m : list (string * A)) (key : string) : bool :=
  existsb (fun kv => String.eqb (fst kv) key) m.

Definition isImageConfig (schema : Schema) : bool :=
  match Properties schema with
  | Some props =>
      if typeIs (Type_ schema) TypeObject
      then hasKey props "repository" && hasKey props "tag"
      else false
  | None => false
  end.

Definition isResourcesConfig (schema : Schema) : bool :=
  match Properties schema with
  | Some props =>
      if typeIs (Type_ schema) TypeObject
      then hasKey props "limits" || hasKey props "requests"
      else false
  | None => false
  end.

Definition described (ty : SchemaType) (description : string)
    (enum : list Value) (default : Value) (examples : option (list Value))
    (properties : option (list (string * Schema))) (required : list string)
    (path : string) : Schema :=
  {| Schema_ := ""; Title := ""; Description := description;
     Type_ := TypeOne ty; Format := ""; Properties := properties;
     Required := required; Items := None; MinItems := None; MaxItems := None;
     Enum := enum; Default := default; Examples := examples;
     HelmPath := path |}.

Definition createImageSchema (path : string) : Schema :=
  described TypeObject "Container image configuration" [] VNil None
    (Some
       [ ("repository",
          described TypeString "Container image repository" [] VNil None None
            [] "");
         ("tag",
          described TypeString "Container image tag" [] (VString "latest")
            None None [] "");
         ("pullPolicy",
          described TypeString "Image pull policy"
            [VString "Always"; VString "IfNotPresent"; VString "Never"]
            (VString "IfNotPresent") None None [] "") ])
    ["repository"] path.

Definition createResourcesSchema (path : string) : Schema :=
  let quantity (description : string) (examples : list Value) :=
    described TypeString description [] VNil (Some examples) None [] "" in
  let resourceLimitSchema :=
    described TypeObject "Resource limits" [] VNil None
      (Some
         [ ("cpu", quantity "CPU limit" [VString "100m"; VString "0.1"]);
           ("memory",
            quantity "Memory limit" [VString "128Mi"; VString "1Gi"]) ])
      [] "" in
  let resourceRequestSchema :=
    described TypeObject "Resource requests" [] VNil None
      (Some
         [ ("cpu", quantity "CPU request" [VString "100m"; VString "0.1"]);
           ("memory",
            quantity "Memory request" [VString "128Mi"; VString "1Gi"]) ])
      [] "" in
  described TypeObject "CPU/Memory resource requirements" [] VNil None
    (Some
       [ ("limits", resourceLimitSchema);
         ("requests", resourceRequestSchema) ])
    [] path.

Fixpoint SpecializeSchemaForHelm (schema : Schema) : Schema :=
  if isImageConfig schema then createImageSchema (HelmPath schema)
  else if isResourcesConfig schema then createResourcesSchema (HelmPath schema)
  else
    match schema with
    | mkSchema sv title description ty format properties required items
        minItems maxItems enum default examples helmPath =>
        let properties' :=
          match properties with
          | Some props =>
              if typeIs ty TypeObject
              then Some (map (fun kv =>
                                (fst kv, SpecializeSchemaForHelm (snd kv)))
                           props)
              else properties
          | None => None
          end in
        let items' :=
          match items with
          | Some itemSchema =>
              if typeIs ty TypeArray
              then Some (SpecializeSchemaForHelm itemSchema)
              else items
          | None => None
          end in
        mkSchema sv title description ty format properties' required items'
          minItems maxItems enum default examples helmPath
    end.

(** ** Auxiliary definitions used by the statements *)

(** [DefaultOptions()] and [NewGeneratorWithDefaults()] *)
Definition Draft07 : string := "http://json-schema.org/draft-07/schema#".

Definition DefaultOptions : GeneratorOptions :=
  {| SchemaVersion := Draft07; OptTitle := "Helm Values Schema";
     OptDescription := ""; RequireByDefault := false;
     IncludeExamples := true; ExtractDescriptions := true; Debug := false |}.

Definition NewGeneratorWithDefaults : Generator :=
  {| Options := DefaultOptions |}.

(** The loops nested in [inferSchema], [convertYAMLToStringMap] and
    [validateSchema], named. *)
Section NamedLoops.

Variable iter : MapIteration.
Variable g : Generator.
Variable path : string.
Variable depth : Z.

Fixpoint inferProperties (entries : list (string * Value))
    (properties : list (string * Schema)) (required : list string)
  : outcome (list (string * Schema) * list string) :=
  match entries with
  | [] => Ok (properties, required)
  | (k, v) :: rest =>
      match inferSchema iter g v (path +:+ "." +:+ k) with
      | Ok propSchema =>
          inferProperties rest (mapSet properties k propSchema)
            (if RequireByDefault (Options g) && negb (isNil v)
             then required ++ [k] else required)
      | Err e =>
          Err (ErrWrap
                 ("failed to infer schema for property '" +:+ k +:+ "'") e)
      | Panic => Panic
      end
  end.

Fixpoint convertEntries (entries : list (Value * Value))
    (m : list (string * Value)) : outcome Value :=
  match entries with
  | [] => Ok (VMap m)
  | (k, v) :: rest =>
      match k with
      | VString str =>
          match convertYAMLToStringMap v with
          | Ok converted => convertEntries rest (mapSet m str converted)
          | Err e => Err e
          | Panic => Panic
          end
      | _ => Err (ErrNonStringKey k)
      end
  end.

Fixpoint convertItems (xs : list Value) : outcome (list Value) :=
  match xs with
  | [] => Ok []
  | v :: rest =>
      match convertYAMLToStringMap v with
      | Ok converted =>
          match convertItems rest with
          | Ok rest' => Ok (converted :: rest')
          | Err e => Err e
          | Panic => Panic
          end
      | Err e => Err e
      | Panic => Panic
      end
  end.

Fixpoint validateProperties (props : list (string * Schema))
    (issues : list ValidationIssue) : outcome (list ValidationIssue) :=
  match props with
  | [] => Ok issues
  | (propName, propSchema) :: rest =>
      let propPath :=
        if String.eqb path "" then propName
        else path +:+ "." +:+ propName in
      match validateSchema propSchema propPath (depth + 1) issues with
      | Ok issues => validateProperties rest issues
      | Err e => Err e
      | Panic => Panic
      end
  end.

End NamedLoops.

(** No [map[any]any] is left anywhere in the value: what
    [convertYAMLToStringMap] establishes. *)
Fixpoint stringKeyed (v : Value) : bool :=
  match v with
  | VSlice xs => forallb stringKeyed xs
  | VMap m => forallb (fun kv => stringKeyed (snd kv)) m
  | VRawMap _ => false
  | _ => true
  end.

Definition isUnsigned (v : Value) : bool :=
  match v with VUint _ => true | _ => false end.

(** The special case of [inferSchema] for ["-"] in an [enabled] field. *)
Definition isDashEnabled (v : Value) (path : string) : bool :=
  match v with
  | VString strValue =>
      (String.eqb path "enabled" || Strings.HasSuffix path ".enabled")
      && String.eqb strValue "-"
  | _ => false
  end.

(** The type [inferSchema] settles on before the pattern table is
    consulted. *)
Definition structuralType (v : Value) : TypeField :=
  match v with
  | VNil => TypeOne TypeNull
  | VBool _ => TypeOne TypeBoolean
  | VInt _ => TypeOne TypeInteger
  | VFloat _ => TypeOne TypeNumber
  | VString strValue =>
      if isLikelyYAMLOrJSON strValue
      then TypeUnion [TypeString; TypeObject] else TypeOne TypeString
  | VSlice _ => TypeOne TypeArray
  | VMap m => typeFromKeys m (TypeOne TypeObject)
  | VUint _ | VRawMap _ => TypeUnset
  end.

Definition isString (v : Value) : bool :=
  match v with VString _ => true | _ => false end.

(** A mapping, decoded ([map[any]any]) or converted ([map[string]any]). *)
Definition isMapping (v : Value) : bool :=
  match v with VRawMap _ | VMap _ => true | _ => false end.

(** Some mapping of the decoded tree, reached through mapping values and
    sequence elements, has a key that is not a string. *)
Fixpoint hasNonStringKey (v : Value) : bool :=
  match v with
  | VRawMap m =>
      existsb (fun kv => negb (isString (fst kv)) || hasNonStringKey (snd kv)) m
  | VSlice xs => existsb hasNonStringKey xs
  | _ => false
  end.

(** A tree as yaml.v2 decodes it into an [any]: its mappings are all
    [map[any]any]. *)
Fixpoint yamlDecoded (v : Value) : bool :=
  match v with
  | VMap _ => false
  | VSlice xs => forallb yamlDecoded xs
  | VRawMap m => forallb (fun kv => yamlDecoded (snd kv)) m
  | _ => true
  end.

Definition childPath (path key : string) : string :=
  if String.eqb path "" then key else path +:+ "." +:+ key.


(** A decoder that knows a few documents, to run [GenerateFromYAML] on
    them. *)
Definition decoderOf (documents : list (string * Value)) (yamlData : string)
  : outcome Value :=
  match mapGet documents yamlData with
  | Some data => Ok data
  | None => Err (ErrUnmarshal "yaml: not one of the sample documents")
  end.

(** The text of the comment lines among [lines], joined by line feeds. *)
Definition leadingComment (lines : list string) : string :=
  fold_left
    (fun acc line =>
       if isCommentLine line then accumulate acc (commentText line) else acc)
    lines "".

(** Some key line of [rest], scanned from state [st], has a pending comment
    and gets the path [path]: the entry of [path] is written again. *)
Fixpoint reassigned (path : string) (st : scanState) (rest : list string)
  : bool :=
  match rest with
  | [] => false
  | line :: rest' =>
      (isKeyLine line
       && negb (String.eqb (pendingComments st) "")
       && String.eqb (Strings.Join (keyPath st line) ".") path)
      || reassigned path (scanLine st line) rest'
  end.

(** The sample document of [TestCommentExtraction]. *)
Definition testCommentsYAML : string :=
  Strings.Join
    [ "# Top level comment";
      "# that spans multiple lines";
      "";
      "# -- This is a special helm-style comment";
      "";
      "key1: value1  # This is an inline comment that should be ignored";
      "";
      "# Comment for key2";
      "key2: value2";
      "";
      "# Multi-line comment for key3";
      "# with additional details";
      "key3:";
      "  # Comment for nested1";
      "  nested1: value3";
      "  # Comment for nested2";
      "  nested2: value4";
      "";
      "# Comment for key4 with special -- format";
      "# -- This includes Helm-style comments";
      "key4: value5";
      "";
      "myObject:";
      "  # -- First Helm comment";
      "  # -- Second line of the comment";
      "  property1: value";
      "  ";
      "  # Regular comment line";
      "  # Second line";
      "  property2: value";
      "" ] newline.

(** [schema.Properties[key]], when present. *)
Definition nodeAt (schema : Schema) (key : string) : option Schema :=
  match Properties schema with
  | Some props => mapGet props key
  | None => None
  end.

(** A node as [inferSchema] leaves it at [key]. *)
Definition freshAt (key : string) (schema : Schema) : Prop :=
  HelmPath schema = key /\ Description schema = "".

(** The tags a [Type] field holds, as a set. *)
Definition typeSet (ty : TypeField) : list SchemaType :=
  match ty with
  | TypeUnset => []
  | TypeOne t => [t]
  | TypeUnion ts => ts
  | TypeAnys xs =>
      flat_map (fun x =>
                  match x with
                  | Some str =>
                      match typeOfName str with Some t => [t] | None => [] end
                  | None => []
                  end) xs
  end.

(** The diagnostic of [checkArrayStructures] about element counts. *)
Definition constraintsHint (path : string) : ValidationIssue :=
  {| Path := path;
     Message := "Consider adding minItems/maxItems constraints for this array";
     Level := Info |}.

Definition hasEmptyName (schema : Schema) : bool :=
  match Properties schema with
  | Some props => existsb (fun kv => String.eqb (fst kv) "") props
  | None => false
  end.

(** The walk of [validateSchema] from [schema] at [path] comes to a node
    with a non-empty path and a property whose name is empty. *)
Fixpoint visitsEmptyName (schema : Schema) (path : string) : bool :=
  match schema with
  | mkSchema _ _ _ _ _ properties _ items _ _ _ _ _ _ =>
      (negb (String.eqb path "") && hasEmptyName schema)
      || match properties with
         | Some props =>
             existsb (fun kv =>
                        visitsEmptyName (snd kv) (childPath path (fst kv)))
               props
         | None => false
         end
      || (hasArrayType schema
          && match items with
             | Some itemSchema => visitsEmptyName itemSchema (path +:+ "[]")
             | None => false
             end)
  end.

(** A bare node of one type, as the tests of the linter build them. *)
Definition typed (ty : SchemaType)
    (properties : option (list (string * Schema))) (items : option Schema)
  : Schema :=
  withChildren (withType zeroSchema (TypeOne ty)) properties items.

(** Positions in a schema tree. *)
Inductive step := AtProperty (key : string) | AtItems.

Fixpoint subtree (schema : Schema) (position : list step) : option Schema :=
  match position with
  | [] => Some schema
  | AtProperty key :: rest =>
      match nodeAt schema key with
      | Some child => subtree child rest
      | None => None
      end
  | AtItems :: rest =>
      match Items schema with
      | Some itemSchema => subtree itemSchema rest
      | None => None
      end
  end.

Definition isNamedShape (schema : Schema) : bool :=
  isImageConfig schema || isResourcesConfig schema.

(** The fragment [SpecializeSchemaForHelm] puts in place of a named
    shape. *)
Definition canonicalFragment (schema : Schema) : Schema :=
  if isImageConfig schema then createImageSchema (HelmPath schema)
  else createResourcesSchema (HelmPath schema).

(** The recursion of [SpecializeSchemaForHelm] comes to [position]: every
    node on the way is no named shape and is typed exactly object, where the
    way goes through a property, or exactly array, where it goes through
    the items. *)
Fixpoint reaches (schema : Schema) (position : list step) : bool :=
  match position with
  | [] => true
  | AtProperty key :: rest =>
      negb (isNamedShape schema) && typeIs (Type_ schema) TypeObject
      && match nodeAt schema key with
         | Some child => reaches child rest
         | None => false
         end
  | AtItems :: rest =>
      negb (isNamedShape schema) && typeIs (Type_ schema) TypeArray
      && match Items schema with
         | Some itemSchema => reaches itemSchema rest
         | None => false
         end
  end.

(** An object node as inference leaves it at [path]. *)
Definition objectAt (path : string) (properties : list (string * Schema))
  : Schema :=
  withChildren (leaf path (TypeOne TypeObject) "" VNil None)
    (Some properties) None.

Definition stringAt (path : string) : Schema :=
  leaf path (TypeOne TypeString) "" VNil None.

(** The set of keys [hasMixedTypes] has recorded after all of [items]. *)
Definition keysOf (items : list Value) : gset string :=
  list_to_set (map foundTypesKey items).

(** 2.5 as a float64. *)
Definition f64_2_5 : float64 := 0x4004000000000000.

(** When [convertYAMLToStringMap] fails and when it succeeds. *)
Definition convertsAsExpected (v : Value) : Prop :=
  (hasNonStringKey v = true ->
   exists k, isString k = false
             /\ convertYAMLToStringMap v = Err (ErrNonStringKey k))
  /\ (hasNonStringKey v = false ->
      exists v', convertYAMLToStringMap v = Ok v'
                 /\ isMapping v' = isMapping v
                 /\ (yamlDecoded v = true -> stringKeyed v' = true)).

(** What a run of [validateSchema] comes to. *)
Definition validatesAsExpected (schema : Schema) : Prop :=
  forall path depth issues,
    (visitsEmptyName schema path = true ->
     validateSchema schema path depth issues = Panic)
    /\ (visitsEmptyName schema path = false ->
        exists out,
          validateSchema schema path depth issues = Ok out
          /\ incl issues out).

(** ** Induction over values and schemas *)

Section ValueInduction.

Variable P : Value -> Prop.
Hypothesis HNil : P VNil.
Hypothesis HBool : forall b, P (VBool b).
Hypothesis HInt : forall n, P (VInt n).
Hypothesis HUint : forall n, P (VUint n).
Hypothesis HFloat : forall f, P (VFloat f).
Hypothesis HString : forall s, P (VString s).
Hypothesis HSlice : forall xs, Forall P xs -> P (VSlice xs).
Hypothesis HMap : forall m, Forall (fun kv => P (snd kv)) m -> P (VMap m).
Hypothesis HRawMap :
  forall m, Forall (fun kv => P (fst kv) /\ P (snd kv)) m -> P (VRawMap m).

Fixpoint Value_nested_ind (v : Value) : P v :=
  match v with
  | VNil => HNil
  | VBool b => HBool b
  | VInt n => HInt n
  | VUint n => HUint n
  | VFloat f => HFloat f
  | VString s => HString s
  | VSlice xs =>
      HSlice xs
        ((fix go (l : list Value) : Forall P l :=
            match l with
            | [] => List.Forall_nil P
            | x :: r => @List.Forall_cons _ _ x r (Value_nested_ind x) (go r)
            end) xs)
  | VMap m =>
      HMap m
        ((fix go (l : list (string * Value))
            : Forall (fun kv => P (snd kv)) l :=
            match l with
            | [] => List.Forall_nil _
            | (k, x) :: r =>
                @List.Forall_cons _ _ (k, x) r (Value_nested_ind x : P (snd (k, x))) (go r)
            end) m)
  | VRawMap m =>
      HRawMap m
        ((fix go (l : list (Value * Value))
            : Forall (fun kv => P (fst kv) /\ P (snd kv)) l :=
            match l with
            | [] => List.Forall_nil _
            | (k, x) :: r =>
                @List.Forall_cons _ _ (k, x) r
                  (conj (Value_nested_ind k : P (fst (k, x)))
                        (Value_nested_ind x : P (snd (k, x))))
                  (go r)
            end) m)
  end.

End ValueInduction.

Section SchemaInduction.

Variable P : Schema -> Prop.
Hypothesis Hnode :
  forall sv title description ty format properties required items minItems
         maxItems enum default examples helmPath,
    match properties with
    | Some props => Forall (fun kv => P (snd kv)) props
    | None => True
    end ->
    match items with Some itemSchema => P itemSchema | None => True end ->
    P (mkSchema sv title description ty format properties required items
         minItems maxItems enum default examples helmPath).

Fixpoint Schema_nested_ind (schema : Schema) : P schema :=
  match schema with
  | mkSchema sv title description ty format properties required items
      minItems maxItems enum default examples helmPath =>
      Hnode sv title description ty format properties required items
        minItems maxItems enum default examples helmPath
        (match properties
               return match properties with
                      | Some props => Forall (fun kv => P (snd kv)) props
                      | None => True
                      end
         with
         | Some props =>
             (fix go (l : list (string * Schema))
                : Forall (fun kv => P (snd kv)) l :=
                match l with
                | [] => List.Forall_nil _
                | (k, child) :: rest =>
                    @List.Forall_cons _ _ (k, child) rest
                      (Schema_nested_ind child : P (snd (k, child))) (go rest)
                end) props
         | None => I
         end)
        (match items
               return match items with
                      | Some itemSchema => P itemSchema
                      | None => True
                      end
         with
         | Some itemSchema => Schema_nested_ind itemSchema
         | None => I
         end)
  end.

End SchemaInduction.

(** ** Further definitions for the statements *)

Definition isStringMap (v : Value) : bool :=
  match v with VMap _ => true | _ => false end.

Definition isNonEmptySlice (v : Value) : bool :=
  match v with VSlice (_ :: _) => true | _ => false end.

Definition isSet {A : Type} (o : option A) : bool :=
  match o with Some _ => true | None => false end.

(** [P] holds at every node of the tree: the node, the nodes under its
    properties and the nodes under its items. *)
Fixpoint allNodes (P : Schema -> bool) (schema : Schema) : bool :=
  match schema with
  | mkSchema _ _ _ _ _ properties _ items _ _ _ _ _ _ =>
      P schema
      && match properties with
         | Some props => forallb (fun kv => allNodes P (snd kv)) props
         | None => true
         end
      && match items with
         | Some itemSchema => allNodes P itemSchema
         | None => true
         end
  end.

(** A node without description, and without default and examples unless
    [includeExamples]. *)
Definition bare (includeExamples : bool) (schema : Schema) : bool :=
  String.eqb (Description schema) ""
  && (includeExamples
      || (isNil (Default schema) && negb (isSet (Examples schema)))).

(** The keys of the entries whose value is not nil, in order. *)
Fixpoint nonNilKeys (entries : list (string * Value)) : list string :=
  match entries with
  | [] => []
  | (k, v) :: rest =>
      if isNil v then nonNilKeys rest else k :: nonNilKeys rest
  end.

(** A generator with the given policies, draft-07 and no title. *)
Definition generatorWith
    (requireByDefault includeExamples extractDescriptions : bool) : Generator :=
  {| Options :=
       {| SchemaVersion := Draft07; OptTitle := ""; OptDescription := "";
          RequireByDefault := requireByDefault;
          IncludeExamples := includeExamples;
          ExtractDescriptions := extractDescriptions; Debug := false |} |}.

(** Some pattern of the mapping matches the lowered path. *)
Definition ruleMatches (pathLower : string) (mapping : patternMapping) : bool :=
  existsb (isMatch (matchType_ mapping) pathLower) (patterns mapping).

#[global] Instance SchemaType_eq_dec : EqDecision SchemaType.
Proof. solve_decision. Defined.

(** The tag [InferArrayItemsWithMultipleTypes] records for an element. *)
Definition itemTag (item : Value) : SchemaType :=
  match item with
  | VNil => TypeNull
  | VBool _ => TypeBoolean
  | VInt _ | VUint _ | VFloat _ => TypeNumber
  | VString _ => TypeString
  | VMap _ | VRawMap _ => TypeObject
  | VSlice _ => TypeArray
  end.

(** No byte of the string satisfies [f]. *)
Fixpoint noneOf (f : ascii -> bool) (s : string) : bool :=
  match s with
  | EmptyString => true
  | String c rest => negb (f c) && noneOf f rest
  end.

(** The diagnostics already collected, put before those of a run. *)
Definition prepend (before : list ValidationIssue)
    (run : outcome (list ValidationIssue)) : outcome (list ValidationIssue) :=
  match run with
  | Ok issues => Ok (before ++ issues)
  | Err e => Err e
  | Panic => Panic
  end.

(** The four checks of [validateSchema] on one node, from an empty list. *)
Definition nodeDiagnostics (schema : Schema) (path : string) (depth : Z)
  : outcome (list ValidationIssue) :=
  match checkNamingConventions schema path [] with
  | Ok issues =>
      Ok (checkDocumentation schema path
            (checkArrayStructures schema path
               (checkNestingDepth depth path issues)))
  | Err e => Err e
  | Panic => Panic
  end.

(** The path [validateSchema] gives the node at [position] under a node at
    [path]. *)
Fixpoint lintPath (path : string) (position : list step) : string :=
  match position with
  | [] => path
  | AtProperty key :: rest => lintPath (childPath path key) rest
  | AtItems :: rest => lintPath (path +:+ "[]") rest
  end.

(** The walk of [validateSchema] comes to [position]: it goes through any
    property, and through the items of nodes whose type includes array. *)
Fixpoint lintReaches (schema : Schema) (position : list step) : bool :=
  match position with
  | [] => true
  | AtProperty key :: rest =>
      match nodeAt schema key with
      | Some child => lintReaches child rest
      | None => false
      end
  | AtItems :: rest =>
      hasArrayType schema
      && match Items schema with
         | Some itemSchema => lintReaches itemSchema rest
         | None => false
         end
  end.

(** ** The comment extractor of the first package
    ([pkg/json-schema-generator/yaml_comments.go]) *)

Module Legacy.

Record CommentExtractor := {
  comments : gmap string string
}.

Definition NewCommentExtractor : CommentExtractor := {| comments := ∅ |}.

(** The local variables of [ExtractFromYAML] and the extractor's map, as
    they stand between two lines. *)
Record pathState := {
  currentPath : list string;
  currentIndent : Z;
  lastComment : string;
  collected : gmap string string     (* e.comments *)
}.

(** [if lastComment != "" { lastComment += " " + comment } else
     { lastComment = comment }] *)
Definition joinComment (lastComment comment : string) : string :=
  if negb (String.eqb lastComment "") then lastComment +:+ " " +:+ comment
  else comment.

(** [if indent < currentIndent { levelsToRemove := (currentIndent - indent)
     / 2; if len(currentPath) >= levelsToRemove { currentPath =
     currentPath[:len(currentPath)-levelsToRemove] } }] *)
Definition popLevels (currentPath : list string) (currentIndent indent : Z)
  : list string :=
  if indent <? currentIndent then
    let levelsToRemove := Z.quot (currentIndent - indent) 2 in
    if levelsToRemove <=? Z.of_nat (length currentPath)
    then firstn (length currentPath - Z.to_nat levelsToRemove) currentPath
    else currentPath
  else currentPath.

(** [if indent > currentIndent || indent == 0 { currentPath =
     append(currentPath, key) } else { ... replace the last element ... }] *)
Definition pushKey (currentPath : list string) (currentIndent indent : Z)
    (key : string) : list string :=
  if (currentIndent <? indent) || (indent =? 0) then currentPath ++ [key]
  else
    match currentPath with
    | [] => [key]
    | _ :: _ => removelast currentPath ++ [key]
    end.

(** One iteration of the [for scanner.Scan()] loop. *)
Definition scanOne (st : pathState) (line : string) : pathState :=
  if isBlankLine line then st
  else if isCommentLine line then
    let comment :=
      Strings.TrimSpace (Strings.TrimPrefix (Strings.TrimSpace line) "#") in
    {| currentPath := currentPath st;
       currentIndent := currentIndent st;
       lastComment := joinComment (lastComment st) comment;
       collected := collected st |}
  else if Strings.Contains line ":" then
    let indent := lineIndent line in
    let popped := popLevels (currentPath st) (currentIndent st) indent in
    let key := lineKey line in
    let pushed := pushKey popped (currentIndent st) indent key in
    let path := Strings.Join pushed "." in
    {| currentPath := pushed;
       currentIndent := indent;
       lastComment :=
         if negb (String.eqb (lastComment st) "") then ""
         else lastComment st;
       collected :=
         if negb (String.eqb (lastComment st) "")
         then <[path := lastComment st]> (collected st) else collected st |}
  else st.

Definition startOfScan (e : CommentExtractor) : pathState :=
  {| currentPath := []; currentIndent := 0; lastComment := "";
     collected := comments e |}.

Definition ExtractFromYAML (e : CommentExtractor) (yamlData : string)
  : CommentExtractor :=
  {| comments :=
       collected
         (fold_left scanOne (Strings.ScanLines yamlData) (startOfScan e)) |}.

(** [e.comments[path]], the empty string when absent. *)
Definition GetComment (e : CommentExtractor) (path : string) : string :=
  default "" (comments e !! path).

End Legacy.

(** The keys that are no strings, in the order in which a walk through
    the mappings and the sequences of the tree comes to them: the key of an
    entry before what its value holds, an entry before the next. *)
Fixpoint nonStringKeys (v : Value) : list Value :=
  match v with
  | VRawMap m =>
      flat_map
        (fun kv =>
           (if isString (fst kv) then [] else [fst kv])
           ++ nonStringKeys (snd kv)) m
  | VSlice xs => flat_map nonStringKeys xs
  | _ => []
  end.

(** What [convertYAMLToStringMap] reports: the first key of the walk that
    is no string. *)
Definition reportsFirstKey (v : Value) : Prop :=
  match convertYAMLToStringMap v with
  | Ok _ => nonStringKeys v = []
  | Err e =>
      exists k,
        head (nonStringKeys v) = Some k
        /\ isString k = false
        /\ e = ErrNonStringKey k
  | Panic => False
  end.

(** [texts] without the empty strings it starts with. *)
Fixpoint dropEmpty (texts : list string) : list string :=
  match texts with
  | EmptyString :: rest => dropEmpty rest
  | _ => texts
  end.

(** The comment above a key line, as a reader of the text sees it: the
    texts of the comment lines among [lines], without the empty texts that
    come first, one per line. *)
Definition commentBlock (lines : list string) : string :=
  Strings.Join
    (dropEmpty (map commentText (List.filter isCommentLine lines))) newline.

(** * Properties *)

(** ** The pattern table on some paths *)

Example pattern_enabled :
  shouldSupportMultipleTypes "test.enabled" = Some [TypeBoolean; TypeString].
Proof. reflexivity. Qed.
Example pattern_memory :
  shouldSupportMultipleTypes "test.resources.limits.memory"
  = Some [TypeNull; TypeInteger].
Proof. reflexivity. Qed.
Example pattern_none : shouldSupportMultipleTypes "name" = None.
Proof. reflexivity. Qed.

(** ** The cases of [TestIsLikelyYAMLOrJSON] *)

Example isLikelyYAMLOrJSON_tests :
  let q := String (ascii_of_nat 34) "" in
  isLikelyYAMLOrJSON
    ("{" +:+ q +:+ "key" +:+ q +:+ ": " +:+ q +:+ "value" +:+ q +:+ "}") = true
  /\ isLikelyYAMLOrJSON
       ("[" +:+ q +:+ "item1" +:+ q +:+ ", " +:+ q +:+ "item2" +:+ q +:+ "]")
     = true
  /\ isLikelyYAMLOrJSON "key: value" = true
  /\ isLikelyYAMLOrJSON
       (newline +:+ "key1: value1" +:+ newline +:+ "key2: value2" +:+ newline)
     = true
  /\ isLikelyYAMLOrJSON ("# Comment" +:+ newline +:+ "key: value") = true
  /\ isLikelyYAMLOrJSON "This is just plain text" = false
  /\ isLikelyYAMLOrJSON "" = false
  /\ isLikelyYAMLOrJSON
       ("This is" +:+ newline +:+ "a multi-line" +:+ newline +:+ "text")
     = false.
Proof. repeat split; vm_compute; reflexivity. Qed.

(** A value of an unsigned kind falls in the [default] branch of
    [inferSchema] and gets no type, on a matched path as on any other. *)
Example unsigned_gets_no_type :
  inferSchema sortedIteration NewGeneratorWithDefaults (VUint 18446744073709551615)
    "replicas"
  = Ok (leaf "replicas" TypeUnset "" VNil None).
Proof. reflexivity. Qed.

(** ** Heterogeneous sequences *)

Module MixedTypesFacts.
Import MixedTypes.

Lemma foundTypesKey_class item : foundTypesKey item = className (classOf item).
Proof. destruct item; reflexivity. Qed.

Lemma className_inj a b : className a = className b -> a = b.
Proof. destruct a, b; simpl; intros H; try reflexivity; discriminate H. Qed.

Lemma size_gt1_iff (X : gset string) :
  (1 < size X)%nat <-> exists a b, a ∈ X /\ b ∈ X /\ a <> b.
Proof.
  split.
  - intros Hsz.
    destruct (size_pos_elem_of X) as [a Ha]; [lia|].
    assert (Hd : size (X ∖ {[a]}) = (size X - 1)%nat).
    { rewrite size_difference; [|set_solver]. by rewrite size_singleton. }
    destruct (size_pos_elem_of (X ∖ {[a]})) as [b Hb]; [lia|].
    exists a, b. set_solver.
  - intros (a & b & Ha & Hb & Hab).
    assert (Hsub : ({[a]} ∪ {[b]} : gset string) ⊆ X) by set_solver.
    apply subseteq_size in Hsub.
    rewrite size_union in Hsub; [|set_solver].
    rewrite !size_singleton in Hsub. lia.
Qed.

Lemma loop_spec items : forall foundTypes,
  hasMixedTypes_loop foundTypes items = true
  <-> (1 < size (foundTypes ∪ keysOf items))%nat.
Proof.
  induction items as [|item rest IH]; intros ft; simpl.
  - unfold keysOf; simpl. rewrite (right_id_L ∅ (∪)).
    apply bool_decide_eq_true.
  - assert (E : ({[foundTypesKey item]} ∪ ft) ∪ keysOf rest
                = ft ∪ keysOf (item :: rest)).
    { unfold keysOf; simpl. set_solver. }
    destruct (isNil item).
    + rewrite IH, E. reflexivity.
    + case_bool_decide as Hsz.
      * split; [intros _|reflexivity].
        rewrite <- E.
        assert (Hsub : ({[foundTypesKey item]} ∪ ft)
                       ⊆ ({[foundTypesKey item]} ∪ ft) ∪ keysOf rest)
          by set_solver.
        apply subseteq_size in Hsub. lia.
      * rewrite IH, E. reflexivity.
Qed.

Lemma elem_of_keysOf k items :
  k ∈ keysOf items <-> exists x, In x items /\ foundTypesKey x = k.
Proof.
  unfold keysOf. rewrite elem_of_list_to_set, list_elem_of_In, in_map_iff.
  split; intros (x & H1 & H2); exists x; split; auto.
Qed.

Lemma short_no_pair items :
  (length items <= 1)%nat ->
  ~ exists x y, In x items /\ In y items /\ classOf x <> classOf y.
Proof.
  intros Hlen (x & y & Hx & Hy & Hne).
  destruct items as [|a [|b rest]]; simpl in *; [destruct Hx| |lia].
  destruct Hx as [->|[]], Hy as [->|[]]. by apply Hne.
Qed.

Lemma hasMixedTypes_keys items :
  hasMixedTypes items = true <-> (1 < size (keysOf items))%nat.
Proof.
  unfold hasMixedTypes.
  destruct (length items <=? 1)%nat eqn:Hlen.
  - apply Nat.leb_le in Hlen. split; [discriminate|].
    intros Hsz. exfalso. apply (short_no_pair items Hlen).
    apply size_gt1_iff in Hsz as (a & b & Ha & Hb & Hab).
    apply elem_of_keysOf in Ha as (x & Hx & <-).
    apply elem_of_keysOf in Hb as (y & Hy & <-).
    exists x, y. repeat split; auto. intros E. apply Hab.
    by rewrite !foundTypesKey_class, E.
  - rewrite loop_spec, (left_id_L ∅ (∪)). reflexivity.
Qed.

End MixedTypesFacts.

(** C5, as amended: [hasMixedTypes] tells seven classes apart (null, bool,
    integer, float, string, slice, map: integers and floats are two
    classes), every element belongs to exactly one of them, and a sequence is
    reported heterogeneous exactly when two of its elements belong to
    different classes. *)
Theorem hasMixedTypes_iff_two_classes (items : list Value) :
  hasMixedTypes items = true
  <-> exists x y, In x items /\ In y items
                  /\ MixedTypes.classOf x <> MixedTypes.classOf y.
Proof.
  rewrite MixedTypesFacts.hasMixedTypes_keys, MixedTypesFacts.size_gt1_iff.
  split.
  - intros (a & b & Ha & Hb & Hab).
    apply MixedTypesFacts.elem_of_keysOf in Ha as (x & Hx & <-).
    apply MixedTypesFacts.elem_of_keysOf in Hb as (y & Hy & <-).
    exists x, y. repeat split; auto. intros E. apply Hab.
    by rewrite !MixedTypesFacts.foundTypesKey_class, E.
  - intros (x & y & Hx & Hy & Hne).
    exists (foundTypesKey x), (foundTypesKey y). repeat split.
    + apply MixedTypesFacts.elem_of_keysOf. eauto.
    + apply MixedTypesFacts.elem_of_keysOf. eauto.
    + rewrite !MixedTypesFacts.foundTypesKey_class. intros E.
      apply Hne. by apply MixedTypesFacts.className_inj.
Qed.

(** C5 as worded fails: with integers and floats in one class "number",
    [1, 2.5] shows a single class, yet [hasMixedTypes] reports it
    heterogeneous. *)
Lemma hasMixedTypes_not_six_classes :
  hasMixedTypes [VInt 1; VFloat f64_2_5] = true
  /\ MixedTypes.specHeterogeneous [VInt 1; VFloat f64_2_5] = false.
Proof. split; vm_compute; reflexivity. Qed.

Lemma rangeKeys_singleton (iter : MapIteration) (k : string) :
  rangeKeys iter {[k]} = [k].
Proof.
  pose proof (rangeKeys_perm iter {[k]}) as Hperm.
  rewrite elements_singleton in Hperm.
  by apply Permutation_singleton_r in Hperm.
Qed.

(** C6: [hasMixedTypes] on the empty list, on every one-element list and on
    the four sample lists; integer and float are different classes for
    [hasMixedTypes], and both are recorded as "number" when
    [InferArrayItemsWithMultipleTypes] builds the union, so [1, 2.5] yields
    the one-tag list [number] whatever the iteration order of the map. *)
Theorem hasMixedTypes_examples :
  hasMixedTypes [] = false
  /\ (forall x, hasMixedTypes [x] = false)
  /\ hasMixedTypes [VInt 1; VString "a"] = true
  /\ hasMixedTypes [VInt 1; VInt 2; VInt 3] = false
  /\ hasMixedTypes [VInt 1; VFloat f64_2_5] = true
  /\ foundTypesKey (VInt 1) <> foundTypesKey (VFloat f64_2_5)
  /\ typeMapKey (VInt 1) = "number"
  /\ typeMapKey (VFloat f64_2_5) = "number"
  /\ (forall iter g path,
        exists schema,
          InferArrayItemsWithMultipleTypes iter g [VInt 1; VFloat f64_2_5] path
          = Ok schema
          /\ Type_ schema = TypeUnion [TypeNumber]).
Proof.
  repeat split; try (vm_compute; reflexivity); try discriminate.
  intros iter g path.
  unfold InferArrayItemsWithMultipleTypes, InferArrayItems_with.
  assert (Hmixed : hasMixedTypes [VInt 1; VFloat f64_2_5] = true)
    by (vm_compute; reflexivity).
  rewrite Hmixed. eexists. split; [reflexivity|]. simpl Type_.
  assert (Hmap : typeMapOf [VInt 1; VFloat f64_2_5] = {["number"]}).
  { unfold typeMapOf. simpl. set_solver. }
  rewrite Hmap, rangeKeys_singleton. reflexivity.
Qed.

(** ** Unfolding the recursive functions *)

Lemma inferSchema_VMap iter g m path :
  inferSchema iter g (VMap m) path =
  match inferProperties iter g path m [] [] with
  | Ok (properties, required) =>
      Ok {| Schema_ := ""; Title := ""; Description := "";
            Type_ := overrideType path (typeFromKeys m (TypeOne TypeObject));
            Format := ""; Properties := Some properties;
            Required := required; Items := None; MinItems := None;
            MaxItems := None; Enum := []; Default := VNil; Examples := None;
            HelmPath := path |}
  | Err e => Err e
  | Panic => Panic
  end.
Proof. reflexivity. Qed.

Lemma inferSchema_VSlice_cons iter g firstItem rest path :
  inferSchema iter g (VSlice (firstItem :: rest)) path =
  match
    (if hasMixedTypes (firstItem :: rest) then
       match InferArrayItemsWithMultipleTypes iter g (firstItem :: rest) path with
       | Ok mixedSchema => Ok (withType zeroSchema (Type_ mixedSchema))
       | Err e => Err (ErrWrap "failed to infer schema for mixed type array" e)
       | Panic => Panic
       end
     else
       match inferSchema iter g firstItem (path +:+ "[0]") with
       | Ok itemSchema => Ok itemSchema
       | Err e => Err (ErrWrap "failed to infer schema for array item" e)
       | Panic => Panic
       end)
  with
  | Ok itemSchema =>
      Ok (withChildren
            (leaf path (overrideType path (TypeOne TypeArray)) "" VNil None)
            None (Some itemSchema))
  | Err e => Err e
  | Panic => Panic
  end.
Proof. reflexivity. Qed.

Lemma convert_VRawMap x :
  convertYAMLToStringMap (VRawMap x) = convertEntries x [].
Proof. reflexivity. Qed.

Lemma convert_VSlice x :
  convertYAMLToStringMap (VSlice x) =
  match convertItems x with
  | Ok x' => Ok (VSlice x')
  | Err e => Err e
  | Panic => Panic
  end.
Proof. reflexivity. Qed.

Lemma validateSchema_unfold schema path depth issues :
  validateSchema schema path depth issues =
  match checkNamingConventions schema path issues with
  | Ok issues =>
      let issues := checkNestingDepth depth path issues in
      let issues := checkArrayStructures schema path issues in
      let issues := checkDocumentation schema path issues in
      match
        match Properties schema with
        | Some props => validateProperties path depth props issues
        | None => Ok issues
        end
      with
      | Ok issues =>
          if hasArrayType schema then
            match Items schema with
            | Some itemSchema =>
                validateSchema itemSchema (path +:+ "[]") (depth + 1) issues
            | None => Ok issues
            end
          else Ok issues
      | Err e => Err e
      | Panic => Panic
      end
  | Err e => Err e
  | Panic => Panic
  end.
Proof. destruct schema; reflexivity. Qed.

(** White space beyond ASCII: a no-break space (C2 A0) before the hash
    mark or the key, or after the comment, is trimmed like a blank, and an
    ideographic space (E3 80 80) too; a byte A0 on its own is no rune and
    stays.  A property name that starts with a byte from 0x80 on gets the
    camelCase warning. *)
Example white_space_beyond_ascii :
  let nbsp := String (ascii_of_nat 194) (String (ascii_of_nat 160) "") in
  let wide :=
    String (ascii_of_nat 227)
      (String (ascii_of_nat 128) (String (ascii_of_nat 128) "")) in
  let stray := String (ascii_of_nat 160) "" in
  isCommentLine (nbsp +:+ "# note") = true
  /\ isKeyLine (nbsp +:+ "# a: b") = false
  /\ lineKey (nbsp +:+ "sub: 2") = "sub"
  /\ commentText ("# a" +:+ nbsp) = "a"
  /\ isLikelyYAMLOrJSON (nbsp +:+ "{a}") = true
  /\ Strings.TrimSpace (wide +:+ " x " +:+ nbsp +:+ wide) = "x"
  /\ Strings.TrimSpace (stray +:+ " x " +:+ stray) = stray +:+ " x " +:+ stray
  /\ checkName "app" (String (ascii_of_nat 195) "x") []
     = Ok [{| Path := "app." +:+ String (ascii_of_nat 195) "x";
              Message := "Property names should follow camelCase convention";
              Level := Warning |}].
Proof. repeat split; vm_compute; reflexivity. Qed.

(** ** Facts about strings and the pattern table *)

Lemma ToLower_length s : String.length (Strings.ToLower s) = String.length s.
Proof. induction s as [|c s IH]; simpl; congruence. Qed.

Lemma ToLower_skip n : forall s,
  Strings.skip n (Strings.ToLower s) = Strings.ToLower (Strings.skip n s).
Proof.
  induction n as [|n IH]; intros s; destruct s as [|c s]; simpl; auto.
Qed.

Lemma HasSuffix_ToLower s suffix :
  Strings.HasSuffix s suffix = true ->
  Strings.HasSuffix (Strings.ToLower s) (Strings.ToLower suffix) = true.
Proof.
  unfold Strings.HasSuffix. rewrite !ToLower_length, ToLower_skip.
  intros H. apply andb_true_iff in H as [Hlen Heq].
  apply String.eqb_eq in Heq. rewrite Heq, Hlen. simpl.
  apply String.eqb_refl.
Qed.

Lemma lookupMappings_None ms pathLower :
  lookupMappings ms pathLower = None ->
  forall mapping pattern,
    In mapping ms -> In pattern (patterns mapping) ->
    isMatch (matchType_ mapping) pathLower pattern = false.
Proof.
  induction ms as [|m ms IH]; simpl; intros Hnone mapping pattern Hin Hpat.
  - destruct Hin.
  - destruct (existsb _ (patterns m)) eqn:Hex; [discriminate|].
    destruct Hin as [<-|Hin]; [|by eapply IH].
    destruct (isMatch (matchType_ m) pathLower pattern) eqn:Hm; [|reflexivity].
    assert (Htrue : existsb (isMatch (matchType_ m) pathLower) (patterns m)
                    = true) by (apply existsb_exists; eauto).
    congruence.
Qed.

(** A path the table does not match is not an [enabled] path. *)
Lemma unmatched_not_enabled path :
  shouldSupportMultipleTypes path = None ->
  String.eqb path "enabled" || Strings.HasSuffix path ".enabled" = false.
Proof.
  intros Hnone. unfold shouldSupportMultipleTypes in Hnone.
  pose proof (lookupMappings_None _ _ Hnone
                {| patterns := ["enabled"]; matchType_ := exact_or_suffix;
                   types := [TypeBoolean; TypeString] |} "enabled") as Hm.
  simpl in Hm.
  assert (Hfalse : String.eqb (Strings.ToLower path) "enabled"
                   || Strings.HasSuffix (Strings.ToLower path) ".enabled"
                   = false).
  { apply Hm; [|by left]. right; right; left; reflexivity. }
  apply orb_false_iff in Hfalse as [Heq Hsuf].
  apply orb_false_iff. split.
  - destruct (String.eqb path "enabled") eqn:E; [|reflexivity].
    apply String.eqb_eq in E. subst path. discriminate Heq.
  - destruct (Strings.HasSuffix path ".enabled") eqn:E; [|reflexivity].
    apply HasSuffix_ToLower in E.
    change (Strings.ToLower ".enabled") with ".enabled" in E. congruence.
Qed.

(** ** Facts about inference *)

Section InferenceFacts.

Variable iter : MapIteration.
Variable g : Generator.

Local Arguments shouldSupportMultipleTypes : simpl never.
Local Arguments isLikelyYAMLOrJSON : simpl never.
Local Arguments hasMixedTypes : simpl never.
Local Arguments stringFormat : simpl never.
Local Arguments Strings.HasSuffix : simpl never.
Local Arguments String.eqb : simpl never.

Lemma mixed_items_ok items path :
  hasMixedTypes items = true ->
  exists schema,
    InferArrayItemsWithMultipleTypes iter g items path = Ok schema.
Proof.
  intros Hmixed.
  unfold InferArrayItemsWithMultipleTypes, InferArrayItems_with.
  rewrite Hmixed. eauto.
Qed.

(** What [inferSchema] stores in the fields of the node it returns. *)
Lemma inferSchema_fields v path schema :
  inferSchema iter g v path = Ok schema ->
  HelmPath schema = path
  /\ Description schema = ""
  /\ (isUnsigned v = false -> isDashEnabled v path = false ->
      Type_ schema = overrideType path (structuralType v)).
Proof.
  destruct v as [|b|n|n|f|str|xs|m|m]; intros H.
  - simpl in H. injection H as <-. auto.
  - simpl in H. injection H as <-. auto.
  - simpl in H. injection H as <-. auto.
  - simpl in H. injection H as <-. repeat split. discriminate.
  - simpl in H. injection H as <-. auto.
  - simpl in H. unfold overrideType, structuralType.
    destruct (shouldSupportMultipleTypes path) as [types|];
      [|destruct (isLikelyYAMLOrJSON str)];
      injection H as <-; simpl; repeat split; intros _ Hdash;
      rewrite Hdash; reflexivity.
  - destruct xs as [|firstItem rest].
    + simpl in H. injection H as <-. auto.
    + rewrite inferSchema_VSlice_cons in H.
      destruct (if hasMixedTypes (firstItem :: rest) then _ else _)
        as [itemSchema|e|]; [|discriminate..].
      injection H as <-. auto.
  - rewrite inferSchema_VMap in H.
    destruct (inferProperties iter g path m [] []) as [[props req]|e|];
      [|discriminate..].
    injection H as <-. auto.
  - discriminate H.
Qed.

Lemma inferProperties_total path entries :
  Forall (fun kv => stringKeyed (snd kv) = true ->
                    forall p, exists s, inferSchema iter g (snd kv) p = Ok s)
         entries ->
  forallb (fun kv => stringKeyed (snd kv)) entries = true ->
  forall properties required,
    exists result,
      inferProperties iter g path entries properties required = Ok result.
Proof.
  induction 1 as [|[k v] rest Hv _ IH]; simpl; intros Hall props req.
  - eauto.
  - apply andb_true_iff in Hall as [Hk Hrest]. simpl in Hv, Hk.
    destruct (Hv Hk (path +:+ "." +:+ k)) as [s ->]. by apply IH.
Qed.

(** On a value without [map[any]any], [inferSchema] returns a schema. *)
Lemma inferSchema_total v :
  stringKeyed v = true ->
  forall path, exists schema, inferSchema iter g v path = Ok schema.
Proof.
  induction v as [|b|n|n|f|str|xs IH|m IH|m IH] using Value_nested_ind;
    intros Hkeyed path; try (simpl; eauto; fail).
  - simpl. destruct (shouldSupportMultipleTypes path);
      [|destruct (isLikelyYAMLOrJSON str)]; simpl; eauto.
  - destruct xs as [|firstItem rest]; [simpl; eauto|].
    rewrite inferSchema_VSlice_cons.
    destruct (hasMixedTypes (firstItem :: rest)) eqn:Hmixed.
    + destruct (mixed_items_ok (firstItem :: rest) path Hmixed) as [s ->].
      eauto.
    + simpl in Hkeyed. apply andb_true_iff in Hkeyed as [Hfirst _].
      inversion IH as [|? ? Hhead _]; subst.
      destruct (Hhead Hfirst (path +:+ "[0]")) as [s ->]. eauto.
  - rewrite inferSchema_VMap.
    destruct (inferProperties_total path m IH Hkeyed [] []) as [[props req] ->].
    eauto.
  - discriminate Hkeyed.
Qed.



End InferenceFacts.

(** ** The pattern table against structural inference *)

(** The special case for ["-"] in an [enabled] field comes last in the
    string branch and overrides whatever type was chosen before it. *)
Lemma inferSchema_dash iter g strValue path :
  isDashEnabled (VString strValue) path = true ->
  exists schema,
    inferSchema iter g (VString strValue) path = Ok schema
    /\ Type_ schema = TypeUnion [TypeString; TypeBoolean].
Proof.
  unfold isDashEnabled. intros Hdash. simpl.
  destruct (shouldSupportMultipleTypes path) as [types|];
    [|destruct (isLikelyYAMLOrJSON strValue)];
    rewrite Hdash; eexists; split; reflexivity.
Qed.

(** C1, as amended: when the pattern table matches an ASCII path, the node
    [inferSchema] returns for a value of a kind it recognises (nil, bool,
    signed integer, float, string, slice, string-keyed map) carries the
    rule's type list verbatim, whatever the kind; except for the string
    ["-"] at a path that is [enabled] or ends in [.enabled], which gets the
    union string, boolean whatever the rule's list is. *)
Theorem pattern_replaces_type iter g value path types :
  Strings.isASCII path = true ->
  shouldSupportMultipleTypes path = Some types ->
  stringKeyed value = true ->
  isUnsigned value = false ->
  exists schema,
    inferSchema iter g value path = Ok schema
    /\ Type_ schema =
       if isDashEnabled value path
       then TypeUnion [TypeString; TypeBoolean]
       else TypeUnion types.
Proof.
  intros _ Hmatch Hkeyed Hsigned.
  destruct (isDashEnabled value path) eqn:Hdash.
  - destruct value; try discriminate Hdash. by apply inferSchema_dash.
  - destruct (inferSchema_total iter g value Hkeyed path) as [schema Hok].
    exists schema. split; [exact Hok|].
    destruct (inferSchema_fields iter g value path schema Hok) as (_ & _ & Hty).
    rewrite (Hty Hsigned Hdash). unfold overrideType. by rewrite Hmatch.
Qed.

Lemma pattern_replaces_type_witness :
  (exists schema,
      inferSchema sortedIteration NewGeneratorWithDefaults
        (VMap [("app", VString "nginx")]) "pod.annotations" = Ok schema
      /\ Type_ schema = TypeUnion [TypeObject; TypeString])
  /\ (exists schema,
         inferSchema sortedIteration NewGeneratorWithDefaults
           (VString "-") "istio.enabled" = Ok schema
         /\ Type_ schema = TypeUnion [TypeString; TypeBoolean]).
Proof.
  split.
  - apply (pattern_replaces_type sortedIteration NewGeneratorWithDefaults
             (VMap [("app", VString "nginx")]) "pod.annotations"
             [TypeObject; TypeString]); reflexivity.
  - apply (pattern_replaces_type sortedIteration NewGeneratorWithDefaults
             (VString "-") "istio.enabled" [TypeBoolean; TypeString]);
      reflexivity.
Defined.

(** C1 as worded fails: at path [enabled] the table gives
    [boolean, string], and the string ["-"] gets [string, boolean]. *)
Lemma pattern_not_verbatim_for_dash :
  shouldSupportMultipleTypes "enabled" = Some [TypeBoolean; TypeString]
  /\ exists schema,
       inferSchema sortedIteration NewGeneratorWithDefaults (VString "-")
         "enabled" = Ok schema
       /\ Type_ schema = TypeUnion [TypeString; TypeBoolean]
       /\ Type_ schema <> TypeUnion [TypeBoolean; TypeString].
Proof.
  split; [reflexivity|]. eexists. split; [reflexivity|].
  split; [reflexivity|discriminate].
Qed.

(** C2, as amended: at an ASCII path the pattern table does not match, a
    boolean gets the single tag boolean, a signed integer integer, a float
    number, and a string gets the single tag string when
    [isLikelyYAMLOrJSON] rejects its content and the union [string, object]
    when it accepts it. *)
Theorem scalar_type_unmatched iter g path :
  Strings.isASCII path = true ->
  shouldSupportMultipleTypes path = None ->
  (forall b, exists schema,
       inferSchema iter g (VBool b) path = Ok schema
       /\ Type_ schema = TypeOne TypeBoolean)
  /\ (forall n, exists schema,
         inferSchema iter g (VInt n) path = Ok schema
         /\ Type_ schema = TypeOne TypeInteger)
  /\ (forall f, exists schema,
         inferSchema iter g (VFloat f) path = Ok schema
         /\ Type_ schema = TypeOne TypeNumber)
  /\ (forall strValue, exists schema,
         inferSchema iter g (VString strValue) path = Ok schema
         /\ Type_ schema =
            if isLikelyYAMLOrJSON strValue
            then TypeUnion [TypeString; TypeObject]
            else TypeOne TypeString).
Proof.
  intros _ Hnone.
  assert (Hscalar : forall v,
             stringKeyed v = true -> isUnsigned v = false ->
             isDashEnabled v path = false ->
             exists schema, inferSchema iter g v path = Ok schema
                            /\ Type_ schema = structuralType v).
  { intros v Hkeyed Hsigned Hdash.
    destruct (inferSchema_total iter g v Hkeyed path) as [schema Hok].
    exists schema. split; [exact Hok|].
    destruct (inferSchema_fields iter g v path schema Hok) as (_ & _ & Hty).
    rewrite (Hty Hsigned Hdash). unfold overrideType. by rewrite Hnone. }
  repeat split; intros x; apply Hscalar; try reflexivity.
  unfold isDashEnabled. by rewrite (unmatched_not_enabled path Hnone).
Qed.

Lemma scalar_type_unmatched_witness :
  (exists schema,
      inferSchema sortedIteration NewGeneratorWithDefaults (VInt 42)
        "app.name" = Ok schema
      /\ Type_ schema = TypeOne TypeInteger)
  /\ (exists schema,
         inferSchema sortedIteration NewGeneratorWithDefaults
           (VString "nginx") "app.name" = Ok schema
         /\ Type_ schema = TypeOne TypeString).
Proof.
  destruct (scalar_type_unmatched sortedIteration NewGeneratorWithDefaults
              "app.name" eq_refl eq_refl) as (_ & Hint & _ & Hstring).
  split; [apply Hint|apply (Hstring "nginx")].
Defined.

(** C2 as worded fails: the string ["key: value"] at the unmatched path
    [name] gets the union [string, object], not the single tag string. *)
Lemma yaml_like_string_is_union :
  shouldSupportMultipleTypes "name" = None
  /\ exists schema,
       inferSchema sortedIteration NewGeneratorWithDefaults
         (VString "key: value") "name" = Ok schema
       /\ Type_ schema = TypeUnion [TypeString; TypeObject]
       /\ Type_ schema <> TypeOne TypeString.
Proof.
  split; [reflexivity|]. eexists. split; [reflexivity|].
  split; [reflexivity|discriminate].
Qed.

(** ** Facts about [convertYAMLToStringMap] *)

Lemma mapSet_forallb {A : Type} (f : A -> bool) m k v :
  forallb (fun kv => f (snd kv)) m = true -> f v = true ->
  forallb (fun kv => f (snd kv)) (mapSet m k v) = true.
Proof.
  intros Hm Hv. induction m as [|[k' v'] m IH]; simpl in *.
  - by rewrite Hv.
  - apply andb_true_iff in Hm as [H1 H2].
    destruct (String.eqb k' k); simpl; rewrite ?Hv, ?H1, ?H2, ?IH; auto.
Qed.

Lemma convertEntries_spec entries :
  Forall (fun kv => convertsAsExpected (fst kv) /\ convertsAsExpected (snd kv))
         entries ->
  forall m,
    (existsb (fun kv => negb (isString (fst kv)) || hasNonStringKey (snd kv))
       entries = true ->
     exists k, isString k = false
               /\ convertEntries entries m = Err (ErrNonStringKey k))
    /\ (existsb (fun kv => negb (isString (fst kv)) || hasNonStringKey (snd kv))
          entries = false ->
        exists m', convertEntries entries m = Ok (VMap m')
                   /\ (forallb (fun kv => yamlDecoded (snd kv)) entries = true ->
                       forallb (fun kv => stringKeyed (snd kv)) m = true ->
                       forallb (fun kv => stringKeyed (snd kv)) m' = true)).
Proof.
  induction 1 as [|[k x] rest [_ Hx] _ IH]; intros m; simpl.
  - split; [discriminate|]. eauto.
  - simpl in Hx. destruct Hx as [Hbad Hgood].
    destruct (isString k) eqn:Hk; simpl.
    + destruct k; try discriminate Hk.
      destruct (hasNonStringKey x) eqn:Hx; simpl.
      * split; [|discriminate]. intros _.
        destruct (Hbad eq_refl) as (k' & Hk' & ->). eauto.
      * destruct (Hgood eq_refl) as (x' & -> & _ & Hkeyed).
        destruct (IH (mapSet m s x')) as [IHbad IHgood].
        split; [exact IHbad|].
        intros Hrest. destruct (IHgood Hrest) as (m' & -> & Hm').
        exists m'. split; [reflexivity|]. intros Hdec Hacc.
        apply andb_true_iff in Hdec as [Hdx Hdrest].
        apply Hm'; [exact Hdrest|]. apply mapSet_forallb; auto.
    + split; [|discriminate]. intros _. exists k.
      split; [exact Hk|]. destruct k; try reflexivity. discriminate Hk.
Qed.

Lemma convertItems_spec xs :
  Forall convertsAsExpected xs ->
  (existsb hasNonStringKey xs = true ->
   exists k, isString k = false /\ convertItems xs = Err (ErrNonStringKey k))
  /\ (existsb hasNonStringKey xs = false ->
      exists xs', convertItems xs = Ok xs'
                  /\ (forallb yamlDecoded xs = true ->
                      forallb stringKeyed xs' = true)).
Proof.
  induction 1 as [|x rest [Hbad Hgood] _ [IHbad IHgood]]; simpl.
  - split; [discriminate|]. eauto.
  - destruct (hasNonStringKey x) eqn:Hx; simpl.
    + split; [|discriminate]. intros _.
      destruct (Hbad eq_refl) as (k & Hk & ->). eauto.
    + destruct (Hgood eq_refl) as (x' & -> & _ & Hkeyed).
      split.
      * intros Hrest. destruct (IHbad Hrest) as (k & Hk & ->). eauto.
      * intros Hrest. destruct (IHgood Hrest) as (rest' & -> & Hrest').
        eexists. split; [reflexivity|]. intros Hdec.
        apply andb_true_iff in Hdec as [Hdx Hdrest]. simpl.
        by rewrite Hkeyed, Hrest'.
Qed.

Lemma convert_spec v : convertsAsExpected v.
Proof.
  induction v as [|b|n|n|f|str|xs IH|m IH|m IH] using Value_nested_ind;
    try (split; [discriminate|intros _; eexists; repeat split; reflexivity]).
  - destruct (convertItems_spec xs IH) as [Hbad Hgood].
    split; simpl hasNonStringKey; rewrite convert_VSlice.
    + intros Hex. destruct (Hbad Hex) as (k & Hk & ->). eauto.
    + intros Hex. destruct (Hgood Hex) as (xs' & -> & Hkeyed).
      eexists. repeat split. exact Hkeyed.
  - split; [discriminate|]. intros _. eexists. repeat split. discriminate.
  - destruct (convertEntries_spec m IH []) as [Hbad Hgood].
    split; simpl hasNonStringKey; rewrite convert_VRawMap.
    + exact Hbad.
    + intros Hex. destruct (Hgood Hex) as (m' & -> & Hkeyed).
      eexists. repeat split. intros Hdec. simpl. by apply Hkeyed.
Qed.

Lemma head_app_cons {A : Type} (l l' : list A) x :
  head l = Some x -> head (l ++ l') = Some x.
Proof. destruct l; [discriminate|]. auto. Qed.

Lemma convertEntries_reports entries :
  Forall (fun kv => reportsFirstKey (fst kv) /\ reportsFirstKey (snd kv))
         entries ->
  forall m,
    match convertEntries entries m with
    | Ok _ => nonStringKeys (VRawMap entries) = []
    | Err e =>
        exists k,
          head (nonStringKeys (VRawMap entries)) = Some k
          /\ isString k = false
          /\ e = ErrNonStringKey k
    | Panic => False
    end.
Proof.
  induction 1 as [|[k x] rest [_ Hx] _ IH]; intros m; [reflexivity|].
  simpl in Hx. unfold reportsFirstKey in Hx.
  destruct k as [|b|n|n|f|str|xs|sm|rm];
    try (simpl; eexists; repeat split; reflexivity).
  simpl convertEntries.
  destruct (convertYAMLToStringMap x) as [x'|e|].
  - specialize (IH (mapSet m str x')). simpl in IH |- *.
    rewrite Hx. exact IH.
  - destruct Hx as (k & Hhead & Hk & ->). exists k.
    repeat split; [|exact Hk]. simpl. by apply head_app_cons.
  - destruct Hx.
Qed.

Lemma convertItems_reports xs :
  Forall reportsFirstKey xs ->
  match convertItems xs with
  | Ok _ => nonStringKeys (VSlice xs) = []
  | Err e =>
      exists k,
        head (nonStringKeys (VSlice xs)) = Some k
        /\ isString k = false
        /\ e = ErrNonStringKey k
  | Panic => False
  end.
Proof.
  induction 1 as [|x rest Hx _ IH]; [reflexivity|].
  unfold reportsFirstKey in Hx. simpl convertItems.
  destruct (convertYAMLToStringMap x) as [x'|e|].
  - simpl in IH |- *. rewrite Hx.
    by destruct (convertItems rest) as [rest'|e|].
  - destruct Hx as (k & Hhead & Hk & ->). exists k.
    repeat split; [|exact Hk]. simpl. by apply head_app_cons.
  - destruct Hx.
Qed.

(** The error of [convertYAMLToStringMap] holds the first key of the walk
    that is no string. *)
Lemma convert_reports v : reportsFirstKey v.
Proof.
  induction v as [|b|n|n|f|str|xs IH|m IH|m IH] using Value_nested_ind;
    try reflexivity.
  - unfold reportsFirstKey. rewrite convert_VSlice.
    pose proof (convertItems_reports xs IH) as H.
    by destruct (convertItems xs).
  - unfold reportsFirstKey. rewrite convert_VRawMap.
    apply convertEntries_reports, IH.
Qed.

(** ** Structural errors *)




(** ** Comment extraction *)

Example extract_test_document :
  let found := comments (ExtractFromYAML NewCommentExtractor testCommentsYAML) in
  found !! "key3" = Some ("Multi-line comment for key3" +:+ newline
                          +:+ "with additional details")
  /\ found !! "key3.nested2" = Some "Comment for nested2"
  /\ found !! "key4" = Some ("Comment for key4 with special -- format"
                             +:+ newline
                             +:+ "This includes Helm-style comments")
  /\ found !! "myObject.property1" = Some ("First Helm comment" +:+ newline
                                           +:+ "Second line of the comment")
  /\ found !! "myObject.property2" = Some ("Regular comment line" +:+ newline
                                           +:+ "Second line").
Proof. repeat split; vm_compute; reflexivity. Qed.

(** C7: the comment line above [key2: value2] is recorded under [key2], and
    a comment line above [nested1: value3], indented under [key3], is
    recorded under [key3.nested1]; so it is in the repository's own test
    document. *)
Theorem extract_comment_samples :
  comments
    (ExtractFromYAML NewCommentExtractor
       ("# Comment for key2" +:+ newline +:+ "key2: value2"))
    !! "key2" = Some "Comment for key2"
  /\ comments
       (ExtractFromYAML NewCommentExtractor
          ("key3:" +:+ newline +:+ "  # Comment for nested1" +:+ newline
           +:+ "  nested1: value3" +:+ newline))
       !! "key3.nested1" = Some "Comment for nested1"
  /\ comments (ExtractFromYAML NewCommentExtractor testCommentsYAML)
       !! "key2" = Some "Comment for key2"
  /\ comments (ExtractFromYAML NewCommentExtractor testCommentsYAML)
       !! "key3.nested1" = Some "Comment for nested1".
Proof. repeat split; vm_compute; reflexivity. Qed.

(** *** The scan before, at and after the first key line *)

Lemma isKeyLine_false_scan st line :
  isKeyLine line = false ->
  scanLine st line =
  if isCommentLine line then
    {| indentToPath := indentToPath st;
       pendingComments := accumulate (pendingComments st) (commentText line);
       topLevelComment :=
         if foundFirstKey st then topLevelComment st
         else accumulate (topLevelComment st) (commentText line);
       lineIndents := lineIndents st;
       foundFirstKey := foundFirstKey st;
       found := found st |}
  else st.
Proof.
  unfold isKeyLine, scanLine, isCommentLine, isBlankLine. intros H.
  destruct (String.eqb (Strings.TrimSpace line) "") eqn:Hblank.
  - apply String.eqb_eq in Hblank. rewrite Hblank. simpl. by destruct st.
  - destruct (Strings.HasPrefix (Strings.TrimSpace line) "#"); [reflexivity|].
    simpl in H. by rewrite H.
Qed.

Lemma isKeyLine_true_scan st line :
  isKeyLine line = true ->
  scanLine st line =
  {| indentToPath :=
       <[lineIndent line := keyPath st line]> (indentToPath st);
     pendingComments := "";
     topLevelComment := topLevelComment st;
     lineIndents :=
       match truncateAt (lineIndents st) (lineIndent line) with
       | Some kept => kept
       | None => lineIndents st ++ [lineIndent line]
       end;
     foundFirstKey := true;
     found :=
       if negb (String.eqb (pendingComments st) "")
       then <[Strings.Join (keyPath st line) "." := pendingComments st]>
              (found st)
       else found st |}.
Proof.
  unfold isKeyLine, scanLine. intros H.
  destruct (isBlankLine line); [discriminate|].
  destruct (isCommentLine line); [discriminate|].
  simpl in H. by rewrite H.
Qed.

(** Before the first key line the two buffers hold the same text and
    nothing else has moved. *)
Lemma scan_before_first_key e pre :
  forallb (fun line => negb (isKeyLine line)) pre = true ->
  let st := fold_left scanLine pre (initialScan e) in
  pendingComments st = leadingComment pre
  /\ topLevelComment st = leadingComment pre
  /\ lineIndents st = []
  /\ foundFirstKey st = false
  /\ found st = comments e.
Proof.
  unfold leadingComment.
  assert (Hgen : forall st acc,
             forallb (fun line => negb (isKeyLine line)) pre = true ->
             pendingComments st = acc -> topLevelComment st = acc ->
             lineIndents st = [] -> foundFirstKey st = false ->
             let st' := fold_left scanLine pre st in
             pendingComments st'
             = fold_left
                 (fun acc line =>
                    if isCommentLine line
                    then accumulate acc (commentText line) else acc) pre acc
             /\ topLevelComment st' = pendingComments st'
             /\ lineIndents st' = [] /\ foundFirstKey st' = false
             /\ found st' = found st).
  { induction pre as [|line pre IH]; intros st acc Hall Hp Ht Hl Hf; simpl.
    - repeat split; congruence.
    - simpl in Hall. apply andb_true_iff in Hall as [Hline Hall].
      apply negb_true_iff in Hline.
      rewrite (isKeyLine_false_scan st line Hline).
      destruct (isCommentLine line).
      + rewrite Hf.
        specialize (IH
          {| indentToPath := indentToPath st;
             pendingComments :=
               accumulate (pendingComments st) (commentText line);
             topLevelComment :=
               accumulate (topLevelComment st) (commentText line);
             lineIndents := lineIndents st; foundFirstKey := false;
             found := found st |}
          (accumulate acc (commentText line)) Hall).
        simpl in IH. apply IH; congruence.
      + by apply IH. }
  intros Hall.
  destruct (Hgen (initialScan e) "" Hall eq_refl eq_refl eq_refl eq_refl)
    as (H1 & H2 & H3 & H4 & H5).
  simpl. repeat split; simpl in *; congruence.
Qed.

(** After the first key line the top-level comment no longer changes. *)
Lemma scan_keeps_top_level rest : forall st,
  foundFirstKey st = true ->
  topLevelComment (fold_left scanLine rest st) = topLevelComment st.
Proof.
  induction rest as [|line rest IH]; intros st Hf; simpl; [reflexivity|].
  destruct (isKeyLine line) eqn:Hk.
  - rewrite (isKeyLine_true_scan st line Hk), IH; reflexivity.
  - rewrite (isKeyLine_false_scan st line Hk).
    destruct (isCommentLine line); [|by apply IH].
    rewrite IH; simpl; [|exact Hf]. by rewrite Hf.
Qed.

(** An entry that no later key line writes again keeps its text. *)
Lemma scan_keeps_entry path rest : forall st,
  reassigned path st rest = false ->
  found (fold_left scanLine rest st) !! path = found st !! path.
Proof.
  induction rest as [|line rest IH]; intros st Hre; simpl; [reflexivity|].
  simpl in Hre. apply orb_false_iff in Hre as [Hline Hrest].
  rewrite (IH _ Hrest).
  destruct (isKeyLine line) eqn:Hk.
  - rewrite (isKeyLine_true_scan st line Hk). simpl.
    simpl in Hline.
    destruct (String.eqb (pendingComments st) ""); simpl in *; [reflexivity|].
    apply String.eqb_neq in Hline. by rewrite lookup_insert_ne.
  - rewrite (isKeyLine_false_scan st line Hk).
    by destruct (isCommentLine line).
Qed.

(** The first key of a document has no parent: its path is its key. *)
Lemma first_key_path st line :
  lineIndents st = [] ->
  Strings.Join (keyPath st line) "." = lineKey line.
Proof. intros Hl. unfold keyPath. rewrite Hl. reflexivity. Qed.

Lemma append_assoc (a b c : string) : (a +:+ b) +:+ c = a +:+ (b +:+ c).
Proof.
  induction a as [|x a IH]; [reflexivity|].
  change ((String x a +:+ b) +:+ c) with (String x ((a +:+ b) +:+ c)).
  by rewrite IH.
Qed.

Lemma append_not_empty (a b : string) : a <> "" -> a +:+ b <> "".
Proof. destruct a; [congruence|discriminate]. Qed.

Lemma accumulate_from acc texts :
  acc <> "" ->
  fold_left accumulate texts acc = Strings.Join (acc :: texts) newline.
Proof.
  revert acc. induction texts as [|t texts IH]; intros acc Hacc;
    [reflexivity|].
  simpl fold_left. unfold accumulate at 2.
  apply String.eqb_neq in Hacc as Hacc'. rewrite Hacc'.
  rewrite IH by (by apply append_not_empty).
  destruct texts as [|u texts]; [reflexivity|].
  change (Strings.Join ((acc +:+ newline +:+ t) :: u :: texts) newline)
    with ((acc +:+ newline +:+ t) +:+ newline
          +:+ Strings.Join (u :: texts) newline).
  change (Strings.Join (acc :: t :: u :: texts) newline)
    with (acc +:+ newline +:+ t +:+ newline
          +:+ Strings.Join (u :: texts) newline).
  by rewrite !append_assoc.
Qed.

(** The pending comment is built line by line; the result is the texts
    joined by line feeds, from the first text that is not empty on. *)
Lemma accumulate_joins texts :
  fold_left accumulate texts "" = Strings.Join (dropEmpty texts) newline.
Proof.
  induction texts as [|t texts IH]; [reflexivity|].
  destruct t as [|c t]; [exact IH|].
  simpl fold_left. change (accumulate "" (String c t)) with (String c t).
  by apply accumulate_from.
Qed.

Lemma leadingComment_block lines : leadingComment lines = commentBlock lines.
Proof.
  unfold leadingComment, commentBlock. rewrite <- accumulate_joins.
  generalize EmptyString.
  induction lines as [|line lines IH]; intros acc; [reflexivity|].
  simpl. destruct (isCommentLine line); simpl; apply IH.
Qed.

(** The leading comment lands under the empty path and under the first
    key. *)
Lemma leading_comment_recorded_twice e yamlData pre keyLine rest :
  Strings.ScanLines yamlData = pre ++ keyLine :: rest ->
  forallb (fun line => negb (isKeyLine line)) pre = true ->
  isKeyLine keyLine = true ->
  leadingComment pre <> "" ->
  reassigned (lineKey keyLine)
    (fold_left scanLine (pre ++ [keyLine]) (initialScan e)) rest = false ->
  comments (ExtractFromYAML e yamlData) !! "" = Some (leadingComment pre)
  /\ comments (ExtractFromYAML e yamlData) !! lineKey keyLine
     = Some (leadingComment pre).
Proof.
  intros Hlines Hpre Hkey Htext Hre.
  destruct (scan_before_first_key e pre Hpre) as (Hp & Ht & Hl & Hf & Hfound).
  unfold ExtractFromYAML. rewrite Hlines.
  replace (pre ++ keyLine :: rest) with ((pre ++ [keyLine]) ++ rest)
    by (by rewrite <- app_assoc).
  rewrite fold_left_app.
  set (st1 := fold_left scanLine (pre ++ [keyLine]) (initialScan e)) in *.
  assert (Hst1 : st1 = scanLine (fold_left scanLine pre (initialScan e)) keyLine).
  { unfold st1. by rewrite fold_left_app. }
  assert (Hneq : String.eqb (leadingComment pre) "" = false)
    by (by apply String.eqb_neq).
  assert (Htop1 : topLevelComment st1 = leadingComment pre).
  { rewrite Hst1, (isKeyLine_true_scan _ keyLine Hkey). exact Ht. }
  assert (Hfirst1 : foundFirstKey st1 = true).
  { rewrite Hst1, (isKeyLine_true_scan _ keyLine Hkey). reflexivity. }
  assert (Hentry1 : found st1 !! lineKey keyLine = Some (leadingComment pre)).
  { rewrite Hst1, (isKeyLine_true_scan _ keyLine Hkey). simpl.
    rewrite Hp, Hneq. simpl. rewrite (first_key_path _ _ Hl).
    apply lookup_insert_eq. }
  unfold finishScan. simpl.
  rewrite (scan_keeps_top_level rest st1 Hfirst1), Htop1, Hneq. simpl.
  split; [apply lookup_insert_eq|].
  destruct (decide (lineKey keyLine = "")) as [Hempty|Hne].
  - rewrite Hempty. apply lookup_insert_eq.
  - rewrite lookup_insert_ne by auto.
    by rewrite (scan_keeps_entry _ rest st1 Hre).
Qed.

(** ** From the decoded document to the described schema *)

Lemma mapGet_mapSet {A : Type} (m : list (string * A)) k v k' :
  mapGet (mapSet m k v) k' = if String.eqb k k' then Some v else mapGet m k'.
Proof.
  induction m as [|[k0 v0] m IH]; simpl.
  - reflexivity.
  - destruct (String.eqb_spec k0 k) as [->|Hne]; simpl.
    + by destruct (String.eqb k k').
    + rewrite IH. destruct (String.eqb_spec k0 k') as [->|Hne']; [|reflexivity].
      destruct (String.eqb_spec k k') as [->|]; [|reflexivity]. by destruct Hne.
Qed.

Lemma mapGet_map {A B : Type} (f : A -> B) (m : list (string * A)) k :
  mapGet (map (fun kv => (fst kv, f (snd kv))) m) k = option_map f (mapGet m k).
Proof.
  induction m as [|[k0 v0] m IH]; simpl; [reflexivity|].
  by destruct (String.eqb k0 k).
Qed.

Lemma mapGet_In {A : Type} (m : list (string * A)) k v :
  mapGet m k = Some v -> In k (map fst m).
Proof.
  induction m as [|[k0 v0] m IH]; simpl; [discriminate|].
  destruct (String.eqb_spec k0 k); [by left|right; auto].
Qed.

Lemma GenerateFromMap_loop_spec iter g data :
  forallb (fun kv => stringKeyed (snd kv)) data = true ->
  forall properties required,
    (forall k s, mapGet properties k = Some s -> freshAt k s) ->
    exists properties' required',
      GenerateFromMap_loop iter g data properties required
      = Ok (properties', required')
      /\ (forall k s, mapGet properties' k = Some s -> freshAt k s)
      /\ (forall k, In k (map fst data) \/ is_Some (mapGet properties k) ->
                    is_Some (mapGet properties' k)).
Proof.
  induction data as [|[key value] data IH]; simpl; intros Hall props req Hinv.
  - exists props, req. repeat split; auto; try (by apply (Hinv k s)).
    intros k [[]|H]; exact H.
  - apply andb_true_iff in Hall as [Hv Hall]. simpl in Hv.
    destruct (inferSchema_total iter g value Hv key) as [s Hs]. rewrite Hs.
    destruct (inferSchema_fields iter g value key s Hs) as (Hpath & Hdesc & _).
    destruct (IH Hall (mapSet props key s)
                (if RequireByDefault (Options g) && negb (isNil value)
                 then req ++ [key] else req))
      as (props' & req' & Hloop & Hinv' & Hkeys).
    { intros k s'. rewrite mapGet_mapSet.
      destruct (String.eqb_spec key k) as [<-|_]; [|apply Hinv].
      intros [= <-]. by split. }
    exists props', req'. split; [exact Hloop|]. split; [exact Hinv'|].
    intros k Hk. apply Hkeys. rewrite mapGet_mapSet.
    destruct (String.eqb_spec key k) as [<-|Hne]; [right; eauto|].
    destruct Hk as [[Heq|Hin]|Hsome]; [by destruct Hne|by left|by right].
Qed.

Lemma convertEntries_keys entries : forall m v',
  convertEntries entries m = Ok v' ->
  exists m',
    v' = VMap m'
    /\ forall key,
         In (VString key) (map fst entries) \/ is_Some (mapGet m key) ->
         is_Some (mapGet m' key).
Proof.
  induction entries as [|[k x] entries IH]; simpl; intros m v' Hconv.
  - injection Hconv as <-. exists m. split; [reflexivity|].
    by intros key [[]|].
  - destruct k; try discriminate Hconv.
    destruct (convertYAMLToStringMap x) as [x'|e|]; try discriminate Hconv.
    destruct (IH _ _ Hconv) as (m' & -> & Hkeys).
    exists m'. split; [reflexivity|]. intros key Hkey.
    apply Hkeys. rewrite mapGet_mapSet.
    destruct (String.eqb_spec s key) as [<-|Hne]; [right; eauto|].
    destruct Hkey as [[Heq|Hin]|Hsome]; [|by left|by right].
    injection Heq as ->. by destruct Hne.
Qed.

Lemma ApplyComments_fields e schema :
  Description (ApplyCommentsToSchema e schema)
  = match comments e !! HelmPath schema with
    | Some comment =>
        if String.eqb (Description schema) "" then comment
        else Description schema
    | None => Description schema
    end
  /\ forall key,
       nodeAt (ApplyCommentsToSchema e schema) key
       = option_map (ApplyCommentsToSchema e) (nodeAt schema key).
Proof.
  destruct schema as [sv title description ty format properties required items
                        minItems maxItems enum default examples helmPath].
  split; [reflexivity|]. intros key. unfold nodeAt. simpl.
  destruct properties as [props|]; [|reflexivity]. apply mapGet_map.
Qed.

(** A well-formed decoded mapping always yields a schema, whose root is
    described from the document and whose properties are fresh nodes. *)
Lemma GenerateFromYAML_ok iter Unmarshal g yamlData entries :
  Unmarshal yamlData = Ok (VRawMap entries) ->
  hasNonStringKey (VRawMap entries) = false ->
  yamlDecoded (VRawMap entries) = true ->
  exists root,
    GenerateFromYAML iter Unmarshal g yamlData = Ok (describe g yamlData root)
    /\ Description root = OptDescription (Options g)
    /\ HelmPath root = ""
    /\ (forall k s, nodeAt root k = Some s -> freshAt k s)
    /\ (forall key, In (VString key) (map fst entries) ->
                    is_Some (nodeAt root key)).
Proof.
  intros Hdecode Hkeys Hdecoded. unfold GenerateFromYAML. rewrite Hdecode.
  destruct (convert_spec (VRawMap entries)) as [_ Hgood].
  destruct (Hgood Hkeys) as (v' & Hconv & _ & Hkeyed).
  rewrite Hconv. rewrite convert_VRawMap in Hconv.
  destruct (convertEntries_keys entries [] v' Hconv) as (dataMap & -> & Hhas).
  specialize (Hkeyed Hdecoded). simpl in Hkeyed.
  destruct (GenerateFromMap_loop_spec iter g dataMap Hkeyed [] [])
    as (props & req & Hloop & Hinv & Hprops); [discriminate|].
  unfold GenerateFromMap. rewrite Hloop.
  eexists. split; [reflexivity|]. repeat split; simpl; auto;
    try (by apply (Hinv k s)).
  intros key Hin. apply Hprops. left.
  destruct (Hhas key) as [s Hs]; [by left|]. by apply mapGet_In in Hs.
Qed.

(** ** The leading comment of a document *)

(** C10, as amended: when comment lines come before the first key line of
    the source text and their text - the texts of the comment lines, joined
    by line feeds from the first one that is not empty on - is not empty,
    [ExtractFromYAML] records that text twice: under the empty path and
    under the key of the first key line (unless a later commented key line
    gets the same path and overwrites the entry).  With description
    extraction enabled [GenerateFromYAML] then returns a schema whose root
    carries the text as description when the options give no description,
    and keeps the description of the options otherwise; and the node of the
    first key carries the text when the key, as the line spells it, is a
    key of the decoded mapping. *)
Theorem leading_comment_described_twice
    iter Unmarshal g yamlData entries pre keyLine rest :
  Strings.ScanLines yamlData = pre ++ keyLine :: rest ->
  forallb (fun line => negb (isKeyLine line)) pre = true ->
  isKeyLine keyLine = true ->
  commentBlock pre <> "" ->
  reassigned (lineKey keyLine)
    (fold_left scanLine (pre ++ [keyLine]) (initialScan NewCommentExtractor))
    rest = false ->
  ExtractDescriptions (Options g) = true ->
  Unmarshal yamlData = Ok (VRawMap entries) ->
  hasNonStringKey (VRawMap entries) = false ->
  yamlDecoded (VRawMap entries) = true ->
  comments (ExtractFromYAML NewCommentExtractor yamlData) !! ""
  = Some (commentBlock pre)
  /\ comments (ExtractFromYAML NewCommentExtractor yamlData) !! lineKey keyLine
     = Some (commentBlock pre)
  /\ exists schema,
       GenerateFromYAML iter Unmarshal g yamlData = Ok schema
       /\ Description schema
          = (if String.eqb (OptDescription (Options g)) ""
             then commentBlock pre else OptDescription (Options g))
       /\ (In (VString (lineKey keyLine)) (map fst entries) ->
           exists node,
             nodeAt schema (lineKey keyLine) = Some node
             /\ Description node = commentBlock pre).
Proof.
  intros Hlines Hpre Hkey Htext Hre Hextract Hdecode Hkeys Hdecoded.
  rewrite <- (leadingComment_block pre) in *.
  destruct (leading_comment_recorded_twice NewCommentExtractor yamlData pre
              keyLine rest Hlines Hpre Hkey Htext Hre) as [Hroot Hfirst].
  split; [exact Hroot|]. split; [exact Hfirst|].
  destruct (GenerateFromYAML_ok iter Unmarshal g yamlData entries
              Hdecode Hkeys Hdecoded)
    as (root & Hgen & Hdesc & Hpath & Hfresh & Hhas).
  set (e := ExtractFromYAML
              {| comments := comments NewCommentExtractor;
                 ExtractorDebug := Debug (Options g) |} yamlData).
  assert (He : comments e
               = comments (ExtractFromYAML NewCommentExtractor yamlData))
    by reflexivity.
  assert (Hneq : String.eqb (leadingComment pre) "" = false)
    by (by apply String.eqb_neq).
  exists (describe g yamlData root).
  split; [exact Hgen|].
  unfold describe. rewrite Hextract. cbv zeta. fold e.
  assert (Htop : GetComment e "" = leadingComment pre).
  { unfold GetComment. rewrite He, Hroot. reflexivity. }
  rewrite Htop, Hneq, Hdesc. simpl negb.
  set (described :=
         if true && String.eqb (OptDescription (Options g)) ""
         then withDescription root (leadingComment pre) else root).
  assert (Hdpath : HelmPath described = "").
  { unfold described.
    destruct (String.eqb (OptDescription (Options g)) ""); exact Hpath. }
  assert (Hdnode : forall key, nodeAt described key = nodeAt root key).
  { intros key. unfold described.
    destruct (String.eqb (OptDescription (Options g)) ""); reflexivity. }
  assert (Hddesc : Description described
                   = if String.eqb (OptDescription (Options g)) ""
                     then leadingComment pre else OptDescription (Options g)).
  { unfold described.
    destruct (String.eqb (OptDescription (Options g)) "");
      [reflexivity|exact Hdesc]. }
  destruct (ApplyComments_fields e described) as [Hd Hn].
  split.
  - rewrite Hd, Hdpath, He, Hroot, Hddesc.
    destruct (String.eqb (OptDescription (Options g)) "") eqn:Hopt;
      [by rewrite Hneq|by rewrite Hopt].
  - intros Hin. destruct (Hhas _ Hin) as [node Hnode].
    destruct (Hfresh _ _ Hnode) as [Hnpath Hndesc].
    destruct (ApplyComments_fields e node) as [Hd' _].
    exists (ApplyCommentsToSchema e node). split.
    + by rewrite Hn, Hdnode, Hnode.
    + rewrite Hd', Hnpath, He, Hfirst, Hndesc. reflexivity.
Qed.

Lemma leading_comment_described_twice_witness :
  let yamlData :=
    "#" +:+ newline +:+ "# Test values" +:+ newline +:+ newline
    +:+ "# -- for the demo chart" +:+ newline +:+ "key1: value1" +:+ newline
    +:+ "key2: 42" +:+ newline in
  let entries :=
    [(VString "key1", VString "value1"); (VString "key2", VInt 42)] in
  let Unmarshal := decoderOf [(yamlData, VRawMap entries)] in
  let text := "Test values" +:+ newline +:+ "for the demo chart" in
  comments (ExtractFromYAML NewCommentExtractor yamlData) !! "" = Some text
  /\ comments (ExtractFromYAML NewCommentExtractor yamlData) !! "key1"
     = Some text
  /\ exists schema,
       GenerateFromYAML sortedIteration Unmarshal NewGeneratorWithDefaults
         yamlData = Ok schema
       /\ Description schema = text
       /\ exists node,
            nodeAt schema "key1" = Some node /\ Description node = text.
Proof.
  intros yamlData entries Unmarshal text.
  destruct (leading_comment_described_twice sortedIteration Unmarshal
              NewGeneratorWithDefaults yamlData entries
              ["#"; "# Test values"; ""; "# -- for the demo chart"]
              "key1: value1" ["key2: 42"])
    as (Hroot & Hfirst & schema & Hrun & Hdesc & Hnode);
    try (vm_compute; reflexivity).
  - vm_compute. discriminate.
  - split; [exact Hroot|]. split; [exact Hfirst|].
    exists schema. split; [exact Hrun|]. split; [exact Hdesc|].
    apply Hnode. left. reflexivity.
Defined.

(** C10 as worded fails: the root does not receive the text when the
    options give a description, and the node of the first key does not
    receive it when the text spells the key in quotes. *)
Lemma leading_comment_not_always_described :
  let quote := String (ascii_of_nat 34) "" in
  let plain := "# Test values" +:+ newline +:+ "key1: value1" +:+ newline in
  let quoted :=
    "# Test values" +:+ newline +:+ quote +:+ "key1" +:+ quote
    +:+ ": value1" +:+ newline in
  let entries := [(VString "key1", VString "value1")] in
  let Unmarshal :=
    decoderOf [(plain, VRawMap entries); (quoted, VRawMap entries)] in
  let titled :=
    {| Options :=
         {| SchemaVersion := Draft07; OptTitle := "";
            OptDescription := "Values of the chart";
            RequireByDefault := false; IncludeExamples := true;
            ExtractDescriptions := true; Debug := false |} |} in
  comments (ExtractFromYAML NewCommentExtractor plain) !! ""
  = Some "Test values"
  /\ (exists schema,
         GenerateFromYAML sortedIteration Unmarshal titled plain = Ok schema
         /\ Description schema = "Values of the chart")
  /\ comments (ExtractFromYAML NewCommentExtractor quoted)
       !! (quote +:+ "key1" +:+ quote) = Some "Test values"
  /\ exists schema node,
       GenerateFromYAML sortedIteration Unmarshal NewGeneratorWithDefaults
         quoted = Ok schema
       /\ Description schema = "Test values"
       /\ nodeAt schema "key1" = Some node
       /\ Description node = "".
Proof.
  intros quote plain quoted entries Unmarshal titled.
  split; [vm_compute; reflexivity|]. split; [|split].
  - eexists. split; vm_compute; reflexivity.
  - vm_compute. reflexivity.
  - eexists. eexists. repeat split; vm_compute; reflexivity.
Qed.

(** ** The linter *)

Lemma typeOfName_array str :
  typeOfName str = Some TypeArray <-> str = "array".
Proof.
  split; [|intros ->; reflexivity].
  unfold typeOfName.
  repeat match goal with
         | |- context [String.eqb str ?c] =>
             destruct (String.eqb_spec str c); [subst; try discriminate; auto|]
         end.
  discriminate.
Qed.

(** The test of the linter is membership of array in the type set. *)
Lemma hasArrayType_typeSet schema :
  hasArrayType schema = true <-> In TypeArray (typeSet (Type_ schema)).
Proof.
  unfold hasArrayType. destruct (Type_ schema) as [|t|ts|xs]; simpl.
  - split; [discriminate|intros []].
  - rewrite orb_false_r. destruct t; simpl; split; try discriminate; auto;
      intros [H|[]]; discriminate H.
  - rewrite existsb_exists. split.
    + intros (t & Hin & Ht). by destruct t.
    + intros Hin. exists TypeArray. auto.
  - rewrite existsb_exists, in_flat_map. split.
    + intros ([str|] & Hin & Hx); [|discriminate].
      apply String.eqb_eq in Hx. subst str.
      exists (Some "array"). split; [exact Hin|]. by left.
    + intros ([str|] & Hin & Hx); [|destruct Hx].
      exists (Some str). split; [exact Hin|].
      apply String.eqb_eq, typeOfName_array.
      destruct (typeOfName str) as [t|]; [|destruct Hx].
      destruct Hx as [->|[]]. reflexivity.
Qed.

Lemma checkName_outcome path propName issues :
  (propName = "" -> checkName path propName issues = Panic)
  /\ (propName <> "" ->
      exists out, checkName path propName issues = Ok out /\ incl issues out).
Proof.
  unfold checkName. destruct propName as [|c rest]; simpl.
  - split; [reflexivity|]. intros H. by destruct H.
  - split; [discriminate|]. intros _. eexists. split; [reflexivity|].
    repeat match goal with
           | |- context [if ?b then _ else _] => destruct b
           end;
      repeat (rewrite <- ?app_assoc; apply incl_appl); apply incl_refl.
Qed.

Lemma checkNames_outcome path names : forall issues,
  (existsb (fun name => String.eqb name "") names = true ->
   checkNames path names issues = Panic)
  /\ (existsb (fun name => String.eqb name "") names = false ->
      exists out, checkNames path names issues = Ok out /\ incl issues out).
Proof.
  induction names as [|name names IH]; intros issues; simpl.
  - split; [discriminate|]. intros _. exists issues. split; [reflexivity|].
    apply incl_refl.
  - destruct (checkName_outcome path name issues) as [Hempty Hfull].
    destruct (String.eqb_spec name "") as [->|Hne]; simpl.
    + split; [intros _|discriminate]. reflexivity.
    + destruct (Hfull Hne) as (mid & -> & Hincl).
      destruct (IH mid) as [IHbad IHgood]. split; [exact IHbad|].
      intros Hrest. destruct (IHgood Hrest) as (out & -> & Hincl').
      exists out. split; [reflexivity|]. by eapply incl_tran.
Qed.

Lemma existsb_map_fst {A : Type} (f : string -> bool) (m : list (string * A)) :
  existsb f (map fst m) = existsb (fun kv => f (fst kv)) m.
Proof. induction m as [|[k v] m IH]; simpl; congruence. Qed.

Lemma checkNamingConventions_outcome schema path issues :
  (negb (String.eqb path "") && hasEmptyName schema = true ->
   checkNamingConventions schema path issues = Panic)
  /\ (negb (String.eqb path "") && hasEmptyName schema = false ->
      exists out,
        checkNamingConventions schema path issues = Ok out
        /\ incl issues out).
Proof.
  unfold checkNamingConventions, hasEmptyName.
  destruct (Properties schema) as [props|].
  - destruct (String.eqb path ""); simpl.
    + split; [discriminate|]. intros _. exists issues.
      split; [reflexivity|apply incl_refl].
    + rewrite <- (existsb_map_fst (fun name => String.eqb name "")).
      apply checkNames_outcome.
  - rewrite andb_false_r. split; [discriminate|]. intros _. exists issues.
    split; [reflexivity|apply incl_refl].
Qed.

Lemma checkNestingDepth_incl depth path issues :
  incl issues (checkNestingDepth depth path issues).
Proof.
  unfold checkNestingDepth. destruct (MaxNestingDepth <? depth);
    [apply incl_appl|]; apply incl_refl.
Qed.

Lemma checkArrayStructures_incl schema path issues :
  incl issues (checkArrayStructures schema path issues).
Proof.
  unfold checkArrayStructures.
  repeat match goal with
         | |- context [if ?b then _ else _] => destruct b
         | |- context [match ?o with Some _ => _ | None => _ end] => destruct o
         end;
    repeat (rewrite <- ?app_assoc; apply incl_appl); apply incl_refl.
Qed.

Lemma checkDocumentation_incl schema path issues :
  incl issues (checkDocumentation schema path issues).
Proof.
  unfold checkDocumentation.
  destruct (String.eqb path ""); [apply incl_refl|].
  destruct (String.eqb (Description schema) "");
    match goal with
    | |- context [if ?b then _ else _] => destruct b
    end;
    repeat (rewrite <- ?app_assoc; apply incl_appl); apply incl_refl.
Qed.

Lemma validateProperties_outcome path depth props :
  Forall (fun kv => validatesAsExpected (snd kv)) props ->
  forall issues,
    (existsb (fun kv => visitsEmptyName (snd kv) (childPath path (fst kv)))
       props = true ->
     validateProperties path depth props issues = Panic)
    /\ (existsb (fun kv => visitsEmptyName (snd kv) (childPath path (fst kv)))
          props = false ->
        exists out,
          validateProperties path depth props issues = Ok out
          /\ incl issues out).
Proof.
  induction 1 as [|[propName propSchema] rest Hchild _ IH]; intros issues;
    simpl.
  - split; [discriminate|]. intros _. exists issues.
    split; [reflexivity|apply incl_refl].
  - simpl in Hchild. fold (childPath path propName).
    destruct (Hchild (childPath path propName) (depth + 1) issues)
      as [Hbad Hgood].
    destruct (visitsEmptyName propSchema (childPath path propName)); simpl.
    + split; [|discriminate]. intros _. by rewrite Hbad.
    + destruct (Hgood eq_refl) as (mid & -> & Hincl).
      destruct (IH mid) as [IHbad IHgood]. split; [exact IHbad|].
      intros Hrest. destruct (IHgood Hrest) as (out & -> & Hincl').
      exists out. split; [reflexivity|]. by eapply incl_tran.
Qed.

Lemma validateSchema_outcome schema : validatesAsExpected schema.
Proof.
  induction schema as [sv title description ty format properties required
                         items minItems maxItems enum default examples
                         helmPath IHprops IHitems] using Schema_nested_ind.
  intros path depth issues.
  set (schema := mkSchema sv title description ty format properties required
                   items minItems maxItems enum default examples helmPath).
  rewrite validateSchema_unfold.
  change (visitsEmptyName schema path) with
    ((negb (String.eqb path "") && hasEmptyName schema)
     || match properties with
        | Some props =>
            existsb (fun kv =>
                       visitsEmptyName (snd kv) (childPath path (fst kv)))
              props
        | None => false
        end
     || (hasArrayType schema
         && match items with
            | Some itemSchema => visitsEmptyName itemSchema (path +:+ "[]")
            | None => false
            end)).
  change (Properties schema) with properties.
  change (Items schema) with items.
  destruct (checkNamingConventions_outcome schema path issues)
    as [Hnbad Hngood].
  destruct (negb (String.eqb path "") && hasEmptyName schema); simpl orb.
  { split; [|discriminate]. intros _. by rewrite Hnbad. }
  destruct (Hngood eq_refl) as (issues1 & -> & Hincl1). cbv zeta.
  set (issues2 := checkDocumentation schema path
                    (checkArrayStructures schema path
                       (checkNestingDepth depth path issues1))).
  assert (Hincl2 : incl issues issues2).
  { eapply incl_tran; [exact Hincl1|].
    eapply incl_tran; [apply checkNestingDepth_incl|].
    eapply incl_tran; [apply checkArrayStructures_incl|].
    apply checkDocumentation_incl. }
  assert (Hprops :
    (match properties with
     | Some props =>
         existsb (fun kv =>
                    visitsEmptyName (snd kv) (childPath path (fst kv))) props
     | None => false
     end = true ->
     match properties with
     | Some props => validateProperties path depth props issues2
     | None => Ok issues2
     end = Panic)
    /\ (match properties with
        | Some props =>
            existsb (fun kv =>
                       visitsEmptyName (snd kv) (childPath path (fst kv)))
              props
        | None => false
        end = false ->
        exists out,
          match properties with
          | Some props => validateProperties path depth props issues2
          | None => Ok issues2
          end = Ok out /\ incl issues2 out)).
  { destruct properties as [props|].
    - apply validateProperties_outcome. exact IHprops.
    - split; [discriminate|]. intros _. exists issues2.
      split; [reflexivity|apply incl_refl]. }
  destruct Hprops as [Hpbad Hpgood].
  destruct (match properties with
            | Some props => existsb _ props
            | None => false
            end); simpl orb.
  { split; [|discriminate]. intros _. by rewrite Hpbad. }
  destruct (Hpgood eq_refl) as (issues3 & -> & Hincl3).
  destruct (hasArrayType schema); simpl andb.
  - destruct items as [itemSchema|].
    + destruct (IHitems (path +:+ "[]") (depth + 1) issues3) as [Hibad Higood].
      split; [exact Hibad|]. intros Hitem.
      destruct (Higood Hitem) as (out & -> & Hincl4).
      exists out. split; [reflexivity|].
      eapply incl_tran; [exact Hincl2|]. by eapply incl_tran.
    + split; [discriminate|]. intros _. exists issues3.
      split; [reflexivity|]. by eapply incl_tran.
  - split; [discriminate|]. intros _. exists issues3.
    split; [reflexivity|]. by eapply incl_tran.
Qed.

Lemma validateSchema_reports schema path depth issues out :
  validateSchema schema path depth issues = Ok out ->
  exists named,
    checkNamingConventions schema path issues = Ok named
    /\ incl (checkDocumentation schema path
               (checkArrayStructures schema path
                  (checkNestingDepth depth path named))) out.
Proof.
  rewrite validateSchema_unfold.
  destruct (checkNamingConventions schema path issues) as [named|e|];
    [|discriminate..].
  cbv zeta.
  set (issues2 := checkDocumentation schema path
                    (checkArrayStructures schema path
                       (checkNestingDepth depth path named))).
  intros Hrun. exists named. split; [reflexivity|].
  assert (Hprops : forall mid,
             match Properties schema with
             | Some props => validateProperties path depth props issues2
             | None => Ok issues2
             end = Ok mid -> incl issues2 mid).
  { intros mid Hmid. destruct (Properties schema) as [props|].
    - destruct (validateProperties_outcome path depth props) with (issues := issues2)
        as [Hbad Hgood].
      { apply Forall_forall. intros kv _. apply validateSchema_outcome. }
      destruct (existsb _ props).
      + rewrite (Hbad eq_refl) in Hmid. discriminate.
      + destruct (Hgood eq_refl) as (mid' & Hmid' & Hincl).
        rewrite Hmid' in Hmid. injection Hmid as <-. exact Hincl.
    - injection Hmid as <-. apply incl_refl. }
  destruct (match Properties schema with
            | Some props => validateProperties path depth props issues2
            | None => Ok issues2
            end) as [mid|e|]; [|discriminate..].
  specialize (Hprops mid eq_refl).
  destruct (hasArrayType schema); [|by injection Hrun as <-].
  destruct (Items schema) as [itemSchema|]; [|by injection Hrun as <-].
  destruct (validateSchema_outcome itemSchema (path +:+ "[]") (depth + 1) mid)
    as [Hbad Hgood].
  destruct (visitsEmptyName itemSchema (path +:+ "[]")).
  - rewrite (Hbad eq_refl) in Hrun. discriminate.
  - destruct (Hgood eq_refl) as (out' & Hout & Hincl).
    rewrite Hout in Hrun. injection Hrun as <-. by eapply incl_tran.
Qed.

(** C9: the naming check slices the first byte off every property name of
    a node with a non-empty path, so an empty name makes it panic; a run of
    the linter panics exactly when its walk comes to such a node, and
    returns its diagnostics otherwise. *)
Theorem empty_property_name_panics schema path depth issues :
  (forall props,
      Properties schema = Some props -> path <> "" ->
      In "" (map fst props) ->
      checkNamingConventions schema path issues = Panic)
  /\ (visitsEmptyName schema path = true ->
      validateSchema schema path depth issues = Panic)
  /\ (visitsEmptyName schema path = false ->
      exists out, validateSchema schema path depth issues = Ok out).
Proof.
  split; [|split].
  - intros props Hprops Hpath Hin.
    apply checkNamingConventions_outcome.
    apply String.eqb_neq in Hpath. rewrite Hpath. simpl.
    unfold hasEmptyName. rewrite Hprops.
    rewrite <- (existsb_map_fst (fun name => String.eqb name "")).
    apply existsb_exists. exists "". split; [exact Hin|reflexivity].
  - apply validateSchema_outcome.
  - intros Hvisit.
    destruct (validateSchema_outcome schema path depth issues) as [_ Hgood].
    destruct (Hgood Hvisit) as (out & Hrun & _). eauto.
Qed.

Lemma empty_property_name_panics_witness :
  let server := typed TypeObject (Some [("", typed TypeString None None)]) None in
  let root := typed TypeObject (Some [("server", server)]) None in
  checkNamingConventions server "server" [] = Panic
  /\ ValidateHelmBestPractices root = Panic.
Proof.
  intros server root. split.
  - destruct (empty_property_name_panics server "server" 1 []) as (Hcheck & _).
    apply (Hcheck [("", typed TypeString None None)]);
      [reflexivity|discriminate|left; reflexivity].
  - destruct (empty_property_name_panics root "" 0 []) as (_ & Hpanic & _).
    apply Hpanic. reflexivity.
Defined.

(** ** The enricher *)

Lemma Specialize_named schema :
  isNamedShape schema = true ->
  SpecializeSchemaForHelm schema = canonicalFragment schema.
Proof.
  unfold isNamedShape, canonicalFragment. intros Hshape.
  destruct schema; simpl.
  destruct (isImageConfig _); [reflexivity|].
  simpl in Hshape. by rewrite Hshape.
Qed.

Lemma Specialize_children schema :
  isNamedShape schema = false ->
  (forall key,
      typeIs (Type_ schema) TypeObject = true ->
      nodeAt (SpecializeSchemaForHelm schema) key
      = option_map SpecializeSchemaForHelm (nodeAt schema key))
  /\ (typeIs (Type_ schema) TypeArray = true ->
      Items (SpecializeSchemaForHelm schema)
      = option_map SpecializeSchemaForHelm (Items schema)).
Proof.
  unfold isNamedShape. intros Hshape.
  apply orb_false_iff in Hshape as [Himage Hresources].
  destruct schema as [sv title description ty format properties required items
                        minItems maxItems enum default examples helmPath].
  simpl SpecializeSchemaForHelm. rewrite Himage, Hresources.
  unfold nodeAt. simpl. split.
  - intros key ->. destruct properties as [props|]; [|reflexivity].
    apply mapGet_map.
  - intros ->. by destruct items.
Qed.

(** C3, as amended: a node where a named shape is recognised is replaced by
    the canonical fragment and its children are not visited; at any other
    node the enricher goes into every property when the node is typed
    exactly object and into the items when it is typed exactly array.  So
    every node its recursion comes to ends up specialized in place, and a
    named shape there is replaced by its canonical fragment. *)
Theorem Specialize_reached_positions root position node :
  subtree root position = Some node ->
  reaches root position = true ->
  subtree (SpecializeSchemaForHelm root) position
  = Some (SpecializeSchemaForHelm node)
  /\ (isNamedShape node = true ->
      SpecializeSchemaForHelm node = canonicalFragment node
      /\ subtree (SpecializeSchemaForHelm root) position
         = Some (canonicalFragment node))
  /\ (isNamedShape node = false ->
      (forall key,
          typeIs (Type_ node) TypeObject = true ->
          nodeAt (SpecializeSchemaForHelm node) key
          = option_map SpecializeSchemaForHelm (nodeAt node key))
      /\ (typeIs (Type_ node) TypeArray = true ->
          Items (SpecializeSchemaForHelm node)
          = option_map SpecializeSchemaForHelm (Items node))).
Proof.
  intros Hsub Hreach.
  assert (Hmain : subtree (SpecializeSchemaForHelm root) position
                  = Some (SpecializeSchemaForHelm node)).
  { revert root Hsub Hreach.
    induction position as [|[key|] rest IH]; intros root Hsub Hreach;
      simpl in *.
    - by injection Hsub as <-.
    - apply andb_true_iff in Hreach as [Hhead Hchild].
      apply andb_true_iff in Hhead as [Hshape Hty].
      apply negb_true_iff in Hshape.
      destruct (Specialize_children root Hshape) as [Hprops _].
      rewrite (Hprops key Hty).
      destruct (nodeAt root key) as [child|]; [|discriminate]. simpl.
      by apply IH.
    - apply andb_true_iff in Hreach as [Hhead Hchild].
      apply andb_true_iff in Hhead as [Hshape Hty].
      apply negb_true_iff in Hshape.
      destruct (Specialize_children root Hshape) as [_ Hitems].
      rewrite (Hitems Hty).
      destruct (Items root) as [itemSchema|]; [|discriminate]. simpl.
      by apply IH. }
  split; [exact Hmain|]. split; [|apply Specialize_children].
  intros Hshape. split; [by apply Specialize_named|].
  by rewrite Hmain, (Specialize_named node Hshape).
Qed.

Lemma Specialize_reached_positions_witness :
  let image :=
    objectAt "app.image"
      [("repository", stringAt "app.image.repository");
       ("tag", stringAt "app.image.tag")] in
  let root := objectAt "" [("app", objectAt "app" [("image", image)])] in
  subtree (SpecializeSchemaForHelm root) [AtProperty "app"; AtProperty "image"]
  = Some (createImageSchema "app.image").
Proof.
  intros image root.
  destruct (Specialize_reached_positions root
              [AtProperty "app"; AtProperty "image"] image)
    as (_ & Hshape & _); [reflexivity|reflexivity|].
  apply Hshape. reflexivity.
Defined.

(** C3 as worded fails: where a replacement occurs the children are not
    visited.  The node [worker] has a [limits] property, so it is replaced
    by the resources fragment; the image shape under it is not replaced by
    the image fragment, it is gone. *)
Lemma Specialize_stops_at_replacement :
  let image :=
    objectAt "worker.image"
      [("repository", stringAt "worker.image.repository");
       ("tag", stringAt "worker.image.tag")] in
  let worker :=
    objectAt "worker"
      [("limits", objectAt "worker.limits"
                    [("cpu", stringAt "worker.limits.cpu")]);
       ("image", image)] in
  let root := objectAt "" [("worker", worker)] in
  subtree root [AtProperty "worker"; AtProperty "image"] = Some image
  /\ isImageConfig image = true
  /\ subtree (SpecializeSchemaForHelm root) [AtProperty "worker"]
     = Some (createResourcesSchema "worker")
  /\ subtree (SpecializeSchemaForHelm root)
       [AtProperty "worker"; AtProperty "image"] = None.
Proof. repeat split; vm_compute; reflexivity. Qed.

(** * Further properties *)

(** ** The nodes [inferSchema] builds *)

Section InferredNodes.

Variable iter : MapIteration.
Variable g : Generator.

Local Arguments shouldSupportMultipleTypes : simpl never.
Local Arguments isLikelyYAMLOrJSON : simpl never.
Local Arguments hasMixedTypes : simpl never.
Local Arguments stringFormat : simpl never.
Local Arguments Strings.HasSuffix : simpl never.
Local Arguments String.eqb : simpl never.

Lemma inferSchema_children v path schema :
  inferSchema iter g v path = Ok schema ->
  isSet (Properties schema) = isStringMap v
  /\ isSet (Items schema) = isNonEmptySlice v.
Proof.
  destruct v as [|b|n|n|f|str|xs|m|m]; intros H;
    try (simpl in H; injection H as <-; auto; fail).
  - simpl in H.
    destruct (shouldSupportMultipleTypes path) as [types|];
      [|destruct (isLikelyYAMLOrJSON str)]; injection H as <-; auto.
  - destruct xs as [|firstItem rest].
    + simpl in H. injection H as <-. auto.
    + rewrite inferSchema_VSlice_cons in H.
      destruct (if hasMixedTypes (firstItem :: rest) then _ else _)
        as [itemSchema|e|]; [|discriminate..].
      injection H as <-. auto.
  - rewrite inferSchema_VMap in H.
    destruct (inferProperties iter g path m [] []) as [[props req]|e|];
      [|discriminate..].
    injection H as <-. auto.
  - discriminate H.
Qed.

(** What the property loop leaves in the map and in the required list. *)
Lemma inferProperties_result path entries :
  forall properties required properties' required',
    inferProperties iter g path entries properties required
    = Ok (properties', required') ->
    NoDup (map fst entries) ->
    (forall k v, In (k, v) entries ->
                 exists child,
                   mapGet properties' k = Some child
                   /\ inferSchema iter g v (path +:+ "." +:+ k) = Ok child)
    /\ (forall k, ~ In k (map fst entries) ->
                  mapGet properties' k = mapGet properties k)
    /\ required'
       = required ++ (if RequireByDefault (Options g)
                      then nonNilKeys entries else []).
Proof.
  induction entries as [|[k0 v0] rest IH];
    intros props req props' req' Hloop Hnodup; simpl in *.
  - injection Hloop as <- <-. repeat split; auto.
    + intros k v [].
    + destruct (RequireByDefault (Options g)); by rewrite app_nil_r.
  - destruct (inferSchema iter g v0 (path +:+ "." +:+ k0)) as [s0|e|] eqn:Hi;
      [|discriminate..].
    apply NoDup_cons in Hnodup as [Hfresh Hnodup].
    destruct (IH _ _ _ _ Hloop Hnodup) as (Hin & Hout & Hreq).
    repeat split.
    + intros k v [[= <- <-]|Hrest]; [|by apply Hin].
      exists s0. split; [|exact Hi].
      rewrite (Hout k0), mapGet_mapSet, String.eqb_refl; auto.
      by rewrite <- list_elem_of_In.
    + intros k Hk. rewrite Hout by (intros ?; apply Hk; by right).
      rewrite mapGet_mapSet.
      destruct (String.eqb_spec k0 k) as [->|]; [|reflexivity].
      destruct Hk. by left.
    + rewrite Hreq. destruct (RequireByDefault (Options g)); simpl.
      * destruct (isNil v0); simpl; [reflexivity|].
        by rewrite <- app_assoc.
      * reflexivity.
Qed.

Lemma inferProperties_bare path entries :
  Forall (fun kv =>
            forall p s, inferSchema iter g (snd kv) p = Ok s ->
                        allNodes (bare (IncludeExamples (Options g))) s = true)
         entries ->
  forall properties required properties' required',
    inferProperties iter g path entries properties required
    = Ok (properties', required') ->
    forallb (fun kv => allNodes (bare (IncludeExamples (Options g))) (snd kv))
      properties = true ->
    forallb (fun kv => allNodes (bare (IncludeExamples (Options g))) (snd kv))
      properties' = true.
Proof.
  induction 1 as [|[k0 v0] rest Hv _ IH];
    intros props req props' req' Hloop Hprops; simpl in *.
  - by injection Hloop as <- <-.
  - destruct (inferSchema iter g v0 (path +:+ "." +:+ k0)) as [s0|e|] eqn:Hi;
      [|discriminate..].
    eapply IH; [exact Hloop|].
    apply (mapSet_forallb (allNodes (bare (IncludeExamples (Options g)))));
      [exact Hprops|]. by eapply Hv.
Qed.

Lemma inferSchema_bare v :
  forall path schema,
    inferSchema iter g v path = Ok schema ->
    allNodes (bare (IncludeExamples (Options g))) schema = true.
Proof.
  induction v as [|b|n|n|f|str|xs IH|m IH|m IH] using Value_nested_ind;
    intros path schema H;
    try (simpl in H; injection H as <-; unfold bare; simpl;
         destruct (IncludeExamples (Options g)); reflexivity).
  - simpl in H.
    destruct (shouldSupportMultipleTypes path) as [types|];
      [|destruct (isLikelyYAMLOrJSON str)]; injection H as <-;
      unfold bare; simpl; destruct (IncludeExamples (Options g));
      reflexivity.
  - destruct xs as [|firstItem rest].
    + simpl in H. injection H as <-. unfold bare. simpl.
      by rewrite orb_true_r.
    + rewrite inferSchema_VSlice_cons in H.
      assert (Hitem : forall itemSchema,
                 (if hasMixedTypes (firstItem :: rest) then
                    match InferArrayItemsWithMultipleTypes iter g
                            (firstItem :: rest) path with
                    | Ok mixedSchema =>
                        Ok (withType zeroSchema (Type_ mixedSchema))
                    | Err e =>
                        Err (ErrWrap
                               "failed to infer schema for mixed type array" e)
                    | Panic => Panic
                    end
                  else
                    match inferSchema iter g firstItem (path +:+ "[0]") with
                    | Ok itemSchema => Ok itemSchema
                    | Err e =>
                        Err (ErrWrap "failed to infer schema for array item" e)
                    | Panic => Panic
                    end) = Ok itemSchema ->
                 allNodes (bare (IncludeExamples (Options g))) itemSchema
                 = true).
      { intros itemSchema Hi.
        destruct (hasMixedTypes (firstItem :: rest)).
        - destruct (InferArrayItemsWithMultipleTypes iter g _ path);
            [|discriminate..].
          injection Hi as <-. unfold bare. simpl. by rewrite orb_true_r.
        - inversion IH as [|? ? Hhead _]; subst.
          destruct (inferSchema iter g firstItem (path +:+ "[0]")) eqn:Hf;
            [|discriminate..].
          injection Hi as <-. by eapply Hhead. }
      destruct (if hasMixedTypes (firstItem :: rest) then _ else _)
        as [itemSchema|e|]; [|discriminate..].
      injection H as <-. simpl. rewrite (Hitem itemSchema eq_refl).
      unfold bare. simpl. by rewrite orb_true_r.
  - rewrite inferSchema_VMap in H.
    destruct (inferProperties iter g path m [] []) as [[props req]|e|] eqn:Hp;
      [|discriminate..].
    injection H as <-. simpl.
    rewrite (inferProperties_bare path m IH [] [] props req Hp eq_refl).
    unfold bare. simpl. by rewrite orb_true_r.
  - discriminate H.
Qed.

End InferredNodes.

Lemma GenerateFromMap_loop_result iter g data :
  forall properties required properties' required',
    GenerateFromMap_loop iter g data properties required
    = Ok (properties', required') ->
    NoDup (map fst data) ->
    (forall k v, In (k, v) data ->
                 exists child,
                   mapGet properties' k = Some child
                   /\ inferSchema iter g v k = Ok child)
    /\ (forall k, ~ In k (map fst data) ->
                  mapGet properties' k = mapGet properties k)
    /\ required'
       = required ++ (if RequireByDefault (Options g)
                      then nonNilKeys data else []).
Proof.
  induction data as [|[k0 v0] rest IH];
    intros props req props' req' Hloop Hnodup; simpl in *.
  - injection Hloop as <- <-. repeat split; auto.
    + intros k v [].
    + destruct (RequireByDefault (Options g)); by rewrite app_nil_r.
  - destruct (inferSchema iter g v0 k0) as [s0|e|] eqn:Hi; [|discriminate..].
    apply NoDup_cons in Hnodup as [Hfresh Hnodup].
    destruct (IH _ _ _ _ Hloop Hnodup) as (Hin & Hout & Hreq).
    repeat split.
    + intros k v [[= <- <-]|Hrest]; [|by apply Hin].
      exists s0. split; [|exact Hi].
      rewrite (Hout k0), mapGet_mapSet, String.eqb_refl; auto.
      by rewrite <- list_elem_of_In.
    + intros k Hk. rewrite Hout by (intros ?; apply Hk; by right).
      rewrite mapGet_mapSet.
      destruct (String.eqb_spec k0 k) as [->|]; [|reflexivity].
      destruct Hk. by left.
    + rewrite Hreq. destruct (RequireByDefault (Options g)); simpl.
      * destruct (isNil v0); simpl; [reflexivity|].
        by rewrite <- app_assoc.
      * reflexivity.
Qed.

(** X1: on a value without [map[any]any], [inferSchema] returns a node that
    carries the path it was given and no description, has a properties map
    exactly when the value is a mapping and an items node exactly when the
    value is a non-empty sequence - whatever type list the pattern table
    put on it. *)
Theorem inferred_node_shape iter g value path :
  stringKeyed value = true ->
  exists schema,
    inferSchema iter g value path = Ok schema
    /\ HelmPath schema = path
    /\ Description schema = ""
    /\ isSet (Properties schema) = isStringMap value
    /\ isSet (Items schema) = isNonEmptySlice value.
Proof.
  intros Hkeyed.
  destruct (inferSchema_total iter g value Hkeyed path) as [schema Hok].
  exists schema.
  destruct (inferSchema_fields iter g value path schema Hok) as (Hp & Hd & _).
  destruct (inferSchema_children iter g value path schema Hok) as [Hpr Hit].
  auto.
Qed.

Lemma inferred_node_shape_witness :
  exists schema,
    inferSchema sortedIteration NewGeneratorWithDefaults
      (VMap [("key", VString "node-role")]) "tolerations" = Ok schema
    /\ HelmPath schema = "tolerations"
    /\ Description schema = ""
    /\ isSet (Properties schema) = true
    /\ isSet (Items schema) = false.
Proof.
  exact (inferred_node_shape sortedIteration NewGeneratorWithDefaults
           (VMap [("key", VString "node-role")]) "tolerations" eq_refl).
Defined.

(** X2: for a mapping with distinct keys, the node [inferSchema] returns
    holds under every key the node inferred from that key's value at the
    path extended by the key, holds nothing under any other key, and lists
    as required the keys with a non-nil value, in order, when
    [RequireByDefault] is set and nothing otherwise. *)
Theorem inferred_properties iter g mapValue path :
  stringKeyed (VMap mapValue) = true ->
  NoDup (map fst mapValue) ->
  exists schema,
    inferSchema iter g (VMap mapValue) path = Ok schema
    /\ (forall k v,
           In (k, v) mapValue ->
           exists child,
             nodeAt schema k = Some child
             /\ inferSchema iter g v (path +:+ "." +:+ k) = Ok child)
    /\ (forall k, ~ In k (map fst mapValue) -> nodeAt schema k = None)
    /\ Required schema
       = if RequireByDefault (Options g) then nonNilKeys mapValue else [].
Proof.
  intros Hkeyed Hnodup.
  destruct (inferSchema_total iter g (VMap mapValue) Hkeyed path)
    as [schema Hok].
  exists schema. split; [exact Hok|].
  rewrite inferSchema_VMap in Hok.
  destruct (inferProperties iter g path mapValue [] [])
    as [[props req]|e|] eqn:Hloop; [|discriminate..].
  injection Hok as <-.
  destruct (inferProperties_result iter g path mapValue [] [] props req
              Hloop Hnodup) as (Hin & Hout & Hreq).
  unfold nodeAt. simpl. repeat split; auto.
Qed.

Lemma inferred_properties_witness :
  let mapValue := [("name", VString "web"); ("replicas", VNil)] in
  exists schema,
    inferSchema sortedIteration
      (generatorWith true false false)
      (VMap mapValue) "app" = Ok schema
    /\ (forall k v,
           In (k, v) mapValue ->
           exists child,
             nodeAt schema k = Some child
             /\ inferSchema sortedIteration
                  (generatorWith true false false)
                  v ("app" +:+ "." +:+ k) = Ok child)
    /\ (forall k, ~ In k (map fst mapValue) -> nodeAt schema k = None)
    /\ Required schema = ["name"].
Proof.
  intros mapValue.
  apply (inferred_properties sortedIteration
           (generatorWith true false false) mapValue "app");
    [reflexivity|].
  unfold mapValue. simpl. apply (bool_decide_unpack _). vm_compute. exact I.
Defined.

(** X3: for a mapping with distinct keys that holds no [map[any]any],
    [GenerateFromMap] returns a root of type object that takes the schema
    version, title and description of the options, holds under every key the
    node inferred from that key's value at the path made of the key alone,
    holds nothing under any other key (so an empty mapping yields an empty,
    non-nil properties map), and lists as required the non-nil keys under
    [RequireByDefault] only. *)
Theorem GenerateFromMap_root iter g data :
  stringKeyed (VMap data) = true ->
  NoDup (map fst data) ->
  exists root properties,
    GenerateFromMap iter g data = Ok root
    /\ Type_ root = TypeOne TypeObject
    /\ Properties root = Some properties
    /\ Schema_ root = SchemaVersion (Options g)
    /\ Title root = OptTitle (Options g)
    /\ Description root = OptDescription (Options g)
    /\ (forall k v,
           In (k, v) data ->
           exists child,
             nodeAt root k = Some child
             /\ inferSchema iter g v k = Ok child)
    /\ (forall k, ~ In k (map fst data) -> nodeAt root k = None)
    /\ Required root
       = if RequireByDefault (Options g) then nonNilKeys data else [].
Proof.
  intros Hkeyed Hnodup. simpl in Hkeyed.
  destruct (GenerateFromMap_loop_spec iter g data Hkeyed [] [])
    as (props & req & Hloop & _ & _); [discriminate|].
  unfold GenerateFromMap. rewrite Hloop.
  destruct (GenerateFromMap_loop_result iter g data [] [] props req
              Hloop Hnodup) as (Hin & Hout & Hreq).
  eexists. exists props. split; [reflexivity|].
  unfold nodeAt. simpl. repeat split; auto.
Qed.

Lemma GenerateFromMap_root_witness :
  let g := generatorWith true false false in
  let data :=
    [("name", VString "app"); ("replicas", VInt 2); ("extra", VNil)] in
  exists root properties child,
    GenerateFromMap sortedIteration g data = Ok root
    /\ Type_ root = TypeOne TypeObject
    /\ Properties root = Some properties
    /\ Schema_ root = Draft07
    /\ nodeAt root "replicas" = Some child
    /\ inferSchema sortedIteration g (VInt 2) "replicas" = Ok child
    /\ nodeAt root "image" = None
    /\ Required root = ["name"; "replicas"].
Proof.
  intros g data.
  destruct (GenerateFromMap_root sortedIteration g data)
    as (root & properties & Hrun & Hty & Hprops & Hversion & _ & _ & Hin
        & Hout & Hreq);
    [reflexivity|apply (bool_decide_unpack _); vm_compute; exact I|].
  destruct (Hin "replicas" (VInt 2)) as (child & Hchild & Hinfer);
    [right; left; reflexivity|].
  exists root, properties, child. repeat split; auto.
  apply Hout. intros [H|[H|[H|[]]]]; discriminate H.
Defined.

(** X4: no node of a tree [inferSchema] returns has a description, and when
    [IncludeExamples] is off none has a default or examples either. *)
Theorem inferred_tree_bare iter g value path :
  stringKeyed value = true ->
  exists schema,
    inferSchema iter g value path = Ok schema
    /\ allNodes (bare (IncludeExamples (Options g))) schema = true.
Proof.
  intros Hkeyed.
  destruct (inferSchema_total iter g value Hkeyed path) as [schema Hok].
  exists schema. split; [exact Hok|].
  by eapply inferSchema_bare.
Qed.

Lemma inferred_tree_bare_witness :
  exists schema,
    inferSchema sortedIteration
      (generatorWith false false false)
      (VMap [("ports", VSlice [VInt 80; VInt 443]); ("debug", VBool true)])
      "service" = Ok schema
    /\ allNodes (bare false) schema = true.
Proof.
  apply (inferred_tree_bare sortedIteration
           (generatorWith false false false)).
  reflexivity.
Defined.

(** ** Conversion of the decoded tree *)

Lemma convertItems_identity xs :
  Forall (fun v => stringKeyed v = true -> convertYAMLToStringMap v = Ok v) xs ->
  forallb stringKeyed xs = true ->
  convertItems xs = Ok xs.
Proof.
  induction 1 as [|x rest Hx _ IH]; simpl; intros Hall; [reflexivity|].
  apply andb_true_iff in Hall as [Hhead Hrest].
  by rewrite (Hx Hhead), (IH Hrest).
Qed.

Lemma convert_identity v :
  stringKeyed v = true -> convertYAMLToStringMap v = Ok v.
Proof.
  induction v as [|b|n|n|f|str|xs IH|m IH|m IH] using Value_nested_ind;
    intros Hkeyed; try reflexivity.
  - rewrite convert_VSlice. simpl in Hkeyed.
    by rewrite (convertItems_identity xs IH Hkeyed).
  - discriminate Hkeyed.
Qed.

(** X5: [convertYAMLToStringMap] never panics; it fails exactly when some
    mapping of the tree has a key that is not a string, and the error then
    holds the first such key, in the order of the walk through the tree. *)
Theorem convert_fails_on_nonstring_key_only (v : Value) :
  match convertYAMLToStringMap v with
  | Ok _ => hasNonStringKey v = false /\ nonStringKeys v = []
  | Err e =>
      hasNonStringKey v = true
      /\ exists k,
           head (nonStringKeys v) = Some k
           /\ isString k = false
           /\ e = ErrNonStringKey k
  | Panic => False
  end.
Proof.
  destruct (convert_spec v) as [Hbad Hgood].
  pose proof (convert_reports v) as Hfirst. unfold reportsFirstKey in Hfirst.
  destruct (hasNonStringKey v).
  - destruct (Hbad eq_refl) as (k & _ & Hconv). rewrite Hconv in Hfirst |- *.
    split; [reflexivity|exact Hfirst].
  - destruct (Hgood eq_refl) as (v' & Hconv & _). rewrite Hconv in Hfirst |- *.
    split; [reflexivity|exact Hfirst].
Qed.

(** X6: on a tree as yaml.v2 decodes it, without non-string key, the result
    of [convertYAMLToStringMap] holds no [map[any]any] any more, is a
    mapping exactly when the input is one, and is left as it is by a second
    conversion. *)
Theorem convert_settles (v : Value) :
  yamlDecoded v = true ->
  hasNonStringKey v = false ->
  exists v',
    convertYAMLToStringMap v = Ok v'
    /\ stringKeyed v' = true
    /\ isMapping v' = isMapping v
    /\ convertYAMLToStringMap v' = Ok v'.
Proof.
  intros Hdecoded Hkeys.
  destruct (convert_spec v) as [_ Hgood].
  destruct (Hgood Hkeys) as (v' & Hconv & Hshape & Hkeyed).
  exists v'. repeat split; auto. apply convert_identity. auto.
Qed.

Lemma convert_settles_witness :
  let v :=
    VRawMap [(VString "service",
              VRawMap [(VString "ports", VSlice [VInt 80; VInt 443])])] in
  exists v',
    convertYAMLToStringMap v = Ok v'
    /\ stringKeyed v' = true
    /\ isMapping v' = true
    /\ convertYAMLToStringMap v' = Ok v'.
Proof.
  intros v. exact (convert_settles v eq_refl eq_refl).
Defined.

(** X7: [GenerateFromYAML] passes on a failure of the decoder, wrapped; on a
    tree as yaml.v2 decodes it, it never panics and returns a schema exactly
    when the root is a mapping and no mapping of the tree has a non-string
    key. *)
Theorem GenerateFromYAML_outcome iter Unmarshal g yamlData :
  (forall e,
      Unmarshal yamlData = Err e ->
      GenerateFromYAML iter Unmarshal g yamlData
      = Err (ErrWrap "failed to unmarshal YAML" e))
  /\ (forall data,
         Unmarshal yamlData = Ok data ->
         yamlDecoded data = true ->
         GenerateFromYAML iter Unmarshal g yamlData <> Panic
         /\ (isMapping data && negb (hasNonStringKey data) = true
             <-> exists schema,
                   GenerateFromYAML iter Unmarshal g yamlData = Ok schema)).
Proof.
  split.
  - intros e He. unfold GenerateFromYAML. by rewrite He.
  - intros data Hdata Hdecoded.
    destruct (hasNonStringKey data) eqn:Hkeys.
    + destruct (convert_spec data) as [Hbad _].
      destruct (Hbad Hkeys) as (k & _ & Hconv).
      assert (Hrun : GenerateFromYAML iter Unmarshal g yamlData
                     = Err (ErrWrap "failed to convert YAML"
                              (ErrNonStringKey k))).
      { unfold GenerateFromYAML. by rewrite Hdata, Hconv. }
      rewrite Hrun, andb_false_r. split; [discriminate|].
      split; [discriminate|]. intros [schema Hs]. discriminate Hs.
    + destruct data as [| | | | | |xs|m|entries]; try discriminate Hdecoded;
        try (unfold GenerateFromYAML; rewrite Hdata; simpl;
             split; [discriminate|]; split; [discriminate|];
             intros [schema Hs]; discriminate Hs).
      * destruct (convert_spec (VSlice xs)) as [_ Hgood].
        destruct (Hgood Hkeys) as (v' & Hconv & Hshape & _).
        unfold GenerateFromYAML. rewrite Hdata, Hconv.
        destruct v'; try discriminate Hshape;
          (split; [discriminate|]; split; [discriminate|];
           intros [schema Hs]; discriminate Hs).
      * destruct (GenerateFromYAML_ok iter Unmarshal g yamlData entries
                    Hdata Hkeys Hdecoded) as (root & Hrun & _).
        rewrite Hrun. split; [discriminate|]. split; [eauto|reflexivity].
Qed.

(** ** The pattern table *)

Lemma lookupMappings_first ms pathLower :
  match lookupMappings ms pathLower with
  | Some ts =>
      exists earlier mapping later,
        ms = earlier ++ mapping :: later
        /\ forallb (fun m => negb (ruleMatches pathLower m)) earlier = true
        /\ ruleMatches pathLower mapping = true
        /\ ts = types mapping
  | None => forallb (fun m => negb (ruleMatches pathLower m)) ms = true
  end.
Proof.
  induction ms as [|m ms IH]; simpl; [reflexivity|].
  fold (ruleMatches pathLower m).
  destruct (ruleMatches pathLower m) eqn:Hm.
  - exists [], m, ms. auto.
  - destruct (lookupMappings ms pathLower) as [ts|].
    + destruct IH as (earlier & mapping & later & -> & He & Hmatch & ->).
      exists (m :: earlier), mapping, later. simpl. rewrite Hm. auto.
    + exact IH.
Qed.

(** X9: every type list the lookup returns is a union of at least two
    distinct tags. *)
Theorem pattern_types_are_unions path ts :
  shouldSupportMultipleTypes path = Some ts ->
  (2 <= length ts)%nat /\ NoDup ts.
Proof.
  intros Hmatch.
  pose proof (lookupMappings_first patternMappings (Strings.ToLower path))
    as Hfirst.
  unfold shouldSupportMultipleTypes in Hmatch. rewrite Hmatch in Hfirst.
  destruct Hfirst as (earlier & mapping & later & Htable & _ & _ & ->).
  assert (Hall : forallb (fun m => bool_decide
                              ((2 <= length (types m))%nat /\ NoDup (types m)))
                   patternMappings = true) by (vm_compute; reflexivity).
  rewrite forallb_forall in Hall.
  eapply bool_decide_eq_true_1, Hall. rewrite Htable.
  apply in_or_app. right. by left.
Qed.

Lemma pattern_types_are_unions_witness :
  shouldSupportMultipleTypes "ingress.tls" = Some [TypeBoolean; TypeString]
  /\ (2 <= length [TypeBoolean; TypeString])%nat
  /\ NoDup [TypeBoolean; TypeString].
Proof.
  split; [reflexivity|].
  exact (pattern_types_are_unions "ingress.tls" [TypeBoolean; TypeString]
           eq_refl).
Defined.

(** ** Heterogeneous sequences, continued *)

Lemma hasMixedTypes_same_keys items items' :
  keysOf items = keysOf items' ->
  hasMixedTypes items = hasMixedTypes items'.
Proof.
  intros Hkeys.
  pose proof (MixedTypesFacts.hasMixedTypes_keys items) as H1.
  pose proof (MixedTypesFacts.hasMixedTypes_keys items') as H2.
  rewrite Hkeys in H1.
  destruct (hasMixedTypes items), (hasMixedTypes items'); auto.
  - symmetry. apply H2, H1. reflexivity.
  - apply H1, H2. reflexivity.
Qed.

(** X10: the answer of [hasMixedTypes] does not depend on the order of the
    elements, although a nil element skips its early return; and once a
    sequence is heterogeneous it stays so when elements are added. *)
Theorem hasMixedTypes_order_and_growth (items items' : list Value) :
  (items ≡ₚ items' -> hasMixedTypes items = hasMixedTypes items')
  /\ (hasMixedTypes items = true -> hasMixedTypes (items ++ items') = true).
Proof.
  split.
  - intros Hperm. apply hasMixedTypes_same_keys.
    unfold keysOf. apply set_eq. intros k.
    rewrite !elem_of_list_to_set. by rewrite Hperm.
  - rewrite !MixedTypesFacts.hasMixedTypes_keys. intros Hsize.
    assert (Hsub : keysOf items
                   ⊆ keysOf (items ++ items')).
    { unfold keysOf. rewrite map_app.
      intros k. rewrite !elem_of_list_to_set, elem_of_app. auto. }
    apply subseteq_size in Hsub. lia.
Qed.

Lemma hasMixedTypes_order_and_growth_witness :
  hasMixedTypes [VNil; VInt 1; VString "a"]
  = hasMixedTypes [VString "a"; VNil; VInt 1]
  /\ hasMixedTypes ([VInt 1; VString "a"] ++ [VInt 2]) = true.
Proof.
  destruct (hasMixedTypes_order_and_growth [VNil; VInt 1; VString "a"]
              [VString "a"; VNil; VInt 1]) as [Horder _].
  destruct (hasMixedTypes_order_and_growth [VInt 1; VString "a"] [VInt 2])
    as [_ Hgrow].
  split; [apply Horder|apply Hgrow; vm_compute; reflexivity].
  change ([VNil; VInt 1; VString "a"]) with ([VNil; VInt 1] ++ [VString "a"]).
  change ([VString "a"; VNil; VInt 1]) with ([VString "a"] ++ [VNil; VInt 1]).
  apply Permutation_app_comm.
Defined.

Lemma typeOfName_typeName k t : typeOfName k = Some t -> k = typeName t.
Proof.
  unfold typeOfName.
  repeat match goal with
         | |- context [String.eqb k ?c] =>
             destruct (String.eqb_spec k c);
               [subst; intros [= <-]; reflexivity|]
         end.
  discriminate.
Qed.

Lemma typeOfName_typeMapKey item :
  typeOfName (typeMapKey item) = Some (itemTag item).
Proof. destruct item; reflexivity. Qed.

Lemma elem_of_typeMapOf k items :
  k ∈ typeMapOf items <-> exists x, In x items /\ typeMapKey x = k.
Proof.
  unfold typeMapOf.
  assert (Hgen : forall acc : gset string,
             k ∈ fold_left (fun typeMap item => {[typeMapKey item]} ∪ typeMap)
                   items acc
             <-> k ∈ acc \/ exists x, In x items /\ typeMapKey x = k).
  { induction items as [|item rest IH]; intros acc; simpl.
    - split; [auto|]. intros [H|(x & [] & _)]. exact H.
    - rewrite IH, elem_of_union, elem_of_singleton. split.
      + intros [[->|H]|(x & Hx & Hk)]; eauto 6.
      + intros [H|(x & [->|Hx] & Hk)]; eauto 6. }
  rewrite Hgen. split; [|auto]. intros [H|H]; [|exact H].
  by apply not_elem_of_empty in H.
Qed.

Lemma typeArrayOf_elem t names :
  In t (typeArrayOf names) <-> exists k, In k names /\ typeOfName k = Some t.
Proof.
  induction names as [|k names IH]; simpl.
  - split; [intros []|intros (k & [] & _)].
  - destruct (typeOfName k) as [t'|] eqn:Hk; simpl; rewrite IH; split.
    + intros [<-|(k' & Hin & Hk')]; eauto.
    + intros (k' & [<-|Hin] & Hk'); [left; congruence|eauto].
    + intros (k' & Hin & Hk'). eauto.
    + intros (k' & [<-|Hin] & Hk'); [congruence|eauto].
Qed.

Lemma typeArrayOf_NoDup names : NoDup names -> NoDup (typeArrayOf names).
Proof.
  induction 1 as [|k names Hfresh _ IH]; simpl; [constructor|].
  destruct (typeOfName k) as [t|] eqn:Hk; [|exact IH].
  constructor; [|exact IH].
  rewrite list_elem_of_In, typeArrayOf_elem. intros (k' & Hin & Hk').
  apply typeOfName_typeName in Hk, Hk'. subst k k'.
  apply Hfresh. by apply list_elem_of_In.
Qed.

(** X11: for a heterogeneous sequence [inferSchema] returns an array node
    whose items node carries nothing but a type list, and that list holds
    each tag observed among the elements (integers and floats both as
    number) exactly once, whatever the iteration order of the map and
    whatever the elements hold inside. *)
Theorem mixed_items_union iter g items path :
  hasMixedTypes items = true ->
  exists schema ts,
    inferSchema iter g (VSlice items) path = Ok schema
    /\ Items schema = Some (withType zeroSchema (TypeUnion ts))
    /\ NoDup ts
    /\ (forall t, In t ts <-> exists x, In x items /\ itemTag x = t).
Proof.
  intros Hmixed.
  destruct items as [|firstItem rest]; [discriminate Hmixed|].
  rewrite inferSchema_VSlice_cons, Hmixed.
  unfold InferArrayItemsWithMultipleTypes, InferArrayItems_with.
  rewrite Hmixed.
  set (items := firstItem :: rest) in *.
  exists (withChildren
            (leaf path (overrideType path (TypeOne TypeArray)) "" VNil None)
            None
            (Some (withType zeroSchema
                     (TypeUnion
                        (typeArrayOf (rangeKeys iter (typeMapOf items))))))),
    (typeArrayOf (rangeKeys iter (typeMapOf items))).
  split; [reflexivity|]. split; [reflexivity|].
  pose proof (rangeKeys_perm iter (typeMapOf items)) as Hperm.
  split.
  - apply typeArrayOf_NoDup. rewrite Hperm. apply NoDup_elements.
  - intros t. rewrite typeArrayOf_elem. split.
    + intros (k & Hin & Hk).
      apply list_elem_of_In in Hin. rewrite Hperm in Hin.
      apply elem_of_elements, elem_of_typeMapOf in Hin as (x & Hx & <-).
      exists x. split; [exact Hx|].
      rewrite typeOfName_typeMapKey in Hk. congruence.
    + intros (x & Hx & <-). exists (typeMapKey x).
      split; [|apply typeOfName_typeMapKey].
      apply list_elem_of_In. rewrite Hperm.
      apply elem_of_elements, elem_of_typeMapOf. eauto.
Qed.

Lemma mixed_items_union_witness :
  let items := [VInt 1; VString "two"; VFloat f64_2_5; VNil] in
  exists schema ts,
    inferSchema sortedIteration NewGeneratorWithDefaults (VSlice items) "args"
    = Ok schema
    /\ Items schema = Some (withType zeroSchema (TypeUnion ts))
    /\ NoDup ts
    /\ (forall t, In t ts <-> exists x, In x items /\ itemTag x = t).
Proof.
  intros items.
  apply (mixed_items_union sortedIteration NewGeneratorWithDefaults items "args").
  vm_compute. reflexivity.
Defined.

(** ** Strings that look like YAML *)

Lemma append_length a b :
  String.length (a +:+ b) = (String.length a + String.length b)%nat.
Proof. induction a as [|c a IH]; simpl; [reflexivity|by rewrite IH]. Qed.

Lemma HasPrefix_split s prefix :
  Strings.HasPrefix s prefix = true -> exists rest, s = prefix +:+ rest.
Proof.
  revert s. induction prefix as [|p prefix IH]; intros s H.
  - by exists s.
  - destruct s as [|c s]; [discriminate H|]. simpl in H.
    apply andb_true_iff in H as [Hc Hs]. apply Ascii.eqb_eq in Hc. subst c.
    destruct (IH s Hs) as [rest ->]. by exists rest.
Qed.

Lemma HasPrefix_app s sub x :
  Strings.HasPrefix s sub = true -> Strings.HasPrefix (s +:+ x) sub = true.
Proof.
  revert s. induction sub as [|p sub IH]; intros s H; [by destruct (s +:+ x)|].
  destruct s as [|c s]; [discriminate H|]. simpl in *.
  apply andb_true_iff in H as [-> Hs]. simpl. by apply IH.
Qed.

Lemma Contains_app s sub x :
  Strings.Contains s sub = true -> Strings.Contains (s +:+ x) sub = true.
Proof.
  induction s as [|c s IH]; intros H.
  - simpl in H. rewrite orb_false_r in H.
    destruct sub; [|discriminate H]. by destruct x.
  - simpl in H. apply orb_true_iff in H as [H|H].
    + change (String c s +:+ x) with (String c (s +:+ x)).
      change (Strings.Contains (String c (s +:+ x)) sub)
        with (Strings.HasPrefix (String c (s +:+ x)) sub
              || Strings.Contains (s +:+ x) sub).
      pose proof (HasPrefix_app (String c s) sub x H) as Hp.
      change (String c s +:+ x) with (String c (s +:+ x)) in Hp.
      by rewrite Hp.
    + change (String c s +:+ x) with (String c (s +:+ x)).
      change (Strings.Contains (String c (s +:+ x)) sub)
        with (Strings.HasPrefix (String c (s +:+ x)) sub
              || Strings.Contains (s +:+ x) sub).
      rewrite (IH H). apply orb_true_r.
Qed.

Lemma isSpace2_ascii c b :
  Strings.isASCIIByte c = true -> Strings.isSpace2 c b = false.
Proof.
  unfold Strings.isASCIIByte, Strings.isSpace2. intros H.
  apply Nat.ltb_lt in H.
  destruct (Nat.eqb_spec (nat_of_ascii c) 194) as [E|_]; [lia|reflexivity].
Qed.

Lemma isSpace3_ascii c b1 b2 :
  Strings.isASCIIByte c = true -> Strings.isSpace3 c b1 b2 = false.
Proof.
  unfold Strings.isASCIIByte, Strings.isSpace3. intros H.
  apply Nat.ltb_lt in H.
  destruct (Nat.eqb_spec (nat_of_ascii c) 225) as [E|_]; [lia|].
  destruct (Nat.eqb_spec (nat_of_ascii c) 226) as [E|_]; [lia|].
  destruct (Nat.eqb_spec (nat_of_ascii c) 227) as [E|_]; [lia|reflexivity].
Qed.

(** No white-space rune starts with a visible ASCII byte. *)
Lemma isSpaceRune_visible c s :
  Strings.isASCIIByte c = true -> Strings.isSpace c = false ->
  Strings.isSpaceRune (String c s) = false.
Proof.
  intros Hascii Hspace. destruct s as [|b1 [|b2 [|b3 s]]]; simpl.
  - exact Hspace.
  - by apply isSpace2_ascii.
  - by apply isSpace3_ascii.
  - reflexivity.
Qed.

Lemma TrimLeft_visible c s :
  Strings.isASCIIByte c = true -> Strings.isSpace c = false ->
  Strings.TrimLeftSpace (String c s) = String c s.
Proof.
  intros Hascii Hspace. simpl. rewrite Hspace.
  destruct s as [|b1 [|b2 s]]; rewrite ?(isSpace2_ascii c _ Hascii),
    ?(isSpace3_ascii c _ _ Hascii); reflexivity.
Qed.

Lemma TrimRight_cons c s :
  Strings.isASCIIByte c = true -> Strings.isSpace c = false ->
  Strings.TrimRightSpace (String c s) = String c (Strings.TrimRightSpace s).
Proof.
  intros Hascii Hspace.
  change (Strings.TrimRightSpace (String c s))
    with (if Strings.isSpaceRune (String c (Strings.TrimRightSpace s))
          then EmptyString else String c (Strings.TrimRightSpace s)).
  by rewrite (isSpaceRune_visible c _ Hascii Hspace).
Qed.

Lemma TrimRight_app prefix rest :
  Strings.isASCII prefix = true ->
  noneOf Strings.isSpace prefix = true ->
  Strings.TrimRightSpace (prefix +:+ rest)
  = prefix +:+ Strings.TrimRightSpace rest.
Proof.
  induction prefix as [|c prefix IH]; intros Hascii H; [reflexivity|].
  simpl in H, Hascii. apply andb_true_iff in H as [Hc Hp].
  apply andb_true_iff in Hascii as [Hac Hap].
  apply negb_true_iff in Hc.
  change (String c prefix +:+ rest) with (String c (prefix +:+ rest)).
  rewrite (TrimRight_cons c _ Hac Hc), (IH Hap Hp). reflexivity.
Qed.

Lemma TrimRight_length s :
  (String.length (Strings.TrimRightSpace s) <= String.length s)%nat.
Proof.
  induction s as [|c s IH]; [simpl; lia|].
  change (Strings.TrimRightSpace (String c s))
    with (if Strings.isSpaceRune (String c (Strings.TrimRightSpace s))
          then EmptyString else String c (Strings.TrimRightSpace s)).
  destruct (Strings.isSpaceRune _); simpl; lia.
Qed.

(** A string that starts with visible ASCII bytes keeps them under
    [TrimSpace]. *)
Lemma TrimSpace_plain_prefix c prefix rest :
  Strings.isASCII (String c prefix) = true ->
  noneOf Strings.isSpace (String c prefix) = true ->
  Strings.TrimSpace (String c prefix +:+ rest)
  = String c prefix +:+ Strings.TrimRightSpace rest.
Proof.
  intros Hascii H. unfold Strings.TrimSpace.
  assert (Hc : Strings.isSpace c = false).
  { simpl in H. apply andb_true_iff in H as [Hc _].
    by apply negb_true_iff in Hc. }
  assert (Hac : Strings.isASCIIByte c = true).
  { simpl in Hascii. by apply andb_true_iff in Hascii as [Hac _]. }
  change (String c prefix +:+ rest) with (String c (prefix +:+ rest)) at 1.
  rewrite (TrimLeft_visible c _ Hac Hc).
  change (String c (prefix +:+ rest)) with (String c prefix +:+ rest).
  by apply TrimRight_app.
Qed.

Lemma splitLF_head r :
  exists l0 ls,
    Strings.splitLF r = l0 :: ls
    /\ (String.length l0 <= String.length r)%nat.
Proof.
  induction r as [|c r (l0 & ls & Hsplit & Hlen)]; simpl.
  - exists "", []. auto.
  - destruct (Ascii.eqb c Strings.LF).
    + exists "", (Strings.splitLF r). split; [reflexivity|simpl; lia].
    + rewrite Hsplit. exists (String c l0), ls.
      split; [reflexivity|simpl; lia].
Qed.

Lemma not_space_not_LF c :
  Strings.isSpace c = false -> Ascii.eqb c Strings.LF = false.
Proof.
  intros H. destruct (Ascii.eqb_spec c Strings.LF) as [->|]; [|reflexivity].
  discriminate H.
Qed.

Lemma not_space_not_CR c :
  Strings.isSpace c = false -> Ascii.eqb c Strings.CR = false.
Proof.
  intros H. destruct (Ascii.eqb_spec c Strings.CR) as [->|]; [|reflexivity].
  discriminate H.
Qed.

Lemma splitLF_plain_prefix prefix r l0 ls :
  noneOf Strings.isSpace prefix = true ->
  Strings.splitLF r = l0 :: ls ->
  Strings.splitLF (prefix +:+ r) = (prefix +:+ l0) :: ls.
Proof.
  intros Hplain Hsplit.
  induction prefix as [|c prefix IH]; [exact Hsplit|].
  simpl in Hplain. apply andb_true_iff in Hplain as [Hc Hp].
  apply negb_true_iff in Hc.
  change (String c prefix +:+ r) with (String c (prefix +:+ r)).
  simpl. by rewrite (not_space_not_LF c Hc), (IH Hp).
Qed.

Lemma dropCR_plain_prefix prefix : forall c l0,
  noneOf Strings.isSpace (String c prefix) = true ->
  exists l0', Strings.dropCR (String c prefix +:+ l0) = String c prefix +:+ l0'.
Proof.
  induction prefix as [|d prefix IH]; intros c l0 Hplain.
  - simpl in Hplain. rewrite andb_true_r in Hplain.
    apply negb_true_iff in Hplain.
    destruct l0 as [|e l0].
    + exists "". simpl. by rewrite (not_space_not_CR c Hplain).
    + exists (Strings.dropCR (String e l0)). reflexivity.
  - change (noneOf Strings.isSpace (String c (String d prefix)))
      with (negb (Strings.isSpace c)
            && noneOf Strings.isSpace (String d prefix)) in Hplain.
    apply andb_true_iff in Hplain as [_ Hrest].
    destruct (IH d l0 Hrest) as [l0' Hdrop].
    exists l0'.
    change (String c (String d prefix) +:+ l0)
      with (String c (String d prefix +:+ l0)).
    change (Strings.dropCR (String c (String d prefix +:+ l0)))
      with (String c (Strings.dropCR (String d prefix +:+ l0))).
    by rewrite Hdrop.
Qed.

Lemma scanTokens_cons l rest :
  Strings.scanTokens (l :: rest)
  = if Z.of_nat (String.length l) <? Strings.MaxScanTokenSize
    then Strings.dropCR l :: Strings.scanTokens rest
    else [].
Proof. reflexivity. Qed.

Lemma hasKeyValueLine_cons text rest :
  hasKeyValueLine (text :: rest)
  = if String.eqb (Strings.TrimSpace text) ""
       || Strings.HasPrefix (Strings.TrimSpace text) "#"
    then hasKeyValueLine rest
    else if Strings.Contains (Strings.TrimSpace text) ":" then true
         else hasKeyValueLine rest.
Proof. reflexivity. Qed.

(** A string that starts with visible bytes holding a colon, the first of
    which opens neither a JSON text nor a comment, looks like YAML when its
    first line fits the scanner. *)
Lemma plain_prefix_is_likely c prefix rest :
  Strings.isASCII (String c prefix) = true ->
  noneOf Strings.isSpace (String c prefix) = true ->
  Ascii.eqb c "{" = false ->
  Ascii.eqb c "[" = false ->
  Ascii.eqb c "#" = false ->
  Strings.Contains (String c prefix) ":" = true ->
  Z.of_nat (String.length (String c prefix +:+ rest))
  < Strings.MaxScanTokenSize ->
  isLikelyYAMLOrJSON (String c prefix +:+ rest) = true.
Proof.
  intros Hascii Hplain Hbrace Hbracket Hhash Hcolon Hlen.
  unfold isLikelyYAMLOrJSON.
  rewrite (TrimSpace_plain_prefix c prefix rest Hascii Hplain).
  set (r := Strings.TrimRightSpace rest).
  assert (Hr : (String.length r <= String.length rest)%nat)
    by apply TrimRight_length.
  change (String c prefix +:+ r) with (String c (prefix +:+ r)) at 1 3.
  simpl Strings.HasPrefix. rewrite Hbrace, Hbracket. simpl orb.
  cbv iota.
  destruct (splitLF_head r) as (l0 & ls & Hsplit & Hl0).
  unfold Strings.ScanLines.
  rewrite (splitLF_plain_prefix (String c prefix) r l0 ls Hplain Hsplit).
  assert (Hdrop : exists ls',
             Strings.dropEmptyLast ((String c prefix +:+ l0) :: ls)
             = (String c prefix +:+ l0) :: ls').
  { change (String c prefix +:+ l0) with (String c (prefix +:+ l0)).
    destruct ls; simpl; eauto. }
  destruct Hdrop as [ls' ->].
  assert (Hfit : (Z.of_nat (String.length (String c prefix +:+ l0))
                  <? Strings.MaxScanTokenSize) = true).
  { apply Z.ltb_lt. rewrite append_length in *. lia. }
  rewrite scanTokens_cons, Hfit.
  destruct (dropCR_plain_prefix prefix c l0 Hplain) as [l0' ->].
  rewrite hasKeyValueLine_cons.
  rewrite (TrimSpace_plain_prefix c prefix l0' Hascii Hplain).
  set (x := Strings.TrimRightSpace l0').
  rewrite (Contains_app (String c prefix) ":" x Hcolon).
  change (String c prefix +:+ x) with (String c (prefix +:+ x)).
  simpl. by rewrite Hhash.
Qed.

(** X12: a string that [isURI] accepts and that is shorter than the
    scanner's limit looks like YAML to [isLikelyYAMLOrJSON], because of the
    colon of its scheme; so [inferSchema] never gives it the single type
    string nor the format uri: it gets a union type and no format. *)
Theorem uri_strings_get_no_format iter g strValue path :
  isURI strValue = true ->
  Z.of_nat (String.length strValue) < Strings.MaxScanTokenSize ->
  isLikelyYAMLOrJSON strValue = true
  /\ exists schema ts,
       inferSchema iter g (VString strValue) path = Ok schema
       /\ Format schema = ""
       /\ Type_ schema = TypeUnion ts.
Proof.
  intros Huri Hlen.
  assert (Hlikely : isLikelyYAMLOrJSON strValue = true).
  { unfold isURI in Huri. apply orb_true_iff in Huri as [Hp|Hp];
      apply HasPrefix_split in Hp as [rest ->];
      apply plain_prefix_is_likely; auto. }
  split; [exact Hlikely|].
  simpl. rewrite Hlikely.
  destruct (shouldSupportMultipleTypes path) as [types|];
    destruct ((String.eqb path "enabled" || Strings.HasSuffix path ".enabled")
              && String.eqb strValue "-");
    eexists; eexists; repeat split; reflexivity.
Qed.

Lemma uri_strings_get_no_format_witness :
  isLikelyYAMLOrJSON "https://charts.example.com" = true
  /\ exists schema ts,
       inferSchema sortedIteration NewGeneratorWithDefaults
         (VString "https://charts.example.com") "homepage" = Ok schema
       /\ Format schema = ""
       /\ Type_ schema = TypeUnion ts.
Proof.
  apply (uri_strings_get_no_format sortedIteration NewGeneratorWithDefaults
           "https://charts.example.com" "homepage");
    [reflexivity|vm_compute; reflexivity].
Defined.

(** ** Comment extraction, continued *)

(** Lines that are no key lines move nothing but the comment buffers. *)
Lemma scan_nonkey_lines lines : forall st,
  forallb (fun line => negb (isKeyLine line)) lines = true ->
  let st' := fold_left scanLine lines st in
  indentToPath st' = indentToPath st
  /\ lineIndents st' = lineIndents st
  /\ foundFirstKey st' = foundFirstKey st
  /\ found st' = found st
  /\ pendingComments st'
     = fold_left
         (fun acc line =>
            if isCommentLine line then accumulate acc (commentText line)
            else acc) lines (pendingComments st).
Proof.
  induction lines as [|line lines IH]; intros st Hall; simpl.
  - auto.
  - simpl in Hall. apply andb_true_iff in Hall as [Hline Hall].
    apply negb_true_iff in Hline.
    rewrite (isKeyLine_false_scan st line Hline).
    destruct (isCommentLine line); [|by apply IH].
    destruct (IH {| indentToPath := indentToPath st;
                    pendingComments :=
                      accumulate (pendingComments st) (commentText line);
                    topLevelComment :=
                      if foundFirstKey st then topLevelComment st
                      else accumulate (topLevelComment st) (commentText line);
                    lineIndents := lineIndents st;
                    foundFirstKey := foundFirstKey st;
                    found := found st |} Hall)
      as (H1 & H2 & H3 & H4 & H5).
    auto.
Qed.

Lemma keyPath_same st st' line :
  indentToPath st' = indentToPath st ->
  lineIndents st' = lineIndents st ->
  keyPath st' line = keyPath st line.
Proof. intros H1 H2. unfold keyPath. by rewrite H1, H2. Qed.

(** X13: whatever was scanned before, when no comment is pending, the
    comment lines met before the next key line - with any blank lines and
    other lines without a colon among them - are recorded under the path of
    that key line as one text: the texts of the comment lines, from the
    first one that is not empty on, joined by line feeds; and the buffer is
    empty again. *)
Theorem comments_land_on_next_key st lines keyLine :
  pendingComments st = "" ->
  forallb (fun line => negb (isKeyLine line)) lines = true ->
  isKeyLine keyLine = true ->
  commentBlock lines <> "" ->
  found (fold_left scanLine (lines ++ [keyLine]) st)
    !! Strings.Join (keyPath st keyLine) "."
  = Some (commentBlock lines)
  /\ pendingComments (fold_left scanLine (lines ++ [keyLine]) st) = "".
Proof.
  intros Hpending Hlines Hkey Htext.
  rewrite <- (leadingComment_block lines) in *.
  destruct (scan_nonkey_lines lines st Hlines) as (Hi & Hl & _ & _ & Hp).
  rewrite fold_left_app. simpl.
  rewrite (isKeyLine_true_scan _ keyLine Hkey). simpl.
  rewrite Hp, Hpending. fold (leadingComment lines).
  apply String.eqb_neq in Htext. rewrite Htext. simpl.
  rewrite (keyPath_same st _ keyLine Hi Hl).
  split; [apply lookup_insert_eq|reflexivity].
Qed.

Lemma comments_land_on_next_key_witness :
  let st :=
    fold_left scanLine ["items:"] (initialScan NewCommentExtractor) in
  let lines := ["  # first"; "  - one"; "  # second"; "  - two"] in
  found (fold_left scanLine (lines ++ ["  next: 1"]) st) !! "items.next"
  = Some ("first" +:+ newline +:+ "second")
  /\ pendingComments (fold_left scanLine (lines ++ ["  next: 1"]) st) = "".
Proof.
  intros st lines.
  apply (comments_land_on_next_key st lines "  next: 1");
    try (vm_compute; reflexivity).
  vm_compute. discriminate.
Defined.

Lemma TrimLeft_length f s :
  (String.length (Strings.TrimLeftFunc f s) <= String.length s)%nat.
Proof.
  induction s as [|c s IH]; simpl; [lia|]. destruct (f c); simpl; lia.
Qed.

Lemma lineIndent_nonneg line : 0 <= lineIndent line.
Proof.
  unfold lineIndent, Strings.TrimLeftSpaces.
  pose proof (TrimLeft_length (fun c => Ascii.eqb c " "%char) line). lia.
Qed.

Lemma truncateAt_last lineIndents indent kept :
  truncateAt lineIndents indent = Some kept ->
  exists front, kept = front ++ [indent].
Proof.
  revert kept. induction lineIndents as [|lvl rest IH]; simpl; intros kept H;
    [discriminate|].
  destruct (Z.eqb_spec lvl indent) as [->|_].
  - injection H as <-. by exists [].
  - destruct (truncateAt rest indent) as [kept'|]; [|discriminate].
    injection H as <-. destruct (IH kept' eq_refl) as [front ->].
    by exists (lvl :: front).
Qed.

(** After a key line its indentation is the last tracked level and its
    path is stored at that level. *)
Lemma scan_key_line_tracks st line :
  isKeyLine line = true ->
  (exists front,
      lineIndents (scanLine st line) = front ++ [lineIndent line])
  /\ indentToPath (scanLine st line) !! lineIndent line
     = Some (keyPath st line).
Proof.
  intros Hkey. rewrite (isKeyLine_true_scan st line Hkey). simpl. split.
  - destruct (truncateAt (lineIndents st) (lineIndent line)) as [kept|] eqn:Ht.
    + by apply truncateAt_last in Ht.
    + by exists (lineIndents st).
  - apply lookup_insert_eq.
Qed.

(** X14: a key line indented deeper than the key line before it - with
    any comment lines, blank lines and other lines without a colon between
    the two - gets the path of that key line followed by its own key. *)
Theorem deeper_key_extends_path st parentLine between childLine :
  isKeyLine parentLine = true ->
  forallb (fun line => negb (isKeyLine line)) between = true ->
  lineIndent parentLine < lineIndent childLine ->
  keyPath (fold_left scanLine (parentLine :: between) st) childLine
  = keyPath st parentLine ++ [lineKey childLine].
Proof.
  intros Hparent Hbetween Hdeeper. simpl.
  destruct (scan_nonkey_lines between (scanLine st parentLine) Hbetween)
    as (Hi & Hl & _).
  rewrite (keyPath_same _ _ childLine Hi Hl).
  destruct (scan_key_line_tracks st parentLine Hparent) as [[front Hlast] Hpath].
  unfold keyPath at 1. rewrite Hlast, rev_app_distr. simpl.
  apply Z.ltb_lt in Hdeeper. rewrite Hdeeper.
  pose proof (lineIndent_nonneg parentLine) as Hnonneg.
  apply Z.leb_le in Hnonneg. by rewrite Hnonneg, Hpath.
Qed.

Lemma deeper_key_extends_path_witness :
  keyPath
    (fold_left scanLine ["  service:"; "    # the port"; ""]
       (fold_left scanLine ["app:"] (initialScan NewCommentExtractor)))
    "    port: 80"
  = ["app"; "service"; "port"].
Proof.
  apply (deeper_key_extends_path
           (fold_left scanLine ["app:"] (initialScan NewCommentExtractor))
           "  service:" ["    # the port"; ""] "    port: 80");
    vm_compute; reflexivity.
Defined.

Lemma truncateAt_sublist lineIndents indent kept :
  truncateAt lineIndents indent = Some kept ->
  forall lvl, In lvl kept -> In lvl lineIndents.
Proof.
  revert kept. induction lineIndents as [|l rest IH]; simpl; intros kept H;
    [discriminate|].
  destruct (l =? indent).
  - injection H as <-. intros lvl [<-|[]]. by left.
  - destruct (truncateAt rest indent) as [kept'|]; [|discriminate].
    injection H as <-. intros lvl [<-|Hin]; [by left|right; eauto].
Qed.

Lemma scan_indents_nonneg lines : forall st,
  (forall lvl, In lvl (lineIndents st) -> 0 <= lvl) ->
  forall lvl, In lvl (lineIndents (fold_left scanLine lines st)) -> 0 <= lvl.
Proof.
  induction lines as [|line lines IH]; intros st Hst; simpl; [exact Hst|].
  apply IH. destruct (isKeyLine line) eqn:Hk.
  - rewrite (isKeyLine_true_scan st line Hk). simpl.
    destruct (truncateAt (lineIndents st) (lineIndent line)) as [kept|] eqn:Ht.
    + intros lvl Hin. eapply Hst, truncateAt_sublist; eauto.
    + intros lvl Hin. apply in_app_or in Hin as [Hin|[<-|[]]]; [by apply Hst|].
      apply lineIndent_nonneg.
  - rewrite (isKeyLine_false_scan st line Hk).
    by destruct (isCommentLine line).
Qed.

Lemma findParentLevel_none levels :
  (forall lvl, In lvl levels -> 0 <= lvl) -> findParentLevel levels 0 = -1.
Proof.
  induction levels as [|lvl levels IH]; intros H; simpl; [reflexivity|].
  assert (Hlvl : 0 <= lvl) by (apply H; by left).
  destruct (Z.ltb_spec lvl 0); [lia|]. apply IH. intros l Hl. apply H.
  by right.
Qed.

(** X15: wherever it stands in a document, a key line that is not indented
    gets the one-component path made of its key. *)
Theorem unindented_key_is_top_level e lines line :
  lineIndent line = 0 ->
  keyPath (fold_left scanLine lines (initialScan e)) line = [lineKey line].
Proof.
  intros Hindent. unfold keyPath. rewrite Hindent.
  rewrite findParentLevel_none; [reflexivity|].
  intros lvl Hin. apply in_rev in Hin.
  eapply (scan_indents_nonneg lines (initialScan e)); [|exact Hin].
  intros l [].
Qed.

Lemma unindented_key_is_top_level_witness :
  let nbsp := String (ascii_of_nat 194) (String (ascii_of_nat 160) "") in
  let st :=
    fold_left scanLine ["a:"; "  b:"; "    c: 1"; "  d: 2"]
      (initialScan NewCommentExtractor) in
  keyPath st "e: 3" = ["e"] /\ keyPath st (nbsp +:+ "sub: 2") = ["sub"].
Proof.
  intros nbsp st. split.
  - apply (unindented_key_is_top_level NewCommentExtractor
             ["a:"; "  b:"; "    c: 1"; "  d: 2"] "e: 3").
    reflexivity.
  - apply (unindented_key_is_top_level NewCommentExtractor
             ["a:"; "  b:"; "    c: 1"; "  d: 2"] (nbsp +:+ "sub: 2")).
    reflexivity.
Defined.

Lemma scan_without_comments lines : forall st,
  forallb (fun line => negb (isCommentLine line)) lines = true ->
  pendingComments st = "" ->
  let st' := fold_left scanLine lines st in
  pendingComments st' = "" /\ topLevelComment st' = topLevelComment st
  /\ found st' = found st.
Proof.
  induction lines as [|line lines IH]; intros st Hall Hp; simpl; [auto|].
  simpl in Hall. apply andb_true_iff in Hall as [Hline Hall].
  apply negb_true_iff in Hline.
  destruct (isKeyLine line) eqn:Hk.
  - destruct (IH (scanLine st line) Hall) as (H1 & H2 & H3).
    { rewrite (isKeyLine_true_scan st line Hk). reflexivity. }
    rewrite H1, H2, H3, (isKeyLine_true_scan st line Hk). simpl.
    by rewrite Hp.
  - rewrite (isKeyLine_false_scan st line Hk), Hline. by apply IH.
Qed.

(** X16: from a text without comment lines [ExtractFromYAML] records
    nothing: the map of the extractor is left as it was.  Trailing comments
    on key lines do not count. *)
Theorem no_comment_lines_no_entries e yamlData :
  forallb (fun line => negb (isCommentLine line)) (Strings.ScanLines yamlData)
  = true ->
  comments (ExtractFromYAML e yamlData) = comments e.
Proof.
  intros Hall. unfold ExtractFromYAML, finishScan.
  destruct (scan_without_comments (Strings.ScanLines yamlData)
              (initialScan e) Hall eq_refl) as (_ & Htop & Hfound).
  simpl. by rewrite Htop, Hfound.
Qed.

Lemma no_comment_lines_no_entries_witness :
  comments
    (ExtractFromYAML NewCommentExtractor
       ("key1: value1  # an inline comment" +:+ newline +:+ "key2: 2"
        +:+ newline))
  = ∅.
Proof.
  apply (no_comment_lines_no_entries NewCommentExtractor).
  vm_compute. reflexivity.
Defined.

(** ** Applying the comments *)






(** ** The linter, continued *)

Lemma checkName_prepend path propName before issues :
  checkName path propName (before ++ issues)
  = prepend before (checkName path propName issues).
Proof.
  unfold checkName. destruct (Strings.slice_to_1 propName); [|reflexivity].
  simpl.
  repeat match goal with
         | |- context [if ?b then _ else _] => destruct b
         end;
    by rewrite <- ?app_assoc.
Qed.

Lemma checkNames_prepend path names : forall before issues,
  checkNames path names (before ++ issues)
  = prepend before (checkNames path names issues).
Proof.
  induction names as [|name names IH]; intros before issues; simpl;
    [reflexivity|].
  rewrite checkName_prepend.
  destruct (checkName path name issues); simpl; auto.
Qed.

Lemma checkNamingConventions_prepend schema path before issues :
  checkNamingConventions schema path (before ++ issues)
  = prepend before (checkNamingConventions schema path issues).
Proof.
  unfold checkNamingConventions.
  destruct (Properties schema); [|reflexivity].
  destruct (String.eqb path ""); [reflexivity|]. apply checkNames_prepend.
Qed.

Lemma checkNestingDepth_prepend depth path before issues :
  checkNestingDepth depth path (before ++ issues)
  = before ++ checkNestingDepth depth path issues.
Proof.
  unfold checkNestingDepth.
  destruct (MaxNestingDepth <? depth); by rewrite <- ?app_assoc.
Qed.

Lemma checkArrayStructures_prepend schema path before issues :
  checkArrayStructures schema path (before ++ issues)
  = before ++ checkArrayStructures schema path issues.
Proof.
  unfold checkArrayStructures.
  repeat match goal with
         | |- context [if ?b then _ else _] => destruct b
         | |- context [match ?o with Some _ => _ | None => _ end] => destruct o
         end;
    by rewrite <- ?app_assoc.
Qed.

Lemma checkDocumentation_prepend schema path before issues :
  checkDocumentation schema path (before ++ issues)
  = before ++ checkDocumentation schema path issues.
Proof.
  unfold checkDocumentation.
  destruct (String.eqb path ""); [reflexivity|].
  destruct (String.eqb (Description schema) "");
    match goal with
    | |- context [if ?b then _ else _] => destruct b
    end;
    by rewrite <- ?app_assoc.
Qed.

Lemma validateProperties_prepend path depth props :
  Forall (fun kv =>
            forall p d before issues,
              validateSchema (snd kv) p d (before ++ issues)
              = prepend before (validateSchema (snd kv) p d issues)) props ->
  forall before issues,
    validateProperties path depth props (before ++ issues)
    = prepend before (validateProperties path depth props issues).
Proof.
  induction 1 as [|[propName propSchema] rest Hchild _ IH];
    intros before issues; simpl; [reflexivity|].
  simpl in Hchild. rewrite Hchild.
  destruct (validateSchema propSchema _ (depth + 1) issues); simpl; auto.
Qed.

Lemma validateSchema_prepend schema :
  forall path depth before issues,
    validateSchema schema path depth (before ++ issues)
    = prepend before (validateSchema schema path depth issues).
Proof.
  induction schema as [sv title description ty format properties required
                         items minItems maxItems enum default examples
                         helmPath IHprops IHitems] using Schema_nested_ind.
  intros path depth before issues.
  set (schema := mkSchema sv title description ty format properties required
                   items minItems maxItems enum default examples helmPath).
  rewrite !validateSchema_unfold, checkNamingConventions_prepend.
  destruct (checkNamingConventions schema path issues) as [named|e|];
    [|reflexivity..].
  simpl prepend at 1. cbv beta iota zeta.
  rewrite checkNestingDepth_prepend, checkArrayStructures_prepend,
    checkDocumentation_prepend.
  set (issues2 := checkDocumentation schema path
                    (checkArrayStructures schema path
                       (checkNestingDepth depth path named))).
  change (Properties schema) with properties.
  change (Items schema) with items.
  assert (Hprops :
    match properties with
    | Some props => validateProperties path depth props (before ++ issues2)
    | None => Ok (before ++ issues2)
    end
    = prepend before
        match properties with
        | Some props => validateProperties path depth props issues2
        | None => Ok issues2
        end).
  { destruct properties as [props|]; [|reflexivity].
    by apply validateProperties_prepend. }
  rewrite Hprops.
  destruct (match properties with
            | Some props => validateProperties path depth props issues2
            | None => Ok issues2
            end) as [issues3|e|]; [|reflexivity..].
  simpl prepend at 1.
  destruct (hasArrayType schema); [|reflexivity].
  destruct items as [itemSchema|]; [|reflexivity].
  apply IHitems.
Qed.

(** X18: the list [validateSchema] is given is only added to.  A run
    returns the diagnostics it was given followed by those the same run
    returns from an empty list, in the same order, and it panics in the one
    case exactly when it panics in the other: nothing collected is dropped,
    reordered or looked at. *)
Theorem validateSchema_appends schema path depth issues :
  validateSchema schema path depth issues
  = prepend issues (validateSchema schema path depth []).
Proof.
  rewrite <- (app_nil_r issues) at 1. apply validateSchema_prepend.
Qed.

Lemma validateProperties_finds path depth props : forall issues out key child,
  validateProperties path depth props issues = Ok out ->
  mapGet props key = Some child ->
  exists before run,
    validateSchema child (childPath path key) (depth + 1) before = Ok run
    /\ incl run out.
Proof.
  induction props as [|[propName propSchema] rest IH];
    intros issues out key child Hrun Hget; simpl in *; [discriminate|].
  fold (childPath path propName) in Hrun.
  destruct (validateSchema propSchema (childPath path propName) (depth + 1)
              issues) as [mid|e|] eqn:Hchild; [|discriminate..].
  destruct (String.eqb_spec propName key) as [->|_].
  - injection Hget as <-. exists issues, mid. split; [exact Hchild|].
    rewrite <- (app_nil_r mid) in Hrun.
    rewrite (validateProperties_prepend path depth rest) in Hrun.
    + destruct (validateProperties path depth rest []); [|discriminate..].
      injection Hrun as <-. apply incl_appl, incl_refl.
    + apply Forall_forall. intros kv _. apply validateSchema_prepend.
  - by apply (IH mid out key child).
Qed.

Lemma validateSchema_reaches position :
  forall root path depth issues out node,
    validateSchema root path depth issues = Ok out ->
    subtree root position = Some node ->
    lintReaches root position = true ->
    exists before run,
      validateSchema node (lintPath path position)
        (depth + Z.of_nat (length position)) before = Ok run
      /\ incl run out.
Proof.
  induction position as [|[key|] rest IH];
    intros root path depth issues out node Hrun Hsub Hreach; simpl in *.
  - injection Hsub as <-. exists issues, out.
    rewrite Z.add_0_r. split; [exact Hrun|apply incl_refl].
  - destruct (nodeAt root key) as [child|] eqn:Hchild; [|discriminate].
    rewrite validateSchema_unfold in Hrun.
    destruct (checkNamingConventions root path issues) as [named|e|];
      [|discriminate..].
    cbv zeta in Hrun. unfold nodeAt in Hchild.
    destruct (Properties root) as [props|]; [|discriminate].
    destruct (validateProperties path depth props _) as [issues3|e|] eqn:Hprops;
      [|discriminate..].
    destruct (validateProperties_finds path depth props _ issues3 key child
                Hprops Hchild) as (before & run & Hchildrun & Hincl).
    destruct (IH child (childPath path key) (depth + 1) before run node
                Hchildrun Hsub Hreach) as (before' & run' & Hnode & Hincl').
    exists before', run'.
    replace (depth + Z.of_nat (S (length rest)))
      with (depth + 1 + Z.of_nat (length rest)) by lia.
    split; [exact Hnode|].
    eapply incl_tran; [exact Hincl'|]. eapply incl_tran; [exact Hincl|].
    destruct (hasArrayType root);
      [|injection Hrun as <-; apply incl_refl].
    destruct (Items root) as [itemSchema|];
      [|injection Hrun as <-; apply incl_refl].
    rewrite <- (app_nil_r issues3), validateSchema_prepend in Hrun.
    destruct (validateSchema itemSchema _ _ []); [|discriminate..].
    injection Hrun as <-. apply incl_appl, incl_refl.
  - apply andb_true_iff in Hreach as [Harray Hreach].
    destruct (Items root) as [itemSchema|] eqn:Hitems; [|discriminate].
    rewrite validateSchema_unfold in Hrun.
    destruct (checkNamingConventions root path issues) as [named|e|];
      [|discriminate..].
    cbv zeta in Hrun.
    destruct (match Properties root with
              | Some props => _
              | None => _
              end) as [issues3|e|]; [|discriminate..].
    rewrite Harray, Hitems in Hrun.
    destruct (IH itemSchema (path +:+ "[]") (depth + 1) issues3 out node
                Hrun Hsub Hreach) as (before' & run' & Hnode & Hincl').
    exists before', run'.
    replace (depth + Z.of_nat (S (length rest)))
      with (depth + 1 + Z.of_nat (length rest)) by lia.
    auto.
Qed.

(** ** The hint about element counts *)

(** C4, as amended: for a node the walk of the linter comes to (through any
    property, and through the items of nodes whose type set includes array)
    whose type set includes array, whose path - the path the walk gives it -
    contains [secret], [config] or [certificate] spelled as here, in lower
    case (the match is case-sensitive), and which has neither [minItems]
    nor [maxItems]: the array check adds the info-level hint at the node's
    path, every list the linter returns for the root holds it, and the
    linter does return when its walk meets no empty property name. *)
Theorem array_constraints_hint root position node :
  subtree root position = Some node ->
  lintReaches root position = true ->
  In TypeArray (typeSet (Type_ node)) ->
  Strings.Contains (lintPath "" position) "secret"
  || Strings.Contains (lintPath "" position) "config"
  || Strings.Contains (lintPath "" position) "certificate" = true ->
  MinItems node = None ->
  MaxItems node = None ->
  Level (constraintsHint (lintPath "" position)) = Info
  /\ (forall issues,
         In (constraintsHint (lintPath "" position))
            (checkArrayStructures node (lintPath "" position) issues))
  /\ (forall out,
         ValidateHelmBestPractices root = Ok out ->
         In (constraintsHint (lintPath "" position)) out)
  /\ (visitsEmptyName root "" = false ->
      exists out,
        ValidateHelmBestPractices root = Ok out
        /\ In (constraintsHint (lintPath "" position)) out).
Proof.
  intros Hsub Hreach Harray Hname Hmin Hmax.
  set (path := lintPath "" position) in *.
  assert (Hpath : path <> "") by (intros E; rewrite E in Hname; discriminate).
  assert (Hhint : forall before,
             In (constraintsHint path)
                (checkArrayStructures node path before)).
  { intros before. unfold checkArrayStructures.
    apply hasArrayType_typeSet in Harray. rewrite Harray.
    apply String.eqb_neq in Hpath. rewrite Hpath, Hname, Hmin, Hmax.
    simpl. apply in_or_app. right. by left. }
  assert (Hall : forall out,
             ValidateHelmBestPractices root = Ok out ->
             In (constraintsHint path) out).
  { intros out Hrun. unfold ValidateHelmBestPractices in Hrun.
    destruct (validateSchema_reaches position root "" 0 [] out node
                Hrun Hsub Hreach) as (before & run & Hnode & Hincl).
    destruct (validateSchema_reports _ _ _ _ _ Hnode) as (named & _ & Hloc).
    apply Hincl, Hloc, checkDocumentation_incl, Hhint. }
  split; [reflexivity|]. split; [exact Hhint|]. split; [exact Hall|].
  intros Hvisit. unfold ValidateHelmBestPractices in *.
  destruct (validateSchema_outcome root "" 0 []) as [_ Hgood].
  destruct (Hgood Hvisit) as (out & Hrun & _).
  exists out. split; [exact Hrun|]. by apply Hall.
Qed.

Lemma array_constraints_hint_witness :
  let secrets :=
    typed TypeArray None
      (Some (typed TypeObject
               (Some [("name", typed TypeString None None);
                      ("value", typed TypeString None None)]) None)) in
  let root :=
    typed TypeObject
      (Some [("app",
              typed TypeObject
                (Some [("replicas", typed TypeInteger None None);
                       ("secrets", secrets)]) None)]) None in
  exists out,
    ValidateHelmBestPractices root = Ok out
    /\ In (constraintsHint "app.secrets") out.
Proof.
  intros secrets root.
  destruct (array_constraints_hint root
              [AtProperty "app"; AtProperty "secrets"] secrets)
    as (_ & _ & _ & Hrun);
    [reflexivity|reflexivity|left; reflexivity|reflexivity|reflexivity
    |reflexivity|].
  apply Hrun. reflexivity.
Defined.

(** C4 as worded fails: the match is case-sensitive.  The array at
    [mySecrets], whose path contains [secret] once lowered, gets no hint. *)
Lemma array_hint_is_case_sensitive :
  let root :=
    typed TypeObject (Some [("mySecrets", typed TypeArray None None)]) None in
  Strings.Contains (Strings.ToLower "mySecrets") "secret" = true
  /\ ValidateHelmBestPractices root
     = Ok [ {| Path := "mySecrets";
               Message := "Array should define an items schema for validation";
               Level := Warning |};
            {| Path := "mySecrets";
               Message := "Property should have a description";
               Level := Warning |} ]
  /\ forall out,
       ValidateHelmBestPractices root = Ok out ->
       ~ In (constraintsHint "mySecrets") out.
Proof.
  intros root. split; [reflexivity|]. split; [reflexivity|].
  intros out Hout. vm_compute in Hout. injection Hout as <-.
  intros [H|[H|[]]]; discriminate H.
Qed.

(** X19: when the linter returns, the diagnostics of every node its walk
    comes to are in the list: for a node at [position], what the four
    checks report on it alone, at the path and depth the walk gives it, is
    included in the result. *)
Theorem linter_reports_every_reached_node root position node out :
  ValidateHelmBestPractices root = Ok out ->
  subtree root position = Some node ->
  lintReaches root position = true ->
  exists local,
    nodeDiagnostics node (lintPath "" position) (Z.of_nat (length position))
    = Ok local
    /\ incl local out.
Proof.
  intros Hrun Hsub Hreach. unfold ValidateHelmBestPractices in Hrun.
  destruct (validateSchema_reaches position root "" 0 [] out node
              Hrun Hsub Hreach) as (before & run & Hnode & Hincl).
  rewrite Z.add_0_l in Hnode.
  destruct (validateSchema_reports _ _ _ _ _ Hnode) as (named & Hnamed & Hloc).
  rewrite <- (app_nil_r before) in Hnamed.
  rewrite checkNamingConventions_prepend in Hnamed.
  unfold nodeDiagnostics.
  destruct (checkNamingConventions node _ []) as [named0|e|];
    [|discriminate..].
  injection Hnamed as <-.
  rewrite checkNestingDepth_prepend, checkArrayStructures_prepend,
    checkDocumentation_prepend in Hloc.
  eexists. split; [reflexivity|].
  eapply incl_tran; [|exact Hincl].
  eapply incl_tran; [|exact Hloc]. apply incl_appr, incl_refl.
Qed.

Lemma linter_reports_every_reached_node_witness :
  let port := typed TypeInteger None None in
  let root :=
    typed TypeObject
      (Some [("service", typed TypeObject (Some [("port", port)]) None)])
      None in
  exists out local,
    ValidateHelmBestPractices root = Ok out
    /\ nodeDiagnostics port "service.port" 2 = Ok local
    /\ incl local out
    /\ In {| Path := "service.port";
             Message := "Property should have a description";
             Level := Warning |} local.
Proof.
  intros port root.
  assert (Hrun : exists out, ValidateHelmBestPractices root = Ok out)
    by (eexists; vm_compute; reflexivity).
  destruct Hrun as [out Hrun].
  destruct (linter_reports_every_reached_node root
              [AtProperty "service"; AtProperty "port"] port out Hrun
              eq_refl eq_refl) as (local & Hlocal & Hincl).
  exists out, local. repeat split; auto.
  vm_compute in Hlocal. injection Hlocal as <-. by left.
Defined.

(** ** The enricher, continued *)

Lemma hasKey_map {A B : Type} (f : A -> B) (m : list (string * A)) key :
  hasKey (map (fun kv => (fst kv, f (snd kv))) m) key = hasKey m key.
Proof.
  unfold hasKey. induction m as [|[k v] m IH]; simpl; [reflexivity|].
  by rewrite IH.
Qed.

Lemma Specialize_unnamed_shape schema :
  isNamedShape schema = false ->
  isNamedShape (SpecializeSchemaForHelm schema) = false.
Proof.
  unfold isNamedShape. intros Hshape.
  apply orb_false_iff in Hshape as [Himage Hresources].
  destruct schema as [sv title description ty format properties required items
                        minItems maxItems enum default examples helmPath].
  simpl SpecializeSchemaForHelm. rewrite Himage, Hresources.
  unfold isImageConfig, isResourcesConfig in *. simpl in *.
  destruct properties as [props|]; [|reflexivity].
  destruct (typeIs ty TypeObject); [|reflexivity].
  by rewrite !hasKey_map, Himage, Hresources.
Qed.

Lemma map_snd_twice (f : Schema -> Schema) (props : list (string * Schema)) :
  Forall (fun kv => f (f (snd kv)) = f (snd kv)) props ->
  map (fun kv => (fst kv, f (snd kv)))
    (map (fun kv => (fst kv, f (snd kv))) props)
  = map (fun kv => (fst kv, f (snd kv))) props.
Proof.
  induction 1 as [|[k v] rest Hv _ IH]; simpl; [reflexivity|].
  simpl in Hv. by rewrite Hv, IH.
Qed.

(** X20: [SpecializeSchemaForHelm] settles in one pass.  Running it on its
    own result changes nothing: a canonical fragment is recognised again as
    the same named shape and is rebuilt at the same path, and a node that is
    no named shape stays none, since it keeps its type and the names of its
    properties.  The walk also leaves the [HelmPath] of the node it is given
    as it was. *)
Theorem Specialize_settles schema :
  SpecializeSchemaForHelm (SpecializeSchemaForHelm schema)
  = SpecializeSchemaForHelm schema
  /\ HelmPath (SpecializeSchemaForHelm schema) = HelmPath schema
  /\ isNamedShape (SpecializeSchemaForHelm (SpecializeSchemaForHelm schema))
     = isNamedShape (SpecializeSchemaForHelm schema).
Proof.
  assert (Hpath : forall s,
             HelmPath (SpecializeSchemaForHelm s) = HelmPath s).
  { intros s. destruct s. simpl.
    destruct (isImageConfig _); [reflexivity|].
    by destruct (isResourcesConfig _). }
  assert (Hidem : SpecializeSchemaForHelm (SpecializeSchemaForHelm schema)
                  = SpecializeSchemaForHelm schema).
  { induction schema as [sv title description ty format properties required
                           items minItems maxItems enum default examples
                           helmPath IHprops IHitems] using Schema_nested_ind.
    set (schema := mkSchema sv title description ty format properties required
                     items minItems maxItems enum default examples helmPath).
    destruct (isNamedShape schema) eqn:Hshape.
    - rewrite (Specialize_named schema Hshape). unfold canonicalFragment.
      by destruct (isImageConfig schema).
    - pose proof (Specialize_unnamed_shape schema Hshape) as Hshape'.
      unfold isNamedShape in Hshape, Hshape'.
      apply orb_false_iff in Hshape as [Himage Hresources].
      apply orb_false_iff in Hshape' as [Himage' Hresources'].
      revert Himage' Hresources'.
      unfold schema at 1 2 3 4. simpl SpecializeSchemaForHelm.
      fold schema. rewrite Himage, Hresources.
      intros Himage' Hresources'.
      simpl SpecializeSchemaForHelm. rewrite Himage', Hresources'.
      f_equal.
      + destruct properties as [props|]; [|reflexivity].
        destruct (typeIs ty TypeObject) eqn:Hobject;
          rewrite ?Hobject; [|reflexivity].
        f_equal. by apply map_snd_twice.
      + destruct items as [itemSchema|]; [|reflexivity].
        destruct (typeIs ty TypeArray) eqn:Harray;
          rewrite ?Harray; [|reflexivity].
        by rewrite IHitems. }
  split; [exact Hidem|]. split; [apply Hpath|]. by rewrite Hidem.
Qed.

(** ** The comment extractor of the first package *)

Lemma legacy_scan_other st line :
  isKeyLine line = false ->
  Legacy.currentPath (Legacy.scanOne st line) = Legacy.currentPath st
  /\ Legacy.currentIndent (Legacy.scanOne st line) = Legacy.currentIndent st.
Proof.
  unfold isKeyLine, Legacy.scanOne. intros Hkey.
  destruct (isBlankLine line); [auto|].
  destruct (isCommentLine line); [auto|].
  simpl in Hkey. by rewrite Hkey.
Qed.

Lemma legacy_scan_unindented st line :
  isKeyLine line = true ->
  lineIndent line = 0 ->
  Legacy.currentIndent st = 0 ->
  Legacy.currentPath (Legacy.scanOne st line)
  = Legacy.currentPath st ++ [lineKey line]
  /\ Legacy.currentIndent (Legacy.scanOne st line) = 0.
Proof.
  unfold isKeyLine, Legacy.scanOne. intros Hkey Hindent Hcurrent.
  apply andb_true_iff in Hkey as [Hkey Hcolon].
  apply andb_true_iff in Hkey as [Hblank Hcomment].
  apply negb_true_iff in Hblank, Hcomment.
  rewrite Hblank, Hcomment, Hcolon, Hindent, Hcurrent. simpl.
  unfold Legacy.popLevels, Legacy.pushKey. by simpl.
Qed.

(** X21: the extractor of the first package appends the key of every key
    line that is not indented to the path it holds, it does not start a new
    path there.  In a text whose key lines are all unindented the path after
    the scan is the path before it followed by the keys of all its key
    lines, in order: the comment above the n-th key of a flat values file is
    stored under the first n keys joined by dots. *)
Theorem legacy_flat_keys_pile_up lines : forall st,
  Forall (fun line => isKeyLine line = true -> lineIndent line = 0) lines ->
  Legacy.currentIndent st = 0 ->
  Legacy.currentPath (fold_left Legacy.scanOne lines st)
  = Legacy.currentPath st ++ map lineKey (List.filter isKeyLine lines)
  /\ Legacy.currentIndent (fold_left Legacy.scanOne lines st) = 0.
Proof.
  induction lines as [|line lines IH]; intros st Hflat Hcurrent; simpl.
  - by rewrite app_nil_r.
  - apply Forall_cons in Hflat as [Hline Hflat].
    destruct (isKeyLine line) eqn:Hkey.
    + destruct (legacy_scan_unindented st line Hkey (Hline eq_refl) Hcurrent)
        as [Hpath Hindent].
      destruct (IH (Legacy.scanOne st line) Hflat Hindent) as [Hpath' Hindent'].
      rewrite Hpath', Hpath, <- app_assoc. by split.
    + destruct (legacy_scan_other st line Hkey) as [Hpath Hindent].
      destruct (IH (Legacy.scanOne st line) Hflat) as [Hpath' Hindent'].
      { by rewrite Hindent. }
      rewrite Hpath', Hpath. by split.
Qed.

Lemma legacy_flat_keys_pile_up_witness :
  let yamlData :=
    "# first" +:+ newline +:+ "name: app" +:+ newline
    +:+ "# second" +:+ newline +:+ "port: 80" +:+ newline in
  let lines := Strings.ScanLines yamlData in
  Legacy.currentPath
    (fold_left Legacy.scanOne lines
       (Legacy.startOfScan Legacy.NewCommentExtractor))
  = ["name"; "port"]
  /\ Legacy.comments
       (Legacy.ExtractFromYAML Legacy.NewCommentExtractor yamlData)
     !! "name.port" = Some "second"
  /\ Legacy.GetComment
       (Legacy.ExtractFromYAML Legacy.NewCommentExtractor yamlData) "port"
     = "".
Proof.
  intros yamlData lines. split; [|split; vm_compute; reflexivity].
  destruct (legacy_flat_keys_pile_up lines
              (Legacy.startOfScan Legacy.NewCommentExtractor)) as [Hpath _].
  - repeat constructor.
  - reflexivity.
  - exact Hpath.
Defined.
